(** * Constellate credential claims: a shallow embedding of [src/jwt.js] and
    [src/util.js], with the properties of the claims pipeline proved over it.

    Layout: JavaScript values and the handful of language operations the two
    modules use; the error monad standing for [throw] / [try]-[catch];
    [util.js]; the schema vocabulary and the schemas declared in [jwt.js];
    the collaborators the module imports; [jwt.js] itself; a small object
    store for the two builders; then the theorems. *)

From Stdlib Require Import ZArith Ascii String List Bool Lia Permutation.
From stdpp Require Import base option list gmap strings pretty sorting.
Import ListNotations.

Local Open Scope string_scope.
Local Open Scope Z_scope.

(** ** JavaScript values *)

(** The documents exchanged by the module (claims, headers, metadata) are
    JSON-like trees; [undefined] is added because property reads produce it.
    Numbers are the integers: every numeric field of the schemas below is
    declared ['integer'].  An object is the list of its own enumerable
    properties in enumeration order. *)
Unset Elimination Schemes.
Inductive JSValue : Type :=
  | JUndefined
  | JNull
  | JBool (b : bool)
  | JNum (n : Z)
  | JStr (s : string)
  | JArr (items : list JSValue)
  | JObj (props : list (string * JSValue)).
Set Elimination Schemes.

(** A [Buffer] is a byte sequence. *)
Definition Buffer : Type := list Byte.byte.

(** The number of constructors of a value, the measure for inductions over
    nested values. *)
Fixpoint jsize (v : JSValue) : nat :=
  match v with
  | JArr items => S (list_sum (List.map jsize items))
  | JObj props => S (list_sum (List.map (fun p => jsize (snd p)) props))
  | _ => 1%nat
  end.

(** ** Errors *)

(** What the code throws.  Each [new Error(message)] of [jwt.js] has its own
    tag (the interpolated values of the message are dropped); [TypeError]
    stands for the errors the runtime raises (a property read on [null] or
    [undefined], a call of something that is not a function). *)
Inductive Thrown : Type :=
  | TypeError
  | BadKeyLength (expected got : nat)
  | InvalidClaimsSchema
  | UnexpectedTyp
  | IatLaterThanNow
  | AudContainsIss
  | ExpNotAfterIat
  | ExpNotAfterNbf
  | ClaimsExpired
  | NbfNotAfterIat
  | ClaimsNotYetValid
  | JtiMismatch
  | SubMismatch
  | IssNotAlbumArtist
  | IssNotComposerOrLyricist
  | IssNotPerformerOrProducer
  | UnexpectedMetaType
  | InvalidHeaderSchema
  | PublicKeyAddrMismatch
  | InvalidEd25519Signature
  | InvalidSecp256k1Signature
  | UncompressFailed.

Inductive Result (A : Type) : Type :=
  | Ok (a : A)
  | Throw (e : Thrown).
Arguments Ok {A} a.
Arguments Throw {A} e.

Definition bind {A B} (r : Result A) (k : A -> Result B) : Result B :=
  match r with
  | Ok a => k a
  | Throw e => Throw e
  end.

Notation "'let*' x ':=' r 'in' k" := (bind r (fun x => k))
  (at level 10, x name, r at level 100, k at level 200).

(** [if (cond) throw e;] *)
Definition throw_if (cond : bool) (e : Thrown) : Result unit :=
  if cond then Throw e else Ok tt.

Notation "'check!' c 'else' e 'in' k" := (bind (throw_if (negb c) e) (fun _ => k))
  (at level 10, c at level 100, e at level 100, k at level 200).
Notation "'throw!' e 'when' c 'in' k" := (bind (throw_if c e) (fun _ => k))
  (at level 10, c at level 100, e at level 100, k at level 200).

(** ** Language operations *)

Module JS.

(** [obj[k]] on an object: the value of the own property, [undefined] when
    there is none. *)
Fixpoint lookup_prop (k : string) (props : list (string * JSValue)) : JSValue :=
  match props with
  | [] => JUndefined
  | (k', v) :: rest => if String.eqb k k' then v else lookup_prop k rest
  end.

Fixpoint has_prop (k : string) (props : list (string * JSValue)) : bool :=
  match props with
  | [] => false
  | (k', _) :: rest => String.eqb k k' || has_prop k rest
  end.

(** [v.k] for the property names this module reads ([typ], [iat], [aud],
    [iss], [exp], [nbf], [jti], [sub], [alg], [jwk], [x], [y], [@type] and
    the role lists).  Reading from [null] or [undefined] throws.  Arrays,
    strings, numbers and booleans have none of these names among their
    properties, with one exception: a string has the inherited method
    [sub]; [validateClaims] rejects a string for its missing [typ] before
    it reads [sub]. *)
Definition get (k : string) (v : JSValue) : Result JSValue :=
  match v with
  | JUndefined | JNull => Throw TypeError
  | JObj props => Ok (lookup_prop k props)
  | _ => Ok JUndefined
  end.

(** ToBoolean. *)
Definition truthy (v : JSValue) : bool :=
  match v with
  | JUndefined | JNull => false
  | JBool b => b
  | JNum n => negb (n =? 0)
  | JStr s => negb (String.eqb s "")
  | JArr _ | JObj _ => true
  end.

(** [a === b].  Values are trees, as [JSON.parse] or a literal builds
    them: two arrays or objects met at different places are different
    allocations, and [===] on them compares identity. *)
Definition strict_eq (a b : JSValue) : bool :=
  match a, b with
  | JUndefined, JUndefined => true
  | JNull, JNull => true
  | JBool x, JBool y => Bool.eqb x y
  | JNum x, JNum y => x =? y
  | JStr x, JStr y => String.eqb x y
  | _, _ => false
  end.

(** The elements [v.some(f)] runs over, or a [TypeError] when [v] has no
    method [some]. *)
Definition some (v : JSValue) (f : JSValue -> bool) : Result bool :=
  match v with
  | JArr items => Ok (existsb f items)
  | JUndefined | JNull | JBool _ | JNum _ | JStr _ | JObj _ => Throw TypeError
  end.

(** [v.concat(w)]: only arrays are spread, anything else is appended as
    one element.  A string has a [concat] too; it yields a string, whose
    characters are not tracked here since the one use made of the result
    is a call of [some], which no string has. *)
Definition spread (w : JSValue) : list JSValue :=
  match w with
  | JArr more => more
  | _ => [w]
  end.

Definition concat (v w : JSValue) : Result JSValue :=
  match v with
  | JArr items => Ok (JArr (items ++ spread w))
  | JStr s => Ok (JStr s)
  | _ => Throw TypeError
  end.

(** The own enumerable properties [Object.keys] and [Object.assign] see. *)
Fixpoint indexed_from (i : nat) (items : list JSValue) : list (string * JSValue) :=
  match items with
  | [] => []
  | x :: rest => (pretty i, x) :: indexed_from (S i) rest
  end.

Fixpoint chars (s : string) : list JSValue :=
  match s with
  | EmptyString => []
  | String c rest => JStr (String c EmptyString) :: chars rest
  end.

Definition own_props (v : JSValue) : list (string * JSValue) :=
  match v with
  | JObj props => props
  | JArr items => indexed_from 0 items
  | JStr s => indexed_from 0 (chars s)
  | _ => []
  end.

(** [Object.keys(v)] throws on [null] and [undefined]. *)
Definition keys (v : JSValue) : Result (list string) :=
  match v with
  | JUndefined | JNull => Throw TypeError
  | _ => Ok (List.map fst (own_props v))
  end.

(** The number a string of decimal digits writes; [None] when it holds
    another character. *)
Fixpoint digits (s : string) (acc : N) : option N :=
  match s with
  | EmptyString => Some acc
  | String c rest =>
      let n := N_of_ascii c in
      if ((48 <=? n) && (n <=? 57))%N then digits rest (10 * acc + (n - 48))%N
      else None
  end.

(** [k] is an array index: the decimal writing, without sign or leading
    zero, of an integer below [2^32 - 1]. *)
Definition array_index (k : string) : option N :=
  match k with
  | EmptyString => None
  | String c rest =>
      match digits k 0 with
      | Some n =>
          if (negb (Ascii.eqb c "0") || String.eqb rest "")
             && (n <? 4294967295)%N
          then Some n else None
      | None => None
      end
  end.

(** The order in which an object lists its own keys: the array indices
    first, in ascending order, then the other keys in the order of their
    creation.  A new key [k] is listed before the existing key [k'] when
    [k] is an index and [k'] is a greater index or no index. *)
Definition precedes (k k' : string) : bool :=
  match array_index k, array_index k' with
  | Some n, Some n' => (n <? n')%N
  | Some _, None => true
  | None, _ => false
  end.

(** A new property, at the place the order gives it. *)
Fixpoint place (k : string) (v : JSValue) (props : list (string * JSValue))
  : list (string * JSValue) :=
  match props with
  | [] => [(k, v)]
  | (k', v') :: rest =>
      if precedes k k' then (k, v) :: (k', v') :: rest
      else (k', v') :: place k v rest
  end.

(** An existing property keeps its place and takes the new value. *)
Fixpoint update (k : string) (v : JSValue) (props : list (string * JSValue))
  : list (string * JSValue) :=
  match props with
  | [] => []
  | (k', v') :: rest =>
      if String.eqb k k' then (k, v) :: rest else (k', v') :: update k v rest
  end.

(** [target[k] = v] on an object that inherits from [Object.prototype], as
    the targets of this module do, each being a fresh [{}].  An own
    property is updated; otherwise a property is created, except under the
    name [__proto__]: this is the accessor of [Object.prototype], whose
    setter creates no property.  It replaces the prototype of the target
    when [v] is an object or [null] and does nothing for any other [v].
    The values here hold the own properties of an object, not its
    prototype. *)
Definition set_prop (k : string) (v : JSValue) (props : list (string * JSValue))
  : list (string * JSValue) :=
  if has_prop k props then update k v props
  else if String.eqb k "__proto__" then props
  else place k v props.

(** [Object.assign(target, source)] on the property list of the target;
    [null] and [undefined] sources have no properties. *)
Definition assign (target : list (string * JSValue)) (source : JSValue)
  : list (string * JSValue) :=
  fold_left (fun t kv => set_prop (fst kv) (snd kv) t) (own_props source) target.

End JS.

(** ** [JSON.stringify] *)

Module JSON.

Definition dquote : ascii := "034"%char.
Definition backslash : ascii := "092"%char.

Definition hex_digit (n : N) : ascii :=
  match n with
  | 0 => "0" | 1 => "1" | 2 => "2" | 3 => "3" | 4 => "4" | 5 => "5"
  | 6 => "6" | 7 => "7" | 8 => "8" | 9 => "9" | 10 => "a" | 11 => "b"
  | 12 => "c" | 13 => "d" | 14 => "e" | _ => "f"
  end%char%N.

(** The escape of one character inside a JSON string. *)
Definition escape (c : ascii) : string :=
  let n := N_of_ascii c in
  if (n =? 34)%N then String backslash (String dquote EmptyString)
  else if (n =? 92)%N then String backslash (String backslash EmptyString)
  else if (n =? 8)%N then String backslash "b"
  else if (n =? 9)%N then String backslash "t"
  else if (n =? 10)%N then String backslash "n"
  else if (n =? 12)%N then String backslash "f"
  else if (n =? 13)%N then String backslash "r"
  else if (n <? 32)%N then
    String backslash
      (String "u" (String "0" (String "0"
        (String (hex_digit (n / 16)) (String (hex_digit (n mod 16)) EmptyString)))))
  else String c EmptyString.

Fixpoint escape_all (s : string) : string :=
  match s with
  | EmptyString => EmptyString
  | String c rest => escape c ++ escape_all rest
  end.

(** QuoteJSONString *)
Definition quote (s : string) : string :=
  String dquote (escape_all s ++ String dquote EmptyString).

Definition newline : string := String "010"%char EmptyString.

(** The closing steps shared by SerializeJSONObject and
    SerializeJSONArray: [partial] holds the serialised members,
    [stepback] the indentation before the value was entered. *)
Definition wrap (opening closing gap stepback indent : string)
    (partial : list string) : string :=
  match partial with
  | [] => opening ++ closing
  | _ =>
      if String.eqb gap "" then
        opening ++ String.concat "," partial ++ closing
      else
        opening ++ newline ++ indent
          ++ String.concat ("," ++ newline ++ indent) partial
          ++ newline ++ stepback ++ closing
  end.

Fixpoint assoc {A} (k : string) (l : list (string * A)) : option A :=
  match l with
  | [] => None
  | (k', a) :: rest => if String.eqb k k' then Some a else assoc k rest
  end.

(** One member of an object, [None] when the property is absent or its
    value serialises to [undefined]. *)
Definition member (gap : string) (serialised : list (string * option string))
    (P : string) : option string :=
  match assoc P serialised with
  | Some (Some str) =>
      Some (quote P ++ ":" ++ (if String.eqb gap "" then "" else " ") ++ str)
  | _ => None
  end.

(** SerializeJSONProperty on a value, with the property list [K] of an
    array replacer ([None]: no replacer, every own key in enumeration
    order).  The result is [None] where the algorithm yields [undefined].
    The values of all own properties are serialised first and the members
    are then picked in the order of the property list.  An integer prints
    in decimal, as the engine prints the integers below 10^21. *)
Fixpoint serialize (K : option (list string)) (gap indent : string)
    (v : JSValue) : option string :=
  match v with
  | JUndefined => None
  | JNull => Some "null"
  | JBool true => Some "true"
  | JBool false => Some "false"
  | JNum n => Some (pretty n)
  | JStr s => Some (quote s)
  | JArr items =>
      let inner := indent ++ gap in
      let partial :=
        List.map (fun x => default "null" (serialize K gap inner x)) items in
      Some (wrap "[" "]" gap indent inner partial)
  | JObj props =>
      let inner := indent ++ gap in
      let serialised :=
        List.map (fun p => (fst p, serialize K gap inner (snd p))) props in
      let names := match K with Some ks => ks | None => List.map fst props end in
      Some (wrap "{" "}" gap indent inner (omap (member gap serialised) names))
  end.

(** The property list an array replacer gives: its strings in order, each
    kept at its first occurrence. *)
Fixpoint property_list (seen replacer : list string) : list string :=
  match replacer with
  | [] => []
  | k :: rest =>
      if existsb (String.eqb k) seen then property_list seen rest
      else k :: property_list (k :: seen) rest
  end.

(** The gap of a numeric [space] argument: at most ten blanks. *)
Definition gap_of (space : option Z) : string :=
  match space with
  | None => ""
  | Some n => string_of_list_ascii (repeat " "%char (Z.to_nat (Z.min 10 n)))
  end.

(** [JSON.stringify(v, replacer, space)] with an array replacer. *)
Definition stringify (v : JSValue) (replacer : list string) (space : option Z)
  : option string :=
  serialize (Some (property_list [] replacer)) (gap_of space) "" v.

(** The keys a function replacer is called with while the items of an
    array are serialised: each index, followed by the keys met below the
    item. *)
Definition visit_items (below : JSValue -> list string)
  : nat -> list JSValue -> list string :=
  fix go (i : nat) (xs : list JSValue) : list string :=
    match xs with
    | [] => []
    | x :: rest => (pretty i :: below x ++ go (S i) rest)%list
    end.

(** The keys a function replacer is called with below a value: every own
    key of every object and every index of every array, whatever the
    value stored under it. *)
Fixpoint visited (v : JSValue) : list string :=
  match v with
  | JArr items => visit_items visited 0%nat items
  | JObj props => flat_map (fun p => fst p :: visited (snd p)) props
  | _ => []
  end.

End JSON.

(** ** [src/util.js] *)

(** The two packages [util.js] requires for its digest. *)
Record DigestLib : Type := {
  (** [sha3_256.buffer(str)] of [js-sha3], as a [Buffer] *)
  sha3_256 : string -> Buffer;
  (** [urlsafeBase64.encode(buffer)] of [urlsafe-base64] *)
  urlsafeBase64_encode : Buffer -> string
}.

Module Util.
Section Util.
Context (D : DigestLib).

Definition sha3Buffer (str : string) : Buffer := sha3_256 D str.

(** [urlsafeBase64.encode] returns a string, whose [toString] ignores the
    arguments it is given. *)
Definition digestBase64 (str : string) : string :=
  urlsafeBase64_encode D (sha3Buffer str).

(** [keys.sort()]: the default order compares strings by code units; a
    sorted arrangement of given strings is unique, so the sorting
    algorithm of the engine does not show in the result. *)
Definition sort (ks : list string) : list string := merge_sort String.le ks.

(** The first [JSON.stringify] only gathers keys: its replacer is called
    with the empty key for the root and then with every key below, and it
    hands each value back unchanged. *)
Definition orderStringify (obj : JSValue) (space : option Z) : option string :=
  let keys := "" :: JSON.visited obj in
  JSON.stringify obj (sort keys) space.

(** [orderStringify(val1) === orderStringify(val2)] *)
Definition isEqual (val1 val2 : JSValue) : bool :=
  bool_decide (orderStringify val1 None = orderStringify val2 None).

(** [arr.reduce((result, [key, val]) => Object.assign({}, result, {[key]: val}), {})] *)
Definition objectFromArray (arr : list (string * JSValue)) : JSValue :=
  JObj (fold_left
          (fun result kv => JS.assign (JS.assign [] (JObj result)) (JObj [kv]))
          arr []).

(** The [reduce] of [withoutKeys] over the own keys of [obj]: a key among
    [keys] is skipped, any other is copied with [obj[key]] into a new
    object. *)
Definition without (obj : JSValue) (keys own : list string)
  : list (string * JSValue) :=
  fold_left
    (fun result key =>
       if existsb (String.eqb key) keys then result
       else JS.assign (JS.assign [] (JObj result))
              (objectFromArray [(key, JS.lookup_prop key (JS.own_props obj))]))
    own [].

(** [Object.keys(obj).reduce(..., {})] *)
Definition withoutKeys (obj : JSValue) (keys : list string) : Result JSValue :=
  let* own := JS.keys obj in
  Ok (JObj (without obj keys own)).

(** *** Type tests *)

(** [arr != null && Array.isArray(arr) && arr.length > 0] *)
Definition isArray (arr : JSValue) : bool :=
  match arr with
  | JArr (_ :: _) => true
  | _ => false
  end.

Definition isBoolean (b : JSValue) : bool :=
  match b with
  | JBool _ => true
  | _ => false
  end.

Definition isNumber (num : JSValue) : bool :=
  match num with
  | JNum _ => true
  | _ => false
  end.

(** [obj != null && obj.constructor === Object && Object.keys(obj).length > 0].
    The [constructor] of an array, a string, a number or a boolean is its
    own class; an object inherits [Object] unless it has a property named
    [constructor], whose value, being data, is not [Object]. *)
Definition isObject (obj : JSValue) : bool :=
  match obj with
  | JObj props => negb (JS.has_prop "constructor" props) && (0 <? length props)%nat
  | _ => false
  end.

(** [str != null && typeof str === 'string' && str.length > 0] *)
Definition isString (str : JSValue) : bool :=
  match str with
  | JStr s => negb (String.eqb s "")
  | _ => false
  end.

(** *** Objects and arrays of pairs *)

(** [Object.keys(obj).map((key) => [key, obj[key]])], a pair [[key, value]]
    being a Rocq pair. *)
Definition arrayFromObject (obj : JSValue) : Result (list (string * JSValue)) :=
  let* own := JS.keys obj in
  Ok (List.map (fun key => (key, JS.lookup_prop key (JS.own_props obj))) own).

(** [obj.hasOwnProperty(key)].  An array and a string own their indices and
    [length]; an object that has a property named [hasOwnProperty] holds
    data under it, which cannot be called. *)
Definition hasOwnProperty (obj : JSValue) (key : string) : Result bool :=
  match obj with
  | JUndefined | JNull => Throw TypeError
  | JObj props =>
      if JS.has_prop "hasOwnProperty" props then Throw TypeError
      else Ok (JS.has_prop key props)
  | JArr _ | JStr _ =>
      Ok (JS.has_prop key (JS.own_props obj) || String.eqb key "length")
  | _ => Ok false
  end.

(** [obj[key]] for a key the value owns. *)
Definition read_own (obj : JSValue) (key : string) : JSValue :=
  match obj with
  | JArr items =>
      if String.eqb key "length" then JNum (Z.of_nat (length items))
      else JS.lookup_prop key (JS.own_props obj)
  | JStr s =>
      if String.eqb key "length" then JNum (Z.of_nat (String.length s))
      else JS.lookup_prop key (JS.own_props obj)
  | _ => JS.lookup_prop key (JS.own_props obj)
  end.

(** [v != null] *)
Definition not_nullish (v : JSValue) : bool :=
  match v with
  | JUndefined | JNull => false
  | _ => true
  end.

(** [obj.hasOwnProperty(key) && obj[key] != null] *)
Definition hasKey (obj : JSValue) (key : string) : Result bool :=
  let* own := hasOwnProperty obj key in
  Ok (own && not_nullish (read_own obj key)).

(** [keys.every((key) => hasKey(obj, key))]: stops at the first [false]. *)
Fixpoint every_hasKey (obj : JSValue) (keys : list string) : Result bool :=
  match keys with
  | [] => Ok true
  | key :: rest =>
      let* found := hasKey obj key in
      if found then every_hasKey obj rest else Ok false
  end.

(** [if (!isArray(keys)) { return false; } return keys.every(...)], [keys]
    being the rest arguments. *)
Definition hasKeys (obj : JSValue) (keys : list string) : Result bool :=
  if negb (isArray (JArr (List.map JStr keys))) then Ok false
  else every_hasKey obj keys.

(** *** [recurse] *)

(** All results of [f] on the items, [None] as soon as one is [None]. *)
Fixpoint all_some {A B} (f : A -> option B) (l : list A) : option (list B) :=
  match l with
  | [] => Some []
  | a :: rest =>
      match f a, all_some f rest with
      | Some b, Some bs => Some (b :: bs)
      | _, _ => None
      end
  end.

(** [recurse(x, fn)], where [fn] is called with an item alone or with a
    property value and its key.  The calls descend into what [fn] returns,
    which need not be smaller than [x]: [fuel] bounds their depth and
    [None] is the answer when it runs out. *)
Fixpoint recurse (fuel : nat) (fn : JSValue -> option string -> JSValue)
    (x : JSValue) : option JSValue :=
  match fuel with
  | O => None
  | S fuel' =>
      if isArray x then
        match x with
        | JArr items =>
            option_map JArr
              (all_some (fun y => recurse fuel' fn (fn y None)) items)
        | _ => Some x
        end
      else if isObject x then
        match x with
        | JObj props =>
            option_map
              (fun parts => JObj (fold_left JS.assign parts []))
              (all_some
                 (fun k =>
                    option_map (fun r => objectFromArray [(k, r)])
                      (recurse fuel' fn (fn (JS.lookup_prop k props) (Some k))))
                 (List.map fst props))
        | _ => Some x
        end
      else Some x
  end.

End Util.
End Util.

(** ** Schemas *)

Inductive JType : Type := TObject | TString | TInteger | TArray.

(** A [pattern] of the form [^[class]{n}$]: exactly [n] characters, each in
    one of the ranges (a single character is a range of itself). *)
Record Pattern : Type := {
  ranges : list (ascii * ascii);
  count : nat
}.

(** The validation keywords the schemas of this repository use.  A schema is
    the list of the keywords of its object literal; the annotations
    [$schema], [title] and [readonly] constrain nothing and are left out. *)
Unset Elimination Schemes.
Inductive Keyword : Type :=
  | KType (t : JType)
  | KEnum (allowed : list string)
  | KPattern (p : Pattern)
  | KProperties (ps : list (string * list Keyword))
  | KRequired (names : list string)
  | KItems (s : list Keyword)
  | KMinItems (n : nat)
  | KUniqueItems (b : bool)
  | KAllOf (ss : list (list Keyword))
  | KOneOf (ss : list (list Keyword)).
Set Elimination Schemes.

Definition Schema : Type := list Keyword.

Module SchemaLib.

Definition has_type (t : JType) (v : JSValue) : bool :=
  match t, v with
  | TObject, JObj _ => true
  | TString, JStr _ => true
  | TInteger, JNum _ => true
  | TArray, JArr _ => true
  | _, _ => false
  end.

Definition in_class (rs : list (ascii * ascii)) (c : ascii) : bool :=
  existsb (fun r => (N_of_ascii (fst r) <=? N_of_ascii c)%N
                    && (N_of_ascii c <=? N_of_ascii (snd r))%N) rs.

Definition matches (p : Pattern) (s : string) : bool :=
  (String.length s =? count p)%nat
  && forallb (in_class (ranges p)) (list_ascii_of_string s).

(** Deep equality of two values, the one [uniqueItems] compares items
    with: objects are equal when they have the same keys with equal
    values, in any order. *)
Fixpoint deep_equal (a b : JSValue) : bool :=
  match a, b with
  | JUndefined, JUndefined => true
  | JNull, JNull => true
  | JBool x, JBool y => Bool.eqb x y
  | JNum x, JNum y => x =? y
  | JStr x, JStr y => String.eqb x y
  | JArr xs, JArr ys =>
      (fix all2 (xs ys : list JSValue) : bool :=
         match xs, ys with
         | [], [] => true
         | x :: xs', y :: ys' => deep_equal x y && all2 xs' ys'
         | _, _ => false
         end) xs ys
  | JObj ps, JObj qs =>
      (length ps =? length qs)%nat
      && (fix all (ps : list (string * JSValue)) : bool :=
            match ps with
            | [] => true
            | p :: ps' =>
                JS.has_prop (fst p) qs
                && deep_equal (snd p) (JS.lookup_prop (fst p) qs)
                && all ps'
            end) ps
  | _, _ => false
  end.

Fixpoint unique (items : list JSValue) : bool :=
  match items with
  | [] => true
  | x :: rest => negb (existsb (deep_equal x) rest) && unique rest
  end.

(** Modelled from the spec: [validateSchema] of [lib/schema.js], which is
    not among the sources.  It is the SchemaValidator of the spec,
    [validate(value, schema) -> bool] over a declarative shape
    description (type, enum, required fields, pattern-matched strings,
    oneOf/allOf composition), with the meaning JSON Schema gives each
    keyword: a keyword for objects, arrays or strings holds of a value of
    another kind; [properties] constrains the properties that are
    present; [oneOf] asks for exactly one alternative. *)
Fixpoint holds (kw : Keyword) (v : JSValue) {struct kw} : bool :=
  let valid :=
    fix valid (s : list Keyword) (v : JSValue) {struct s} : bool :=
      match s with
      | [] => true
      | k :: rest => holds k v && valid rest v
      end in
  match kw with
  | KType t => has_type t v
  | KEnum allowed =>
      match v with
      | JStr s => existsb (String.eqb s) allowed
      | _ => false
      end
  | KPattern p =>
      match v with
      | JStr s => matches p s
      | _ => true
      end
  | KProperties ps =>
      match v with
      | JObj props =>
          (fix each (ps : list (string * list Keyword)) : bool :=
             match ps with
             | [] => true
             | p :: rest =>
                 match JS.lookup_prop (fst p) props with
                 | JUndefined => true
                 | x => valid (snd p) x
                 end && each rest
             end) ps
      | _ => true
      end
  | KRequired names =>
      match v with
      | JObj props =>
          forallb (fun name =>
                     match JS.lookup_prop name props with
                     | JUndefined => false
                     | _ => true
                     end) names
      | _ => true
      end
  | KItems s =>
      match v with
      | JArr items => forallb (valid s) items
      | _ => true
      end
  | KMinItems n =>
      match v with
      | JArr items => (n <=? length items)%nat
      | _ => true
      end
  | KUniqueItems b =>
      match v with
      | JArr items => negb b || unique items
      | _ => true
      end
  | KAllOf ss =>
      (fix all (ss : list (list Keyword)) : bool :=
         match ss with
         | [] => true
         | s :: rest => valid s v && all rest
         end) ss
  | KOneOf ss =>
      ((fix passing (ss : list (list Keyword)) : nat :=
          match ss with
          | [] => 0%nat
          | s :: rest => ((if valid s v then 1 else 0) + passing rest)%nat
          end) ss =? 1)%nat
  end.

Fixpoint validateSchema (v : JSValue) (s : Schema) : bool :=
  match s with
  | [] => true
  | k :: rest => holds k v && validateSchema v rest
  end.

End SchemaLib.

(** ** Collaborators *)

(** What [jwt.js] imports from modules that are not among the sources: the
    two curves, [lib/party.js], [lib/meta.js] and the part of [lib/util.js]
    that [src/util.js] does not define.  Each is taken as a function of its
    arguments that returns; where a [verify] would throw, inside the [try]
    of [verifyClaims], the result is the one its answer [false] gives. *)
Record Collaborators : Type := {
  digest : DigestLib;
  (** [ed25519.sign(message, secretKey)], [ed25519.verify(message, publicKey, signature)] *)
  ed25519_sign : string -> Buffer -> Buffer;
  ed25519_verify : string -> Buffer -> Buffer -> bool;
  (** [secp256k1.sign], [secp256k1.verify], [secp256k1.compress(x, y)] and
      [secp256k1.uncompress(publicKey)], [None] when it throws *)
  secp256k1_sign : string -> Buffer -> Buffer;
  secp256k1_verify : string -> Buffer -> Buffer -> bool;
  secp256k1_compress : Buffer -> Buffer -> Buffer;
  secp256k1_uncompress : Buffer -> option (Buffer * Buffer);
  (** [Addr] and [publicKey2Addr] of [lib/party.js] *)
  Addr : Schema;
  publicKey2Addr : Buffer -> string;
  (** [MetaId], [calcMetaId] and [validateMeta] of [lib/meta.js] *)
  MetaId : Schema;
  calcMetaId : JSValue -> string;
  validateMeta : JSValue -> Schema -> bool;
  (** [encodeBase64] of [lib/util.js], on a document and on a [Buffer], and
      [decodeBase64] *)
  encodeBase64 : JSValue -> string;
  encodeBase64_buffer : Buffer -> string;
  decodeBase64 : JSValue -> Buffer;
  (** The relational comparison [a < b] when an operand is not a number and
      has to be coerced; [None] is the answer [undefined] that a [NaN]
      operand gives. *)
  less_coerced : JSValue -> JSValue -> option bool
}.

(** [now()] of [lib/util.js] reads the clock.  A [Clock] gives the values of
    the successive reads made during one call of a function of this
    module. *)
Definition Clock : Type := nat -> Z.

(** A returned value together with the lines written by [console.error]. *)
Definition Logged (A : Type) : Type := A * list Thrown.

(** ** [src/jwt.js] *)

Module Jwt.
Section Jwt.
Context (C : Collaborators).

(** *** Comparisons *)

(** The abstract relational comparison [a < b]. *)
Definition less (a b : JSValue) : option bool :=
  match a, b with
  | JNum x, JNum y => Some (x <? y)
  | JUndefined, _ | _, JUndefined => None
  | _, _ => less_coerced C a b
  end.

(** [a < b], [a > b] and [a <= b] *)
Definition lt (a b : JSValue) : bool :=
  match less a b with Some true => true | _ => false end.
Definition gt (a b : JSValue) : bool :=
  match less b a with Some true => true | _ => false end.
Definition le (a b : JSValue) : bool :=
  match less b a with Some false => true | _ => false end.

(** [names.includes(v)] for an array of strings *)
Definition includes (names : list string) (v : JSValue) : bool :=
  existsb (fun name => JS.strict_eq (JStr name) v) names.

(** *** Identifiers *)

(** Modelled from the spec: [calcId] of [lib/util.js]; the [util.js] among
    the sources does not define it.  It computes the content identifier
    over the object, all fields except the named one, using canonical
    serialization and digest, for which [src/util.js] has [withoutKeys],
    [orderStringify] and [digestBase64]. *)
Definition calcId (key : string) (obj : JSValue) : Result string :=
  let* content := Util.withoutKeys obj [key] in
  match Util.orderStringify content None with
  | Some str => Ok (Util.digestBase64 (digest C) str)
  | None => Throw TypeError
  end.


Definition calcClaimsId (claims : JSValue) : Result string :=
  calcId "jti" claims.


Definition setClaimsId (claims : JSValue) : Result JSValue :=
  let* id := calcClaimsId claims in
  Ok (JObj (JS.assign (JS.assign [] claims) (JObj [("jti", JStr id)]))).

Definition timestamp (clock : Clock) (claims : JSValue) : JSValue :=
  JObj (JS.assign (JS.assign [] claims) (JObj [("iat", JNum (clock 0%nat))])).

(** *** Schemas *)

Definition base64url43 : Pattern :=
  {| ranges := [("A", "Z"); ("a", "z"); ("0", "9"); ("-", "-"); ("_", "_")]%char;
     count := 43 |}.

Definition PublicKey : Schema :=
  [ KType TObject;
    KAllOf
      [ [ KProperties [ ("x", [KType TString; KPattern base64url43]) ] ];
        [ KOneOf
            [ [ KProperties [ ("crv", [KEnum ["Ed25519"]]);
                              ("kty", [KEnum ["OKP"]]) ] ];
              [ KProperties [ ("crv", [KEnum ["P-256"]]);
                              ("kty", [KEnum ["EC"]]);
                              ("y", [KType TString; KPattern base64url43]) ];
                KRequired ["y"] ] ] ] ];
    KRequired ["crv"; "kty"; "x"] ].

Definition Header : Schema :=
  [ KType TObject;
    KProperties [ ("alg", [KEnum ["EdDsa"; "ES256"]]);
                  ("jwk", PublicKey);
                  ("typ", [KEnum ["JWT"]]) ];
    KOneOf
      [ [ KProperties [ ("alg", [KEnum ["EdDsa"]]);
                        ("jwk", [KProperties [ ("crv", [KEnum ["Ed25519"]]) ]]) ] ];
        [ KProperties [ ("alg", [KEnum ["ES256"]]);
                        ("jwk", [KProperties [ ("crv", [KEnum ["P-256"]]) ]]) ] ] ];
    KRequired ["alg"; "jwk"; "typ"] ].

Definition intDate : Schema := [ KType TInteger ].

Definition iat : Schema := intDate.

Definition jti : Schema := MetaId C.

Definition Create : Schema :=
  [ KType TObject;
    KProperties [ ("iat", iat);
                  ("iss", Addr C);
                  ("jti", jti);
                  ("sub", MetaId C);
                  ("typ", [KEnum ["Create"]]) ];
    KRequired ["iat"; "iss"; "jti"; "sub"; "typ"] ].

Definition License : Schema :=
  [ KType TObject;
    KProperties [ ("aud", [KType TArray; KItems (Addr C); KMinItems 1;
                           KUniqueItems true]);
                  ("exp", intDate);
                  ("iat", iat);
                  ("iss", Addr C);
                  ("jti", jti);
                  ("nbf", intDate);
                  ("sub", MetaId C);
                  ("typ", [KEnum ["License"]]) ];
    KRequired ["aud"; "exp"; "iat"; "iss"; "jti"; "sub"; "typ"] ].

(** *** Headers *)

Definition ed25519Header_try (publicKey : Buffer) : Result JSValue :=
  throw! BadKeyLength 32 (length publicKey)
    when negb (length publicKey =? 32)%nat in
  Ok (JObj [ ("alg", JStr "EdDsa");
             ("jwk", JObj [ ("x", JStr (encodeBase64_buffer C publicKey));
                            ("crv", JStr "Ed25519");
                            ("kty", JStr "OKP") ]);
             ("typ", JStr "JWT") ]).

(** [let header = {}; try { ... header = ... } catch(err) { console.error(err); }
    return header;] *)
Definition ed25519Header (publicKey : Buffer) : Logged JSValue :=
  match ed25519Header_try publicKey with
  | Ok header => (header, [])
  | Throw err => (JObj [], [err])
  end.

Definition secp256k1Header_try (publicKey : Buffer) : Result JSValue :=
  throw! BadKeyLength 33 (length publicKey)
    when negb (length publicKey =? 33)%nat in
  match secp256k1_uncompress C publicKey with
  | None => Throw UncompressFailed
  | Some coords =>
      Ok (JObj [ ("alg", JStr "ES256");
                 ("jwk", JObj [ ("x", JStr (encodeBase64_buffer C (fst coords)));
                                ("y", JStr (encodeBase64_buffer C (snd coords)));
                                ("crv", JStr "P-256");
                                ("kty", JStr "EC") ]);
                 ("typ", JStr "JWT") ])
  end.

Definition secp256k1Header (publicKey : Buffer) : Logged JSValue :=
  match secp256k1Header_try publicKey with
  | Ok header => (header, [])
  | Throw err => (JObj [], [err])
  end.

(** *** Signing *)

(** The signed text: [encodedHeader + '.' + encodedPayload] *)
Definition signingInput (claims header : JSValue) : string :=
  encodeBase64 C header ++ "." ++ encodeBase64 C claims.

(** [signClaims] has no [try]: reading [header.alg] from [null] or
    [undefined] throws to the caller. *)
Definition signClaims (claims header : JSValue) (secretKey : Buffer)
  : Result Buffer :=
  let sig : Buffer := [] in
  let* alg := JS.get "alg" header in
  let sig :=
    if JS.strict_eq alg (JStr "EdDsa")
    then ed25519_sign C (signingInput claims header) secretKey else sig in
  let sig :=
    if JS.strict_eq alg (JStr "ES256")
    then secp256k1_sign C (signingInput claims header) secretKey else sig in
  Ok sig.

(** *** Validation *)

(** [if (!list.some((id) => claims.iss === id)) throw e;] *)
Definition require_issuer (iss list : JSValue) (e : Thrown) : Result unit :=
  let* found := JS.some list (fun id => JS.strict_eq iss id) in
  throw_if (negb found) e.

(** The [switch] on [meta['@type']]. *)
Definition authorize (iss meta : JSValue) : Result unit :=
  let* type := JS.get "@type" meta in
  if JS.strict_eq type (JStr "Album") then
    let* artist := JS.get "artist" meta in
    require_issuer iss artist IssNotAlbumArtist
  else if JS.strict_eq type (JStr "Composition") then
    let* composer := JS.get "composer" meta in
    let* lyricist := JS.get "lyricist" meta in
    let* both := JS.concat composer lyricist in
    require_issuer iss both IssNotComposerOrLyricist
  else if JS.strict_eq type (JStr "Recording") then
    let* performer := JS.get "performer" meta in
    let* producer := JS.get "producer" meta in
    let* both := JS.concat performer producer in
    require_issuer iss both IssNotPerformerOrProducer
  else Throw UnexpectedMetaType.

(** The checks on [exp], entered when [claims.exp] is truthy. *)
Definition check_exp (exp iat nbf : JSValue) (rightNow : Z) : Result unit :=
  if JS.truthy exp then
    throw! ExpNotAfterIat when le exp iat in
    throw! ExpNotAfterNbf when JS.truthy nbf && le exp nbf in
    throw! ClaimsExpired when lt exp (JNum rightNow) in
    Ok tt
  else Ok tt.

(** The checks on [nbf], entered when [claims.nbf] is truthy. *)
Definition check_nbf (nbf iat : JSValue) (rightNow : Z) : Result unit :=
  if JS.truthy nbf then
    throw! NbfNotAfterIat when le nbf iat in
    throw! ClaimsNotYetValid when gt nbf (JNum rightNow) in
    Ok tt
  else Ok tt.

(** The checks made once the metadata passed its schema, in the order of
    the source; [clock 0] is the [now()] compared with [iat], [clock 1]
    the one stored in [rightNow]. *)
Definition checkClaims (clock : Clock) (claims meta : JSValue)
    (schemaClaims : Schema) : Result unit :=
  check! SchemaLib.validateSchema claims schemaClaims
    else InvalidClaimsSchema in
  let* typ := JS.get "typ" claims in
  check! includes ["Create"; "License"] typ else UnexpectedTyp in
  let* iat := JS.get "iat" claims in
  throw! IatLaterThanNow when gt iat (JNum (clock 0%nat)) in
  let* aud := JS.get "aud" claims in
  let* iss := JS.get "iss" claims in
  let* self :=
    if JS.truthy aud then JS.some aud (fun aud => JS.strict_eq aud iss)
    else Ok false in
  throw! AudContainsIss when self in
  let rightNow := clock 1%nat in
  let* exp := JS.get "exp" claims in
  let* nbf := JS.get "nbf" claims in
  let* _ := check_exp exp iat nbf rightNow in
  let* _ := check_nbf nbf iat rightNow in
  let* claimsId := calcClaimsId claims in
  let* jti := JS.get "jti" claims in
  throw! JtiMismatch when negb (JS.strict_eq jti (JStr claimsId)) in
  let metaId := calcMetaId C meta in
  let* sub := JS.get "sub" claims in
  throw! SubMismatch when negb (JS.strict_eq sub (JStr metaId)) in
  authorize iss meta.

(** The body of the [try] block of [validateClaims]: [valid] stays
    [false] when [validateMeta] rejects the metadata. *)
Definition validateClaims_try (clock : Clock) (claims meta : JSValue)
    (schemaClaims schemaMeta : Schema) : Result bool :=
  if validateMeta C meta schemaMeta then
    let* _ := checkClaims clock claims meta schemaClaims in
    Ok true
  else Ok false.

Definition validateClaims (clock : Clock) (claims meta : JSValue)
    (schemaClaims schemaMeta : Schema) : Logged bool :=
  match validateClaims_try clock claims meta schemaClaims schemaMeta with
  | Ok valid => (valid, [])
  | Throw err => (false, [err])
  end.

(** *** Verification *)

(** The two [if (header.alg === ...)] blocks that follow a successful
    validation. *)
Definition checkSignature (claims header : JSValue) (signature : Buffer)
  : Result unit :=
  let encoded := signingInput claims header in
  let* alg := JS.get "alg" header in
  let* _ :=
    if JS.strict_eq alg (JStr "EdDsa") then
      let* jwk := JS.get "jwk" header in
      let* x := JS.get "x" jwk in
      let publicKey := decodeBase64 C x in
      let* iss := JS.get "iss" claims in
      throw! PublicKeyAddrMismatch
        when negb (JS.strict_eq iss (JStr (publicKey2Addr C publicKey))) in
      throw! InvalidEd25519Signature
        when negb (ed25519_verify C encoded publicKey signature) in
      Ok tt
    else Ok tt in
  if JS.strict_eq alg (JStr "ES256") then
    let* jwk := JS.get "jwk" header in
    let* x := JS.get "x" jwk in
    let* y := JS.get "y" jwk in
    let publicKey := secp256k1_compress C (decodeBase64 C x) (decodeBase64 C y) in
    let* iss := JS.get "iss" claims in
    throw! PublicKeyAddrMismatch
      when negb (JS.strict_eq iss (JStr (publicKey2Addr C publicKey))) in
    throw! InvalidSecp256k1Signature
      when negb (secp256k1_verify C encoded publicKey signature) in
    Ok tt
  else Ok tt.

(** The body of the [try] block of [verifyClaims], with what
    [validateClaims] wrote to the console. *)
Definition verifyClaims_try (clock : Clock) (claims header meta : JSValue)
    (schemaClaims schemaMeta : Schema) (signature : Buffer)
  : Logged (Result bool) :=
  if negb (SchemaLib.validateSchema header Header) then
    (Throw InvalidHeaderSchema, [])
  else
    let validated := validateClaims clock claims meta schemaClaims schemaMeta in
    if fst validated then
      (let* _ := checkSignature claims header signature in Ok true,
       snd validated)
    else (Ok false, snd validated).

Definition verifyClaims (clock : Clock) (claims header meta : JSValue)
    (schemaClaims schemaMeta : Schema) (signature : Buffer) : Logged bool :=
  let run := verifyClaims_try clock claims header meta schemaClaims schemaMeta
               signature in
  match fst run with
  | Ok verified => (verified, snd run)
  | Throw err => (false, (snd run ++ [err])%list)
  end.

End Jwt.
End Jwt.

(** ** The builders over an object store *)

(** [setClaimsId] and [timestamp] allocate: [Object.assign] writes into its
    first argument, the fresh [{}], and reads the others.  Here objects live
    in a store, addressed by location, so that which object is written
    shows.  A stored object is its top-level property list; the builders
    copy property values as they are and never look inside them. *)
Module Store.
Section Store.
Context (C : Collaborators).

Local Abbreviation loc := nat.

(** An object literal: a new location holding the given properties. *)
Definition alloc (h : gmap nat (list (string * JSValue)))
    (props : list (string * JSValue))
  : loc * gmap nat (list (string * JSValue)) :=
  let l := fresh (dom h) in (l, <[l := props]> h).

(** [Object.assign(target, source)]: the target is updated in place. *)
Definition assign (h : gmap nat (list (string * JSValue))) (target source : loc)
  : gmap nat (list (string * JSValue)) :=
  match h !! target, h !! source with
  | Some t, Some s => <[target := JS.assign t (JObj s)]> h
  | _, _ => h
  end.

(** [Object.assign({}, claims, { 'jti': calcClaimsId(claims) })]: the
    arguments are evaluated from left to right, then the two sources are
    copied into the target, which is returned. *)
Definition setClaimsId (h : gmap nat (list (string * JSValue))) (claims : loc)
  : Result (loc * gmap nat (list (string * JSValue))) :=
  match h !! claims with
  | None => Throw TypeError
  | Some props =>
      let '(target, h1) := alloc h [] in
      let* id := Jwt.calcClaimsId C (JObj props) in
      let '(extra, h2) := alloc h1 [("jti", JStr id)] in
      Ok (target, assign (assign h2 target claims) target extra)
  end.

(** [Object.assign({}, claims, { iat: now() })] *)
Definition timestamp (clock : Clock) (h : gmap nat (list (string * JSValue)))
    (claims : loc) : loc * gmap nat (list (string * JSValue)) :=
  let '(target, h1) := alloc h [] in
  let '(extra, h2) := alloc h1 [("iat", JNum (clock 0%nat))] in
  (target, assign (assign h2 target claims) target extra).

End Store.
End Store.

(** ** Vocabulary of the statements *)

(** Every object of the value has distinct keys, as every JavaScript object
    does. *)
Fixpoint well_formed (v : JSValue) : bool :=
  match v with
  | JArr items => forallb well_formed items
  | JObj props =>
      bool_decide (NoDup (List.map fst props))
      && forallb (fun p => well_formed (snd p)) props
  | _ => true
  end.

(** The properties are listed as an object lists its own: no key comes
    twice, and none comes after a key that the order of [JS.precedes] puts
    behind it, so that the array indices come first and ascend. *)
Fixpoint enumerated (props : list (string * JSValue)) : bool :=
  match props with
  | [] => true
  | (k, _) :: rest =>
      forallb (fun kv => negb (String.eqb (fst kv) k)
                         && negb (JS.precedes (fst kv) k)) rest
      && enumerated rest
  end.

(** Every object of the value lists its properties in the order of
    enumeration and has no property of its own named [__proto__]. *)
Fixpoint plain (v : JSValue) : bool :=
  match v with
  | JArr items => forallb plain items
  | JObj props =>
      enumerated props && negb (JS.has_prop "__proto__" props)
      && forallb (fun p => plain (snd p)) props
  | _ => true
  end.

(** Two values hold the same key-to-value mapping: they differ at most in the
    order in which the properties of their objects were inserted, at any
    depth. *)
Unset Elimination Schemes.
Inductive same_mapping : JSValue -> JSValue -> Prop :=
  | same_value v : same_mapping v v
  | same_items xs ys :
      Forall2 same_mapping xs ys -> same_mapping (JArr xs) (JArr ys)
  | same_props ps qs reordered :
      Permutation ps reordered ->
      Forall2 (fun p q => fst p = fst q /\ same_mapping (snd p) (snd q))
        reordered qs ->
      same_mapping (JObj ps) (JObj qs).
Set Elimination Schemes.

(** The curve a header selects by its [alg], the public key its [jwk]
    holds for that curve, and the verification of that curve. *)
Inductive Curve : Type := Ed25519 | Secp256k1.

Definition curveOf (header : JSValue) : option Curve :=
  match JS.get "alg" header with
  | Ok (JStr "EdDsa") => Some Ed25519
  | Ok (JStr "ES256") => Some Secp256k1
  | _ => None
  end.

Definition jwkField (name : string) (header : JSValue) : JSValue :=
  match JS.get "jwk" header with
  | Ok (JObj jwk) => JS.lookup_prop name jwk
  | _ => JUndefined
  end.

Definition headerKey (C : Collaborators) (curve : Curve) (header : JSValue) : Buffer :=
  match curve with
  | Ed25519 => decodeBase64 C (jwkField "x" header)
  | Secp256k1 =>
      secp256k1_compress C (decodeBase64 C (jwkField "x" header))
        (decodeBase64 C (jwkField "y" header))
  end.

Definition curveVerify (C : Collaborators) (curve : Curve)
  : string -> Buffer -> Buffer -> bool :=
  match curve with
  | Ed25519 => ed25519_verify C
  | Secp256k1 => secp256k1_verify C
  end.

Definition curveSign (C : Collaborators) (curve : Curve)
  : string -> Buffer -> Buffer :=
  match curve with
  | Ed25519 => ed25519_sign C
  | Secp256k1 => secp256k1_sign C
  end.

(** [iss] is strictly equal to one of the listed addresses. *)
Definition listed (iss : JSValue) (addresses : list JSValue) : Prop :=
  exists id, In id addresses /\ JS.strict_eq iss id = true.

(** The kinds of failure of the [exp] block, of the [nbf] block and of the
    [switch] on the type of the document. *)
Definition exp_failure (e : Thrown) : Prop :=
  e = ExpNotAfterIat \/ e = ExpNotAfterNbf \/ e = ClaimsExpired.

Definition nbf_failure (e : Thrown) : Prop :=
  e = NbfNotAfterIat \/ e = ClaimsNotYetValid.

Definition role_failure (e : Thrown) : Prop :=
  e = TypeError \/ e = IssNotAlbumArtist \/ e = IssNotComposerOrLyricist
  \/ e = IssNotPerformerOrProducer \/ e = UnexpectedMetaType.

(** [iss] is in the role-address set the [@type] of the document selects:
    [artist] for an Album, [composer] joined with [lyricist] for a
    Composition, [performer] joined with [producer] for a Recording, joined
    the way [concat] joins. *)
Definition authorized (iss meta : JSValue) : Prop :=
  (JS.get "@type" meta = Ok (JStr "Album")
   /\ exists artist,
        JS.get "artist" meta = Ok (JArr artist) /\ listed iss artist)
  \/ (JS.get "@type" meta = Ok (JStr "Composition")
      /\ exists composer lyricist,
           JS.get "composer" meta = Ok (JArr composer)
           /\ JS.get "lyricist" meta = Ok lyricist
           /\ listed iss (composer ++ JS.spread lyricist))
  \/ (JS.get "@type" meta = Ok (JStr "Recording")
      /\ exists performer producer,
           JS.get "performer" meta = Ok (JArr performer)
           /\ JS.get "producer" meta = Ok producer
           /\ listed iss (performer ++ JS.spread producer)).


(** The facts a successful run of the checks establishes, in the order of
    the checks. *)
Record Checked (C : Collaborators) (clock : Clock) (claims meta : JSValue) (schemaClaims : Schema)
    (typ iat aud iss exp nbf : JSValue) (id : string) : Prop := {
  chk_schema : SchemaLib.validateSchema claims schemaClaims = true;
  chk_typ : JS.get "typ" claims = Ok typ;
  chk_typ_known : Jwt.includes ["Create"; "License"] typ = true;
  chk_iat : JS.get "iat" claims = Ok iat;
  chk_iat_past : Jwt.gt C iat (JNum (clock 0%nat)) = false;
  chk_aud : JS.get "aud" claims = Ok aud;
  chk_iss : JS.get "iss" claims = Ok iss;
  chk_self :
    (if JS.truthy aud then JS.some aud (fun a => JS.strict_eq a iss)
     else Ok false) = Ok false;
  chk_exp_read : JS.get "exp" claims = Ok exp;
  chk_nbf_read : JS.get "nbf" claims = Ok nbf;
  chk_exp : Jwt.check_exp C exp iat nbf (clock 1%nat) = Ok tt;
  chk_nbf : Jwt.check_nbf C nbf iat (clock 1%nat) = Ok tt;
  chk_id : Jwt.calcClaimsId C claims = Ok id;
  chk_jti : JS.get "jti" claims = Ok (JStr id);
  chk_sub : JS.get "sub" claims = Ok (JStr (calcMetaId C meta));
  chk_role : Jwt.authorize iss meta = Ok tt
}.

(** The properties [withoutKeys] keeps. *)
Definition kept (keys : list string) (kv : string * JSValue) : bool :=
  negb (existsb (String.eqb (fst kv)) keys).

(** *** Valid claims, after section 3 of the specification *)

(** The fields of a claims payload, typed as the data model types them: the
    License extras are optional, a Create has none. *)
Record ClaimsView : Type := {
  view_typ : string;
  view_iat : Z;
  view_iss : string;
  view_jti : string;
  view_sub : string;
  view_aud : option (list string);
  view_exp : option Z;
  view_nbf : option Z
}.

Definition optional {A} (inject : A -> JSValue) (field : option A) : JSValue :=
  match field with
  | Some a => inject a
  | None => JUndefined
  end.

(** The claims object holds exactly the fields of the view. *)
Definition reads (claims : JSValue) (w : ClaimsView) : Prop :=
  JS.get "typ" claims = Ok (JStr (view_typ w))
  /\ JS.get "iat" claims = Ok (JNum (view_iat w))
  /\ JS.get "iss" claims = Ok (JStr (view_iss w))
  /\ JS.get "jti" claims = Ok (JStr (view_jti w))
  /\ JS.get "sub" claims = Ok (JStr (view_sub w))
  /\ JS.get "aud" claims
     = Ok (optional (fun aud => JArr (List.map JStr aud)) (view_aud w))
  /\ JS.get "exp" claims = Ok (optional JNum (view_exp w))
  /\ JS.get "nbf" claims = Ok (optional JNum (view_nbf w)).

(** The role-address set of a document: [artist] for an Album, [composer]
    together with [lyricist] for a Composition, [performer] together with
    [producer] for a Recording.  The first list is present; the second may
    be absent and then adds nothing. *)
Definition second_list (field : JSValue) (addresses : list JSValue) : Prop :=
  field = JArr addresses \/ (field = JUndefined /\ addresses = []).

Inductive in_role_set (iss : string) (meta : JSValue) : Prop :=
  | role_album artist :
      JS.get "@type" meta = Ok (JStr "Album") ->
      JS.get "artist" meta = Ok (JArr artist) ->
      In (JStr iss) artist ->
      in_role_set iss meta
  | role_composition composer lyricist more :
      JS.get "@type" meta = Ok (JStr "Composition") ->
      JS.get "composer" meta = Ok (JArr composer) ->
      JS.get "lyricist" meta = Ok lyricist ->
      second_list lyricist more ->
      In (JStr iss) (composer ++ more) ->
      in_role_set iss meta
  | role_recording performer producer more :
      JS.get "@type" meta = Ok (JStr "Recording") ->
      JS.get "performer" meta = Ok (JArr performer) ->
      JS.get "producer" meta = Ok producer ->
      second_list producer more ->
      In (JStr iss) (performer ++ more) ->
      in_role_set iss meta.

(** The second role field of the document, [lyricist] or [producer], is a
    list of addresses or is absent. *)
Definition role_lists (meta : JSValue) : Prop :=
  forall field w,
    field = "lyricist" \/ field = "producer" ->
    JS.get field meta = Ok w ->
    exists more, second_list w more.

(** The invariants of section 3, for claims signed by the key [signer] and
    checked while the clock reads [clock 0] and then [clock 1]. *)
Record Invariants (C : Collaborators) (clock : Clock) (signer : Buffer)
    (claims meta : JSValue) (w : ClaimsView) : Prop := {
  inv_typ :
    view_typ w = "Create"
    \/ (view_typ w = "License" /\ is_Some (view_aud w) /\ is_Some (view_exp w));
  inv_jti : Jwt.calcClaimsId C claims = Ok (view_jti w);
  inv_sub : view_sub w = calcMetaId C meta;
  inv_iss : view_iss w = publicKey2Addr C signer;
  inv_iat : view_iat w <= clock 0%nat;
  inv_aud :
    forall aud, view_aud w = Some aud ->
                aud <> [] /\ NoDup aud /\ ~ In (view_iss w) aud;
  inv_exp :
    forall exp, view_exp w = Some exp ->
                view_iat w < exp
                /\ (forall nbf, view_nbf w = Some nbf -> nbf < exp)
                /\ clock 1%nat <= exp;
  inv_nbf :
    forall nbf, view_nbf w = Some nbf ->
                view_iat w < nbf /\ nbf <= clock 1%nat;
  inv_role : in_role_set (view_iss w) meta
}.

(** The header was built from the public key by the builder of the curve. *)
Definition built_header (C : Collaborators) (curve : Curve) (publicKey : Buffer)
    (header : JSValue) : Prop :=
  match curve with
  | Ed25519 => Jwt.ed25519Header C publicKey = (header, [])
  | Secp256k1 => Jwt.secp256k1Header C publicKey = (header, [])
  end.

(** The public key matches the secret key: what the one signs the other
    verifies. *)
Definition matching_key (C : Collaborators) (curve : Curve)
    (publicKey secretKey : Buffer) : Prop :=
  forall message,
    curveVerify C curve message publicKey (curveSign C curve message secretKey)
    = true.

(** The codec on one buffer: its encoding has the 43 characters of the
    schema and decodes to the buffer. *)
Definition codec_round_trip (C : Collaborators) (b : Buffer) : Prop :=
  SchemaLib.matches Jwt.base64url43 (encodeBase64_buffer C b) = true
  /\ decodeBase64 C (JStr (encodeBase64_buffer C b)) = b.

(** The codec on the key material of a header, and for secp256k1 the
    compression of the coordinates back into the key. *)
Definition key_round_trip (C : Collaborators) (curve : Curve) (publicKey : Buffer)
  : Prop :=
  match curve with
  | Ed25519 => codec_round_trip C publicKey
  | Secp256k1 =>
      forall coords,
        secp256k1_uncompress C publicKey = Some coords ->
        codec_round_trip C (fst coords) /\ codec_round_trip C (snd coords)
        /\ secp256k1_compress C (fst coords) (snd coords) = publicKey
  end.

(** ** A sample instance *)

(** Small stand-ins for the collaborators, and sample documents in the shape
    of [test/jwt_test.js], on which the model runs. *)
Module Sample.

Definition plainDigest : DigestLib :=
  {| sha3_256 := list_byte_of_string;
     urlsafeBase64_encode := string_of_list_byte |}.

(** A keyless scheme: the signature is the message followed by the key,
    and the public key is the secret key. *)
Definition sign (message : string) (secretKey : Buffer) : Buffer :=
  (list_byte_of_string message ++ secretKey)%list.

Fixpoint same_bytes (a b : Buffer) : bool :=
  match a, b with
  | [], [] => true
  | x :: a', y :: b' => Byte.eqb x y && same_bytes a' b'
  | _, _ => false
  end.

Definition verify (message : string) (publicKey signature : Buffer) : bool :=
  same_bytes signature (list_byte_of_string message ++ publicKey)%list.

Definition compress (x y : Buffer) : Buffer := Byte.x02 :: x.

Definition uncompress (publicKey : Buffer) : option (Buffer * Buffer) :=
  match publicKey with
  | [] => None
  | _ :: x => Some (x, x)
  end.

(** One letter per byte, filled up to the 43 characters a 32-byte key
    takes. *)
Definition letter (b : Byte.byte) : ascii :=
  ascii_of_N (65 + Byte.to_N b mod 26).

Definition unletter (c : ascii) : Byte.byte :=
  default Byte.x00 (Byte.of_N (N_of_ascii c - 65)).

Definition encodeBuffer (b : Buffer) : string :=
  string_of_list_ascii
    (List.map letter b ++ repeat "A"%char (43 - length b))%list.

Definition decode (v : JSValue) : Buffer :=
  match v with
  | JStr s => List.map unletter (take 32 (list_ascii_of_string s))
  | _ => []
  end.

Definition canonical (v : JSValue) : string :=
  default "" (Util.orderStringify v None).

Definition collaborators : Collaborators :=
  {| digest := plainDigest;
     ed25519_sign := sign;
     ed25519_verify := verify;
     secp256k1_sign := sign;
     secp256k1_verify := verify;
     secp256k1_compress := compress;
     secp256k1_uncompress := uncompress;
     Addr := [KType TString];
     publicKey2Addr := encodeBuffer;
     MetaId := [KType TString];
     calcMetaId := canonical;
     validateMeta := SchemaLib.validateSchema;
     encodeBase64 := canonical;
     encodeBase64_buffer := encodeBuffer;
     decodeBase64 := decode;
     less_coerced := fun _ _ => None |}.

Definition composerKey : Buffer := repeat Byte.x01 32.
Definition performerKey : Buffer := Byte.x02 :: repeat Byte.x03 32.

Definition composer : string := encodeBuffer composerKey.
Definition performer : string := encodeBuffer performerKey.
Definition publisher : string := encodeBuffer (repeat Byte.x05 32).

Definition Composition : Schema :=
  [ KType TObject;
    KProperties [ ("@type", [KEnum ["Composition"]]);
                  ("composer", [KType TArray; KItems [KType TString]]) ];
    KRequired ["@type"; "composer"] ].

Definition Recording : Schema :=
  [ KType TObject;
    KProperties [ ("@type", [KEnum ["Recording"]]);
                  ("performer", [KType TArray; KItems [KType TString]]) ];
    KRequired ["@type"; "performer"] ].

Definition composition : JSValue :=
  JObj [ ("@type", JStr "Composition");
         ("composer", JArr [JStr composer]);
         ("name", JStr "song") ].

Definition recording : JSValue :=
  JObj [ ("@type", JStr "Recording");
         ("performer", JArr [JStr performer]);
         ("recordingOf", JStr "song") ].

(** The clock reads 900 while the claims are built and 1000 while they
    are validated. *)
Definition issueClock : Clock := fun _ => 900.
Definition clock : Clock := fun _ => 1000.

Definition built (claims : JSValue) : JSValue :=
  match Jwt.setClaimsId collaborators (Jwt.timestamp issueClock claims) with
  | Ok c => c
  | Throw _ => JUndefined
  end.

Definition createComposition : JSValue :=
  built (JObj [ ("iss", JStr composer);
                ("sub", JStr (canonical composition));
                ("typ", JStr "Create") ]).

Definition licenseComposition (exp : Z) : JSValue :=
  built (JObj [ ("aud", JArr [JStr publisher]);
                ("exp", JNum exp);
                ("iss", JStr composer);
                ("sub", JStr (canonical composition));
                ("typ", JStr "License") ]).

Definition licenseRecording (exp : Z) : JSValue :=
  built (JObj [ ("aud", JArr [JStr publisher]);
                ("exp", JNum exp);
                ("iss", JStr performer);
                ("sub", JStr (canonical recording));
                ("typ", JStr "License") ]).

(** Claims with their identifier, issued at a given time. *)
Definition identified (claims : JSValue) : JSValue :=
  match Jwt.setClaimsId collaborators claims with
  | Ok c => c
  | Throw _ => JUndefined
  end.

(** A License of the composition issued by the composer; an [nbf] of 0
    counts as absent. *)
Definition licenseOf (aud : list string) (iat exp nbf : Z) : JSValue :=
  identified (JObj [ ("aud", JArr (List.map JStr aud));
                     ("exp", JNum exp);
                     ("iat", JNum iat);
                     ("iss", JStr composer);
                     ("nbf", JNum nbf);
                     ("sub", JStr (canonical composition));
                     ("typ", JStr "License") ]).

(** A Create of the composition issued by a given address. *)
Definition createBy (iss : string) : JSValue :=
  identified (JObj [ ("iat", JNum 900);
                     ("iss", JStr iss);
                     ("sub", JStr (canonical composition));
                     ("typ", JStr "Create") ]).

(** A Create of the composition that carries an audience, which its
    schema does not describe. *)
Definition createFor (aud : JSValue) : JSValue :=
  identified (JObj [ ("aud", aud);
                     ("iat", JNum 900);
                     ("iss", JStr composer);
                     ("sub", JStr (canonical composition));
                     ("typ", JStr "Create") ]).

Definition composerHeader : JSValue :=
  fst (Jwt.ed25519Header collaborators composerKey).

Definition performerHeader : JSValue :=
  fst (Jwt.secp256k1Header collaborators performerKey).

Definition signed (claims header : JSValue) (secretKey : Buffer) : Buffer :=
  match Jwt.signClaims collaborators claims header secretKey with
  | Ok sig => sig
  | Throw _ => []
  end.

(** The typed fields of [licenseRecording 2000]. *)
Definition licenseView : ClaimsView :=
  {| view_typ := "License";
     view_iat := 900;
     view_iss := performer;
     view_jti :=
       match JS.get "jti" (licenseRecording 2000) with
       | Ok (JStr id) => id
       | _ => ""
       end;
     view_sub := canonical recording;
     view_aud := Some [publisher];
     view_exp := Some 2000;
     view_nbf := None |}.

End Sample.

(** * Properties *)

(** ** The error monad *)

Lemma bind_ok {A B} (r : Result A) (k : A -> Result B) (b : B) :
  bind r k = Ok b -> exists a, r = Ok a /\ k a = Ok b.
Proof. destruct r as [a|e]; simpl; [eauto | discriminate]. Qed.

Lemma bind_throw {A B} (r : Result A) (k : A -> Result B) (e : Thrown) :
  bind r k = Throw e -> r = Throw e \/ exists a, r = Ok a /\ k a = Throw e.
Proof. destruct r as [a|e']; simpl; [eauto | intros [= ->]; auto]. Qed.

Lemma throw_if_ok (c : bool) (e : Thrown) (u : unit) :
  throw_if c e = Ok u -> c = false.
Proof. destruct c; simpl; [discriminate | reflexivity]. Qed.

Lemma throw_if_throw (c : bool) (e e' : Thrown) :
  throw_if c e = Throw e' -> c = true /\ e' = e.
Proof. destruct c; simpl; [intros [= ->]; auto | discriminate]. Qed.

(** Splits a hypothesis [bind r k = Ok _] into its first step, which
    succeeded, and the rest. *)
Tactic Notation "step" hyp(H) "as" ident(a) ident(Ha) :=
  apply bind_ok in H as (a & Ha & H); try (apply throw_if_ok in Ha).

(** Splits every boolean conjunction among the hypotheses. *)
Ltac split_andb :=
  repeat match goal with
         | H : _ && _ = true |- _ => apply andb_prop in H as [? ?]
         end.

Lemma strict_eq_str (v : JSValue) (s : string) :
  JS.strict_eq v (JStr s) = true <-> v = JStr s.
Proof.
  split.
  - destruct v; simpl; try discriminate.
    intros H. apply String.eqb_eq in H. by subst.
  - intros ->. simpl. apply String.eqb_refl.
Qed.

(** ** What a successful validation went through *)

Section Validation.
Context (C : Collaborators).

Lemma validateClaims_true clock claims meta schemaClaims schemaMeta :
  fst (Jwt.validateClaims C clock claims meta schemaClaims schemaMeta) = true <->
  validateMeta C meta schemaMeta = true
  /\ Jwt.checkClaims C clock claims meta schemaClaims = Ok tt.
Proof.
  unfold Jwt.validateClaims, Jwt.validateClaims_try.
  destruct (validateMeta C meta schemaMeta); simpl.
  - destruct (Jwt.checkClaims C clock claims meta schemaClaims) as [[]|e]; simpl;
      split; try tauto; try (intros [_ H]; discriminate); discriminate.
  - split; [discriminate | intros [H _]; discriminate].
Qed.

Lemma validateClaims_true_log clock claims meta schemaClaims schemaMeta :
  fst (Jwt.validateClaims C clock claims meta schemaClaims schemaMeta) = true ->
  Jwt.validateClaims C clock claims meta schemaClaims schemaMeta = (true, []).
Proof.
  unfold Jwt.validateClaims.
  destruct (Jwt.validateClaims_try _ _ _ _ _ _) as [[]|e]; simpl;
    [reflexivity | discriminate | discriminate].
Qed.

Lemma checkClaims_ok clock claims meta schemaClaims :
  Jwt.checkClaims C clock claims meta schemaClaims = Ok tt <->
  exists typ iat aud iss exp nbf id,
    Checked C clock claims meta schemaClaims typ iat aud iss exp nbf id.
Proof.
  split.
  - intros H. unfold Jwt.checkClaims in H.
    step H as u0 Hschema. apply negb_false_iff in Hschema.
    step H as typ Htyp.
    step H as u1 Hknown. apply negb_false_iff in Hknown.
    step H as iat Hiat.
    step H as u2 Hpast.
    step H as aud Haud.
    step H as iss Hiss.
    step H as self Hself.
    step H as u3 Hnoself. subst self.
    step H as exp Hexp.
    step H as nbf Hnbf.
    step H as u4 Hcexp. destruct u4.
    step H as u5 Hcnbf. destruct u5.
    step H as id Hid.
    step H as jti Hjti.
    step H as u6 Hsame. apply negb_false_iff, strict_eq_str in Hsame. subst jti.
    step H as sub Hsub.
    step H as u7 Hsubject. apply negb_false_iff, strict_eq_str in Hsubject.
    subst sub.
    exists typ, iat, aud, iss, exp, nbf, id.
    by constructor.
  - intros (typ & iat & aud & iss & exp & nbf & id & [ ]).
    unfold Jwt.checkClaims.
    rewrite chk_schema0, chk_typ0. cbn [bind throw_if negb].
    rewrite chk_typ_known0, chk_iat0. cbn [bind throw_if negb].
    rewrite chk_iat_past0, chk_aud0, chk_iss0. cbn [bind throw_if negb].
    rewrite chk_self0, chk_exp_read0, chk_nbf_read0. cbn [bind throw_if negb].
    rewrite chk_exp0, chk_nbf0, chk_id0, chk_jti0. cbn [bind throw_if negb].
    rewrite (proj2 (strict_eq_str _ _) eq_refl), chk_sub0.
    cbn [bind throw_if negb].
    rewrite (proj2 (strict_eq_str _ _) eq_refl). cbn [bind throw_if negb].
    exact chk_role0.
Qed.

End Validation.

(** ** Where a failure comes from *)

Lemma get_throw (k : string) (v : JSValue) (e : Thrown) :
  JS.get k v = Throw e -> e = TypeError.
Proof. destruct v; simpl; congruence. Qed.

Lemma some_throw (v : JSValue) (f : JSValue -> bool) (e : Thrown) :
  JS.some v f = Throw e -> e = TypeError.
Proof. destruct v; simpl; congruence. Qed.

Lemma concat_throw (v w : JSValue) (e : Thrown) :
  JS.concat v w = Throw e -> e = TypeError.
Proof. destruct v; simpl; congruence. Qed.

Lemma withoutKeys_throw (obj : JSValue) (keys : list string) (e : Thrown) :
  Util.withoutKeys obj keys = Throw e -> e = TypeError.
Proof.
  unfold Util.withoutKeys. intros H.
  apply bind_throw in H as [H | (own & _ & H)]; [|discriminate].
  destruct obj; simpl in H; congruence.
Qed.

Section Origins.
Context (C : Collaborators).

Lemma calcClaimsId_throw claims e :
  Jwt.calcClaimsId C claims = Throw e -> e = TypeError.
Proof.
  unfold Jwt.calcClaimsId, Jwt.calcId. intros H.
  apply bind_throw in H as [H | (content & _ & H)].
  - by apply withoutKeys_throw in H.
  - destruct (Util.orderStringify content None); congruence.
Qed.

Lemma require_issuer_throw iss list kind e :
  Jwt.require_issuer iss list kind = Throw e -> e = TypeError \/ e = kind.
Proof.
  unfold Jwt.require_issuer. intros H.
  apply bind_throw in H as [H | (found & _ & H)].
  - left. by apply some_throw in H.
  - right. by apply throw_if_throw in H as [_ ->].
Qed.

Lemma authorize_throw iss meta e :
  Jwt.authorize iss meta = Throw e -> role_failure e.
Proof.
  unfold Jwt.authorize, role_failure. intros H.
  apply bind_throw in H as [H | (type & _ & H)];
    [left; by apply get_throw in H |].
  repeat match type of H with
         | (if ?c then _ else _) = Throw _ => destruct c
         | bind ?r _ = Throw _ =>
             let a := fresh "a" in
             apply bind_throw in H as [H | (a & _ & H)];
             [left; first [by apply get_throw in H | by apply concat_throw in H] |]
         end;
    try (apply require_issuer_throw in H as [-> | ->]; tauto).
  injection H as <-. tauto.
Qed.

Lemma check_exp_throw exp iat nbf rightNow e :
  Jwt.check_exp C exp iat nbf rightNow = Throw e -> exp_failure e.
Proof.
  unfold Jwt.check_exp, exp_failure. destruct (JS.truthy exp); [|discriminate].
  intros H.
  apply bind_throw in H as [H | (? & _ & H)];
    [apply throw_if_throw in H as [_ ->]; tauto |].
  apply bind_throw in H as [H | (? & _ & H)];
    [apply throw_if_throw in H as [_ ->]; tauto |].
  apply bind_throw in H as [H | (? & _ & H)];
    [apply throw_if_throw in H as [_ ->]; tauto | discriminate].
Qed.

Lemma check_nbf_throw nbf iat rightNow e :
  Jwt.check_nbf C nbf iat rightNow = Throw e -> nbf_failure e.
Proof.
  unfold Jwt.check_nbf, nbf_failure. destruct (JS.truthy nbf); [|discriminate].
  intros H.
  apply bind_throw in H as [H | (? & _ & H)];
    [apply throw_if_throw in H as [_ ->]; tauto |].
  apply bind_throw in H as [H | (? & _ & H)];
    [apply throw_if_throw in H as [_ ->]; tauto | discriminate].
Qed.

(** Where a failure of the checks comes from: the steps in order, each
    with what it throws. *)
Lemma checkClaims_throw clock claims meta schemaClaims e :
  Jwt.checkClaims C clock claims meta schemaClaims = Throw e ->
  e = TypeError \/ e = InvalidClaimsSchema \/ e = UnexpectedTyp
  \/ e = IatLaterThanNow \/ e = AudContainsIss
  \/ (exists exp iat nbf,
        JS.get "exp" claims = Ok exp /\ JS.get "iat" claims = Ok iat
        /\ JS.get "nbf" claims = Ok nbf
        /\ Jwt.check_exp C exp iat nbf (clock 1%nat) = Throw e)
  \/ (exists nbf iat,
        JS.get "nbf" claims = Ok nbf /\ JS.get "iat" claims = Ok iat
        /\ Jwt.check_nbf C nbf iat (clock 1%nat) = Throw e)
  \/ (e = JtiMismatch
      /\ exists id jti,
           Jwt.calcClaimsId C claims = Ok id /\ JS.get "jti" claims = Ok jti
           /\ JS.strict_eq jti (JStr id) = false)
  \/ e = SubMismatch
  \/ (e <> TypeError /\ role_failure e).
Proof.
  intros H. unfold Jwt.checkClaims in H.
  apply bind_throw in H as [H | (? & _ & H)].
  { apply throw_if_throw in H as [_ ->]. tauto. }
  apply bind_throw in H as [H | (typ & _ & H)].
  { apply get_throw in H. tauto. }
  apply bind_throw in H as [H | (? & _ & H)].
  { apply throw_if_throw in H as [_ ->]. tauto. }
  apply bind_throw in H as [H | (iat & Hiat & H)].
  { apply get_throw in H. tauto. }
  apply bind_throw in H as [H | (? & _ & H)].
  { apply throw_if_throw in H as [_ ->]. tauto. }
  apply bind_throw in H as [H | (aud & _ & H)].
  { apply get_throw in H. tauto. }
  apply bind_throw in H as [H | (iss & _ & H)].
  { apply get_throw in H. tauto. }
  apply bind_throw in H as [H | (self & _ & H)].
  { destruct (JS.truthy aud); [|discriminate].
    apply some_throw in H. tauto. }
  apply bind_throw in H as [H | (? & _ & H)].
  { apply throw_if_throw in H as [_ ->]. tauto. }
  apply bind_throw in H as [H | (exp & Hexp & H)].
  { apply get_throw in H. tauto. }
  apply bind_throw in H as [H | (nbf & Hnbf & H)].
  { apply get_throw in H. tauto. }
  apply bind_throw in H as [H | (? & _ & H)].
  { do 5 right. left. exists exp, iat, nbf. auto. }
  apply bind_throw in H as [H | (? & _ & H)].
  { do 6 right. left. exists nbf, iat. auto. }
  apply bind_throw in H as [H | (id & Hid & H)].
  { apply calcClaimsId_throw in H. tauto. }
  apply bind_throw in H as [H | (jti & Hjti & H)].
  { apply get_throw in H. tauto. }
  apply bind_throw in H as [H | (? & _ & H)].
  { apply throw_if_throw in H as [Hne ->]. apply negb_true_iff in Hne.
    do 7 right. left. split; [reflexivity |]. exists id, jti. auto. }
  apply bind_throw in H as [H | (sub & _ & H)].
  { apply get_throw in H. tauto. }
  apply bind_throw in H as [H | (? & _ & H)].
  { apply throw_if_throw in H as [_ ->]. tauto. }
  apply authorize_throw in H.
  destruct H as [-> | H]; [tauto |].
  do 9 right. split; [|right; exact H].
  destruct H as [->|[->|[->| ->]]]; discriminate.
Qed.

(** A failure of the [exp] kind is thrown by the [exp] block, run on the
    fields of the claims. *)
Lemma checkClaims_exp_failure clock claims meta schemaClaims e :
  Jwt.checkClaims C clock claims meta schemaClaims = Throw e ->
  exp_failure e ->
  exists exp iat nbf,
    JS.get "exp" claims = Ok exp /\ JS.get "iat" claims = Ok iat
    /\ JS.get "nbf" claims = Ok nbf
    /\ Jwt.check_exp C exp iat nbf (clock 1%nat) = Throw e.
Proof.
  intros H He. apply checkClaims_throw in H.
  destruct H as [->|[->|[->|[->|[->|[H|[H|[[-> _]|[->|[_ H]]]]]]]]]];
    try (destruct He as [|[|]]; discriminate); [exact H | |].
  - destruct H as (nbf & iat & _ & _ & H).
    apply check_nbf_throw in H as [-> | ->];
      destruct He as [|[|]]; discriminate.
  - destruct H as [->|[->|[->|[->| ->]]]];
      destruct He as [|[|]]; discriminate.
Qed.

(** Likewise for the [nbf] block. *)
Lemma checkClaims_nbf_failure clock claims meta schemaClaims e :
  Jwt.checkClaims C clock claims meta schemaClaims = Throw e ->
  nbf_failure e ->
  exists nbf iat,
    JS.get "nbf" claims = Ok nbf /\ JS.get "iat" claims = Ok iat
    /\ Jwt.check_nbf C nbf iat (clock 1%nat) = Throw e.
Proof.
  intros H He. apply checkClaims_throw in H.
  destruct H as [->|[->|[->|[->|[->|[H|[H|[[-> _]|[->|[_ H]]]]]]]]]];
    try (destruct He as [|]; discriminate); [| exact H |].
  - destruct H as (exp & iat & nbf & _ & _ & _ & H).
    apply check_exp_throw in H as [->|[->| ->]];
      destruct He as [|]; discriminate.
  - destruct H as [->|[->|[->|[->| ->]]]];
      destruct He as [|]; discriminate.
Qed.

(** The identifier failure is thrown by the comparison of the stored
    [jti] with the recomputed one. *)
Lemma checkClaims_jti_failure clock claims meta schemaClaims :
  Jwt.checkClaims C clock claims meta schemaClaims = Throw JtiMismatch ->
  exists id jti,
    Jwt.calcClaimsId C claims = Ok id /\ JS.get "jti" claims = Ok jti
    /\ JS.strict_eq jti (JStr id) = false.
Proof.
  intros H. apply checkClaims_throw in H.
  destruct H as [H|[H|[H|[H|[H|[H|[H|[[_ H]|[H|[_ H]]]]]]]]]];
    try discriminate; [| | exact H |].
  - destruct H as (exp & iat & nbf & _ & _ & _ & H).
    apply check_exp_throw in H as [|[|]]; discriminate.
  - destruct H as (nbf & iat & _ & _ & H).
    apply check_nbf_throw in H as [|]; discriminate.
  - destruct H as [|[|[|[|]]]]; discriminate.
Qed.

(** The line [validateClaims] logs is the failure of the checks. *)
Lemma validateClaims_logged clock claims meta schemaClaims schemaMeta e :
  snd (Jwt.validateClaims C clock claims meta schemaClaims schemaMeta) = [e] ->
  Jwt.checkClaims C clock claims meta schemaClaims = Throw e.
Proof.
  unfold Jwt.validateClaims, Jwt.validateClaims_try.
  destruct (validateMeta C meta schemaMeta); [|discriminate].
  destruct (Jwt.checkClaims C clock claims meta schemaClaims) as [[]|e'];
    simpl; [discriminate | congruence].
Qed.

End Origins.

(** ** Metadata gate *)

(** C10. When [validateMeta] rejects the metadata, [validateClaims] returns
    [false] whatever the claims and their schema are: the [try] block ends
    normally without entering the checks, and nothing is written to the
    console. *)
Theorem validateClaims_meta_gate (C : Collaborators) (clock : Clock)
    (claims meta : JSValue) (schemaClaims schemaMeta : Schema) :
  validateMeta C meta schemaMeta = false ->
  Jwt.validateClaims_try C clock claims meta schemaClaims schemaMeta = Ok false
  /\ Jwt.validateClaims C clock claims meta schemaClaims schemaMeta = (false, []).
Proof.
  intros Hmeta. unfold Jwt.validateClaims, Jwt.validateClaims_try.
  rewrite Hmeta. split; reflexivity.
Qed.

Lemma validateClaims_meta_gate_witness :
  validateMeta Sample.collaborators JNull Sample.Composition = false
  /\ Jwt.validateClaims_try Sample.collaborators Sample.clock
       Sample.createComposition JNull (Jwt.Create Sample.collaborators)
       Sample.Composition = Ok false
  /\ Jwt.validateClaims Sample.collaborators Sample.clock
       Sample.createComposition JNull (Jwt.Create Sample.collaborators)
       Sample.Composition = (false, []).
Proof.
  split; [reflexivity |].
  apply (validateClaims_meta_gate Sample.collaborators Sample.clock
           Sample.createComposition JNull (Jwt.Create Sample.collaborators)
           Sample.Composition).
  reflexivity.
Defined.

(** ** Header construction *)

(** C4, as the code has it.  For a key of the wrong length the builder
    catches its own error, writes it to the console and returns the empty
    object [{}] to the caller; the empty object does not pass the [Header]
    schema. *)
Theorem header_failure_returns_empty (C : Collaborators) (publicKey : Buffer) :
  (length publicKey <> 32%nat ->
   Jwt.ed25519Header C publicKey
   = (JObj [], [BadKeyLength 32 (length publicKey)]))
  /\ (length publicKey <> 33%nat ->
      Jwt.secp256k1Header C publicKey
      = (JObj [], [BadKeyLength 33 (length publicKey)]))
  /\ SchemaLib.validateSchema (JObj []) Jwt.Header = false.
Proof.
  split; [|split]; [| |reflexivity].
  - intros Hlen. unfold Jwt.ed25519Header, Jwt.ed25519Header_try.
    apply Nat.eqb_neq in Hlen. rewrite Hlen. reflexivity.
  - intros Hlen. unfold Jwt.secp256k1Header, Jwt.secp256k1Header_try.
    apply Nat.eqb_neq in Hlen. rewrite Hlen. reflexivity.
Qed.

Lemma header_failure_returns_empty_witness :
  length Sample.performerKey <> 32%nat
  /\ Jwt.ed25519Header Sample.collaborators Sample.performerKey
     = (JObj [], [BadKeyLength 32 33])
  /\ length Sample.composerKey <> 33%nat
  /\ Jwt.secp256k1Header Sample.collaborators Sample.composerKey
     = (JObj [], [BadKeyLength 33 32]).
Proof.
  assert (H32 : length Sample.performerKey <> 32%nat) by (vm_compute; lia).
  assert (H33 : length Sample.composerKey <> 33%nat) by (vm_compute; lia).
  split; [exact H32 | split; [| split; [exact H33 |]]].
  - exact (proj1 (header_failure_returns_empty Sample.collaborators
                    Sample.performerKey) H32).
  - exact (proj1 (proj2 (header_failure_returns_empty Sample.collaborators
                           Sample.composerKey)) H33).
Defined.

(** C4, as stated, fails: given the empty key, whose length is neither 32
    nor 33, each builder returns normally, and what it returns is the empty
    object. *)
Lemma header_failure_is_swallowed :
  length (@nil Byte.byte) <> 32%nat
  /\ length (@nil Byte.byte) <> 33%nat
  /\ fst (Jwt.ed25519Header Sample.collaborators []) = JObj []
  /\ fst (Jwt.secp256k1Header Sample.collaborators []) = JObj [].
Proof. repeat split; try discriminate. Qed.

(** ** Role authorization *)

Lemma require_issuer_ok iss list kind :
  Jwt.require_issuer iss list kind = Ok tt ->
  exists addresses, list = JArr addresses /\ listed iss addresses.
Proof.
  unfold Jwt.require_issuer. intros H.
  step H as found Hsome. apply throw_if_ok, negb_false_iff in H. subst found.
  destruct list; simpl in Hsome; try discriminate.
  injection Hsome as Hsome. apply existsb_exists in Hsome as (id & Hin & Heq).
  exists items. split; [reflexivity | by exists id].
Qed.

Lemma concat_ok v w both :
  JS.concat v w = Ok (JArr both) ->
  exists items, v = JArr items /\ both = (items ++ JS.spread w)%list.
Proof.
  destruct v; simpl; try discriminate. intros [= <-]. eauto.
Qed.

Lemma authorize_ok iss meta :
  Jwt.authorize iss meta = Ok tt -> authorized iss meta.
Proof.
  unfold Jwt.authorize, authorized. intros H.
  step H as type Htype.
  destruct (JS.strict_eq type (JStr "Album")) eqn:Halbum.
  { apply strict_eq_str in Halbum. subst type.
    step H as artist Hartist.
    apply require_issuer_ok in H as (addresses & -> & Hlisted).
    left. eauto. }
  destruct (JS.strict_eq type (JStr "Composition")) eqn:Hcomposition.
  { apply strict_eq_str in Hcomposition. subst type.
    step H as composer Hcomposer. step H as lyricist Hlyricist.
    step H as both Hboth.
    apply require_issuer_ok in H as (addresses & -> & Hlisted).
    apply concat_ok in Hboth as (items & -> & ->).
    right; left. eauto 10. }
  destruct (JS.strict_eq type (JStr "Recording")) eqn:Hrecording; [|discriminate].
  apply strict_eq_str in Hrecording. subst type.
  step H as performer Hperformer. step H as producer Hproducer.
  step H as both Hboth.
  apply require_issuer_ok in H as (addresses & -> & Hlisted).
  apply concat_ok in Hboth as (items & -> & ->).
  right; right. eauto 10.
Qed.

Lemma authorize_unknown iss meta type :
  JS.get "@type" meta = Ok type ->
  type <> JStr "Album" -> type <> JStr "Composition" ->
  type <> JStr "Recording" ->
  Jwt.authorize iss meta = Throw UnexpectedMetaType.
Proof.
  intros Htype Ha Hc Hr. unfold Jwt.authorize. rewrite Htype. simpl bind.
  destruct (JS.strict_eq type (JStr "Album")) eqn:E1;
    [apply strict_eq_str in E1; contradiction |].
  destruct (JS.strict_eq type (JStr "Composition")) eqn:E2;
    [apply strict_eq_str in E2; contradiction |].
  destruct (JS.strict_eq type (JStr "Recording")) eqn:E3;
    [apply strict_eq_str in E3; contradiction |].
  reflexivity.
Qed.

(** An address that [===] finds in a list is an item of the list. *)
Lemma listed_address (a : string) (addresses : list JSValue) :
  listed (JStr a) addresses -> In (JStr a) addresses.
Proof.
  intros (id & Hin & Heq). destruct id; simpl in Heq; try discriminate.
  apply String.eqb_eq in Heq. by subst.
Qed.

Lemma listed_second (a : string) (first : list JSValue) (field : JSValue)
    (more : list JSValue) :
  second_list field more ->
  listed (JStr a) (first ++ JS.spread field) -> In (JStr a) (first ++ more).
Proof.
  intros Hsecond Hlisted. apply listed_address in Hlisted.
  destruct Hsecond as [-> | [-> ->]]; [exact Hlisted |].
  rewrite app_nil_r. apply in_app_or in Hlisted as [Hin | [Heq | []]];
    [exact Hin | discriminate].
Qed.

(** For an address and a document whose second role field is a list or
    absent, what [some] finds is a member of the role-address set. *)
Lemma authorized_in_role_set (a : string) (meta : JSValue) :
  role_lists meta -> authorized (JStr a) meta -> in_role_set a meta.
Proof.
  intros Hlists [(Htype & artist & Hartist & Hlisted)
                |[(Htype & composer & lyricist & Hfirst & Hsecond & Hlisted)
                 |(Htype & performer & producer & Hfirst & Hsecond & Hlisted)]].
  - apply (role_album a meta artist); try assumption.
    by apply listed_address.
  - destruct (Hlists "lyricist" lyricist (or_introl eq_refl) Hsecond)
      as (more & Hmore).
    apply (role_composition a meta composer lyricist more); try assumption.
    by apply (listed_second a composer lyricist).
  - destruct (Hlists "producer" producer (or_intror eq_refl) Hsecond)
      as (more & Hmore).
    apply (role_recording a meta performer producer more); try assumption.
    by apply (listed_second a performer producer).
Qed.

(** The two claims schemas require [iss]. *)
Lemma claims_schema_iss (C : Collaborators) (claims : JSValue)
    (schemaClaims : Schema) :
  schemaClaims = Jwt.Create C \/ schemaClaims = Jwt.License C ->
  SchemaLib.validateSchema claims schemaClaims = true ->
  JS.get "iss" claims <> Ok JUndefined.
Proof.
  intros [-> | ->] H; destruct claims as [| | | | | |props]; try discriminate;
    unfold Jwt.Create, Jwt.License, Jwt.iat, Jwt.intDate in H; cbn in H;
    split_andb; cbn [JS.get]; intros [= Hiss];
    rewrite Hiss in *; cbv iota in *; congruence.
Qed.

(** C5. A validation that succeeds found [claims.iss] among the addresses
    the [@type] of the document selects: [artist] for an Album, [composer]
    followed by [lyricist] for a Composition, [performer] followed by
    [producer] for a Recording.  An issuer that is an address, as the
    [Create] and [License] schemas have it, and that [iss] is required by
    them, is then a member of the role-address set of a document whose
    second role field is a list or absent; an address outside of the set
    fails validation.  For any other [@type] validation fails. *)
Theorem role_authorization (C : Collaborators) (clock : Clock)
    (claims meta : JSValue) (schemaClaims schemaMeta : Schema) :
  (fst (Jwt.validateClaims C clock claims meta schemaClaims schemaMeta) = true ->
   exists iss,
     JS.get "iss" claims = Ok iss /\ authorized iss meta
     /\ (forall a, iss = JStr a -> role_lists meta -> in_role_set a meta)
     /\ (schemaClaims = Jwt.Create C \/ schemaClaims = Jwt.License C ->
         iss <> JUndefined))
  /\ (forall a,
        JS.get "iss" claims = Ok (JStr a) -> role_lists meta ->
        ~ in_role_set a meta ->
        fst (Jwt.validateClaims C clock claims meta schemaClaims schemaMeta)
        = false)
  /\ (forall type,
        JS.get "@type" meta = Ok type ->
        type <> JStr "Album" -> type <> JStr "Composition" ->
        type <> JStr "Recording" ->
        fst (Jwt.validateClaims C clock claims meta schemaClaims schemaMeta)
        = false).
Proof.
  assert (Hchecked :
    fst (Jwt.validateClaims C clock claims meta schemaClaims schemaMeta) = true ->
    exists iss,
      JS.get "iss" claims = Ok iss /\ Jwt.authorize iss meta = Ok tt
      /\ SchemaLib.validateSchema claims schemaClaims = true).
  { intros Hvalid. apply validateClaims_true in Hvalid as [_ Hchecks].
    apply checkClaims_ok in Hchecks
      as (typ & iat & aud & iss & exp & nbf & id & Hc).
    exists iss. split; [apply Hc |]. split; apply Hc. }
  split; [|split].
  - intros Hvalid. destruct (Hchecked Hvalid) as (iss & Hiss & Hrole & Hschema).
    exists iss. split; [exact Hiss |]. split; [by apply authorize_ok |]. split.
    + intros a -> Hlists. by apply authorized_in_role_set, authorize_ok.
    + intros Hwhich ->. by apply (claims_schema_iss C claims schemaClaims).
  - intros a Hiss Hlists Hout. apply not_true_is_false. intros Hvalid.
    destruct (Hchecked Hvalid) as (iss & Hiss' & Hrole & _).
    rewrite Hiss in Hiss'. injection Hiss' as <-.
    by apply Hout, authorized_in_role_set, authorize_ok.
  - intros type Htype Ha Hc Hr. apply not_true_is_false. intros Hvalid.
    destruct (Hchecked Hvalid) as (iss & _ & Hrole & _).
    rewrite (authorize_unknown iss meta type) in Hrole by assumption.
    discriminate.
Qed.

Lemma role_authorization_witness :
  fst (Jwt.validateClaims Sample.collaborators Sample.clock
         Sample.createComposition Sample.composition
         (Jwt.Create Sample.collaborators) Sample.Composition) = true
  /\ role_lists Sample.composition
  /\ in_role_set Sample.composer Sample.composition
  /\ JS.get "iss" (Sample.createBy Sample.performer) = Ok (JStr Sample.performer)
  /\ ~ in_role_set Sample.performer Sample.composition
  /\ Jwt.validateClaims Sample.collaborators Sample.clock
       (Sample.createBy Sample.composer) Sample.composition
       (Jwt.Create Sample.collaborators) Sample.Composition = (true, [])
  /\ snd (Jwt.validateClaims Sample.collaborators Sample.clock
            (Sample.createBy Sample.performer) Sample.composition
            (Jwt.Create Sample.collaborators) Sample.Composition)
     = [IssNotComposerOrLyricist]
  /\ fst (Jwt.validateClaims Sample.collaborators Sample.clock
            (Sample.createBy Sample.performer) Sample.composition
            (Jwt.Create Sample.collaborators) Sample.Composition) = false.
Proof.
  assert (Hvalid : fst (Jwt.validateClaims Sample.collaborators Sample.clock
                          Sample.createComposition Sample.composition
                          (Jwt.Create Sample.collaborators) Sample.Composition)
                   = true) by (vm_compute; reflexivity).
  assert (Hlists : role_lists Sample.composition).
  { intros field w [-> | ->] Hfield; vm_compute in Hfield;
      injection Hfield as <-; exists []; right; split; reflexivity. }
  assert (Hiss : JS.get "iss" (Sample.createBy Sample.performer)
                 = Ok (JStr Sample.performer)) by (vm_compute; reflexivity).
  assert (Hout : ~ in_role_set Sample.performer Sample.composition).
  { intros [artist Htype _ _
           | composer lyricist more _ Hfirst Hsecond Hmore Hin
           | performer producer more Htype _ _ _ _];
      [discriminate Htype | | discriminate Htype].
    vm_compute in Hfirst, Hsecond. injection Hfirst as <-. injection Hsecond as <-.
    destruct Hmore as [Hmore | [_ ->]]; [discriminate Hmore |].
    vm_compute in Hin. destruct Hin as [Hin | []]. discriminate Hin. }
  split; [exact Hvalid |]. split; [exact Hlists |]. split.
  { destruct (proj1 (role_authorization Sample.collaborators Sample.clock
                       Sample.createComposition Sample.composition
                       (Jwt.Create Sample.collaborators) Sample.Composition)
                Hvalid) as (iss & Hread & _ & Hmember & _).
    vm_compute in Hread. injection Hread as <-.
    exact (Hmember _ eq_refl Hlists). }
  split; [exact Hiss |]. split; [exact Hout |].
  split; [vm_compute; reflexivity |]. split; [vm_compute; reflexivity |].
  exact (proj1 (proj2 (role_authorization Sample.collaborators Sample.clock
                         (Sample.createBy Sample.performer) Sample.composition
                         (Jwt.Create Sample.collaborators) Sample.Composition))
           Sample.performer Hiss Hlists Hout).
Defined.

(** ** Presence by truthiness *)

(** C9. [exp] and [nbf] count as present when they are truthy.  With
    [exp == 0] the three checks of the [exp] block are skipped and no
    failure of that kind is ever logged; with [nbf == 0] the two checks of
    the [nbf] block are skipped likewise.  A License whose [exp] is 0, long
    before the clock's 1000, validates. *)
Theorem zero_exp_nbf_skipped :
  (forall C iat nbf rightNow,
     Jwt.check_exp C (JNum 0) iat nbf rightNow = Ok tt)
  /\ (forall C iat rightNow, Jwt.check_nbf C (JNum 0) iat rightNow = Ok tt)
  /\ (forall C clock claims meta schemaClaims schemaMeta e,
        JS.get "exp" claims = Ok (JNum 0) ->
        snd (Jwt.validateClaims C clock claims meta schemaClaims schemaMeta) = [e] ->
        ~ exp_failure e)
  /\ (forall C clock claims meta schemaClaims schemaMeta e,
        JS.get "nbf" claims = Ok (JNum 0) ->
        snd (Jwt.validateClaims C clock claims meta schemaClaims schemaMeta) = [e] ->
        ~ nbf_failure e)
  /\ (JS.get "exp" (Sample.licenseComposition 0) = Ok (JNum 0)
      /\ 0 < Sample.clock 1%nat
      /\ Jwt.validateClaims Sample.collaborators Sample.clock
           (Sample.licenseComposition 0) Sample.composition
           (Jwt.License Sample.collaborators) Sample.Composition = (true, [])).
Proof.
  split; [reflexivity |]. split; [reflexivity |]. split; [|split].
  - intros C clock claims meta schemaClaims schemaMeta e Hexp Hlog Hkind.
    apply validateClaims_logged in Hlog.
    destruct (checkClaims_exp_failure C _ _ _ _ _ Hlog Hkind)
      as (exp & iat & nbf & Hexp' & _ & _ & Hthrow).
    rewrite Hexp in Hexp'. injection Hexp' as <-. discriminate.
  - intros C clock claims meta schemaClaims schemaMeta e Hnbf Hlog Hkind.
    apply validateClaims_logged in Hlog.
    destruct (checkClaims_nbf_failure C _ _ _ _ _ Hlog Hkind)
      as (nbf & iat & Hnbf' & _ & Hthrow).
    rewrite Hnbf in Hnbf'. injection Hnbf' as <-. discriminate.
  - vm_compute. repeat split.
Qed.

Lemma zero_exp_nbf_skipped_witness :
  JS.get "exp" (Sample.licenseComposition 0) = Ok (JNum 0)
  /\ snd (Jwt.validateClaims Sample.collaborators Sample.clock
            (Sample.licenseComposition 0) Sample.recording
            (Jwt.License Sample.collaborators) Sample.Recording) = [SubMismatch]
  /\ ~ exp_failure SubMismatch.
Proof.
  assert (Hexp : JS.get "exp" (Sample.licenseComposition 0) = Ok (JNum 0))
    by (vm_compute; reflexivity).
  assert (Hlog : snd (Jwt.validateClaims Sample.collaborators Sample.clock
                        (Sample.licenseComposition 0) Sample.recording
                        (Jwt.License Sample.collaborators) Sample.Recording)
                 = [SubMismatch])
    by (vm_compute; reflexivity).
  split; [exact Hexp | split; [exact Hlog |]].
  exact (proj1 (proj2 (proj2 zero_exp_nbf_skipped)) Sample.collaborators
           Sample.clock (Sample.licenseComposition 0) Sample.recording
           (Jwt.License Sample.collaborators) Sample.Recording SubMismatch
           Hexp Hlog).
Defined.

(** ** Temporal boundary *)

Lemma le_same_number (C : Collaborators) (n : Z) :
  Jwt.le C (JNum n) (JNum n) = true.
Proof. unfold Jwt.le. simpl. by rewrite Z.ltb_irrefl. Qed.

Lemma lt_numbers (C : Collaborators) (m n : Z) :
  Jwt.lt C (JNum m) (JNum n) = (m <? n).
Proof. unfold Jwt.lt. simpl. by destruct (m <? n). Qed.

Lemma check_exp_expired (C : Collaborators) (e : Z) iat nbf rightNow :
  Jwt.check_exp C (JNum e) iat nbf rightNow = Throw ClaimsExpired ->
  e < rightNow.
Proof.
  unfold Jwt.check_exp. destruct (JS.truthy (JNum e)); [|discriminate].
  intros H.
  apply bind_throw in H as [H | (? & _ & H)];
    [apply throw_if_throw in H as [_ [=]] |].
  apply bind_throw in H as [H | (? & _ & H)];
    [apply throw_if_throw in H as [_ [=]] |].
  apply bind_throw in H as [H | (? & _ & H)]; [|discriminate].
  apply throw_if_throw in H as [H _]. rewrite lt_numbers in H. lia.
Qed.

Lemma check_exp_ok_fresh (C : Collaborators) (e : Z) iat nbf rightNow :
  Jwt.check_exp C (JNum e) iat nbf rightNow = Ok tt ->
  e = 0 \/ rightNow <= e.
Proof.
  unfold Jwt.check_exp. simpl JS.truthy.
  destruct (e =? 0) eqn:Hzero; simpl; [lia |].
  intros H. step H as u0 H0. step H as u1 H1. step H as u2 H2.
  rewrite lt_numbers in H2. lia.
Qed.

(** C3, as the code has it.  For claims whose [exp] and [iat] are the
    numbers [e] and [i]: when [e = i] and [e] is not 0 validation fails;
    the expiry failure is logged only when [e < now], so that neither
    [exp == now] nor [exp == now + 1] fails the expiry check; and a
    non-zero [exp] below [now] makes validation fail. *)
Theorem license_expiry_boundary (C : Collaborators) (clock : Clock)
    (claims meta : JSValue) (schemaClaims schemaMeta : Schema) (e i : Z) :
  JS.get "exp" claims = Ok (JNum e) ->
  JS.get "iat" claims = Ok (JNum i) ->
  (e = i -> e <> 0 ->
   fst (Jwt.validateClaims C clock claims meta schemaClaims schemaMeta) = false)
  /\ (clock 1%nat <= e ->
      snd (Jwt.validateClaims C clock claims meta schemaClaims schemaMeta)
      <> [ClaimsExpired])
  /\ (e < clock 1%nat -> e <> 0 ->
      fst (Jwt.validateClaims C clock claims meta schemaClaims schemaMeta) = false).
Proof.
  intros Hexp Hiat. split; [|split].
  - intros -> Hnz.
    destruct (fst (Jwt.validateClaims C clock claims meta schemaClaims schemaMeta))
      eqn:Hvalid; [|reflexivity].
    apply validateClaims_true in Hvalid as [_ Hchecks].
    apply checkClaims_ok in Hchecks
      as (typ & iat & aud & iss & exp & nbf & id & Hchk).
    destruct Hchk. rewrite Hexp in chk_exp_read0. rewrite Hiat in chk_iat0.
    injection chk_exp_read0 as <-. injection chk_iat0 as <-.
    unfold Jwt.check_exp in chk_exp0. simpl JS.truthy in chk_exp0.
    apply Z.eqb_neq in Hnz. rewrite Hnz in chk_exp0. simpl negb in chk_exp0.
    rewrite le_same_number in chk_exp0. discriminate.
  - intros Hfresh Hlog. apply validateClaims_logged in Hlog.
    destruct (checkClaims_exp_failure C _ _ _ _ _ Hlog)
      as (exp & iat & nbf & Hexp' & _ & _ & Hthrow);
      [right; right; reflexivity |].
    rewrite Hexp in Hexp'. injection Hexp' as <-.
    apply check_exp_expired in Hthrow. lia.
  - intros Hpast Hnz.
    destruct (fst (Jwt.validateClaims C clock claims meta schemaClaims schemaMeta))
      eqn:Hvalid; [|reflexivity].
    apply validateClaims_true in Hvalid as [_ Hchecks].
    apply checkClaims_ok in Hchecks
      as (typ & iat & aud & iss & exp & nbf & id & Hchk).
    destruct Hchk. rewrite Hexp in chk_exp_read0.
    injection chk_exp_read0 as <-.
    apply check_exp_ok_fresh in chk_exp0. lia.
Qed.

Lemma license_expiry_boundary_witness :
  JS.get "exp" (Sample.licenseComposition 1001) = Ok (JNum 1001)
  /\ JS.get "iat" (Sample.licenseComposition 1001) = Ok (JNum 900)
  /\ Sample.clock 1%nat <= 1001
  /\ snd (Jwt.validateClaims Sample.collaborators Sample.clock
            (Sample.licenseComposition 1001) Sample.composition
            (Jwt.License Sample.collaborators) Sample.Composition)
     <> [ClaimsExpired].
Proof.
  assert (Hexp : JS.get "exp" (Sample.licenseComposition 1001) = Ok (JNum 1001))
    by (vm_compute; reflexivity).
  assert (Hiat : JS.get "iat" (Sample.licenseComposition 1001) = Ok (JNum 900))
    by (vm_compute; reflexivity).
  assert (Hnow : Sample.clock 1%nat <= 1001) by (vm_compute; discriminate).
  split; [exact Hexp | split; [exact Hiat | split; [exact Hnow |]]].
  exact (proj1 (proj2 (license_expiry_boundary Sample.collaborators Sample.clock
                         (Sample.licenseComposition 1001) Sample.composition
                         (Jwt.License Sample.collaborators) Sample.Composition
                         1001 900 Hexp Hiat)) Hnow).
Defined.

(** C3, as stated, fails: a License whose [exp] equals the [now] read into
    [rightNow] validates. *)
Lemma license_expiring_now_validates :
  JS.get "typ" (Sample.licenseComposition 1000) = Ok (JStr "License")
  /\ JS.get "exp" (Sample.licenseComposition 1000) = Ok (JNum (Sample.clock 1%nat))
  /\ Jwt.validateClaims Sample.collaborators Sample.clock
       (Sample.licenseComposition 1000) Sample.composition
       (Jwt.License Sample.collaborators) Sample.Composition = (true, []).
Proof. vm_compute. repeat split. Qed.

(** ** Verification *)

(** A header that passes the [Header] schema is an object whose [alg] is one
    of the two algorithms and whose [jwk] is an object. *)
Lemma Header_valid (header : JSValue) :
  SchemaLib.validateSchema header Jwt.Header = true ->
  exists props jwk alg,
    header = JObj props
    /\ JS.lookup_prop "alg" props = JStr alg
    /\ (alg = "EdDsa" \/ alg = "ES256")
    /\ JS.lookup_prop "jwk" props = JObj jwk.
Proof.
  intros H. destruct header; try discriminate.
  exists props.
  unfold Jwt.Header in H. cbn in H. split_andb.
  destruct (JS.lookup_prop "alg" props) as [| | | |alg| |] eqn:Halg;
    try discriminate.
  destruct (JS.lookup_prop "jwk" props) as [| | | | | |jwk] eqn:Hjwk;
    try discriminate.
  split_andb. exists jwk, alg. repeat split; try reflexivity.
  match goal with
  | H : (alg =? "EdDsa")%string || _ = true |- _ =>
      apply orb_prop in H as [H | H];
      [left; by apply String.eqb_eq
      | right; apply orb_prop in H as [H | H];
        [by apply String.eqb_eq | discriminate]]
  end.
Qed.

Section Verification.
Context (C : Collaborators).

(** For a header of the shape the schema admits, the two [alg] blocks
    succeed exactly when the issuer is the address of the key of the
    header and the signature verifies under the curve of the header. *)
Lemma checkSignature_ok claims header signature props jwk alg iss :
  header = JObj props ->
  JS.lookup_prop "alg" props = JStr alg ->
  alg = "EdDsa" \/ alg = "ES256" ->
  JS.lookup_prop "jwk" props = JObj jwk ->
  JS.get "iss" claims = Ok iss ->
  Jwt.checkSignature C claims header signature = Ok tt <->
  exists curve,
    curveOf header = Some curve
    /\ iss = JStr (publicKey2Addr C (headerKey C curve header))
    /\ curveVerify C curve (Jwt.signingInput C claims header)
         (headerKey C curve header) signature = true.
Proof.
  intros -> Halg Hknown Hjwk Hiss.
  unfold Jwt.checkSignature, curveOf, headerKey, jwkField.
  cbn [JS.get bind]. rewrite Halg, Hjwk, Hiss. cbn [JS.get bind].
  destruct Hknown as [-> | ->]; cbn [JS.strict_eq String.eqb Ascii.eqb Bool.eqb].
  - cbn [bind].
    destruct (JS.strict_eq iss
                (JStr (publicKey2Addr C (decodeBase64 C (JS.lookup_prop "x" jwk)))))
      eqn:Haddr; cbn [negb throw_if bind].
    + apply strict_eq_str in Haddr.
      destruct (ed25519_verify C _ _ signature) eqn:Hsig; cbn [negb throw_if bind].
      * split; [intros _ | reflexivity].
        exists Ed25519. by repeat split.
      * split; [discriminate |].
        intros ([] & Hcurve & _ & Hverify); [|discriminate].
        simpl in Hverify. congruence.
    + split; [discriminate |].
      intros ([] & Hcurve & Heq & _); [|discriminate].
      apply strict_eq_str in Heq. congruence.
  - cbn [bind].
    destruct (JS.strict_eq iss
                (JStr (publicKey2Addr C
                         (secp256k1_compress C
                            (decodeBase64 C (JS.lookup_prop "x" jwk))
                            (decodeBase64 C (JS.lookup_prop "y" jwk))))))
      eqn:Haddr; cbn [negb throw_if bind].
    + apply strict_eq_str in Haddr.
      destruct (secp256k1_verify C _ _ signature) eqn:Hsig;
        cbn [negb throw_if bind].
      * split; [intros _ | reflexivity].
        exists Secp256k1. by repeat split.
      * split; [discriminate |].
        intros ([] & Hcurve & _ & Hverify); [discriminate|].
        simpl in Hverify. congruence.
    + split; [discriminate |].
      intros ([] & Hcurve & Heq & _); [discriminate|].
      apply strict_eq_str in Heq. congruence.
Qed.

Lemma verifyClaims_true clock claims header meta schemaClaims schemaMeta signature :
  fst (Jwt.verifyClaims C clock claims header meta schemaClaims schemaMeta
         signature) = true <->
  SchemaLib.validateSchema header Jwt.Header = true
  /\ fst (Jwt.validateClaims C clock claims meta schemaClaims schemaMeta) = true
  /\ Jwt.checkSignature C claims header signature = Ok tt.
Proof.
  unfold Jwt.verifyClaims, Jwt.verifyClaims_try.
  destruct (SchemaLib.validateSchema header Jwt.Header); cbn [negb];
    [|cbn; split; [discriminate | intros [? _]; discriminate]].
  destruct (fst (Jwt.validateClaims C clock claims meta schemaClaims schemaMeta));
    [|cbn; split; [discriminate | intros (_ & ? & _); discriminate]].
  cbn [fst snd].
  destruct (Jwt.checkSignature C claims header signature) as [[]|e]; cbn;
    split; try tauto; try discriminate.
  intros (_ & _ & ?). discriminate.
Qed.

End Verification.

(** C2. [verifyClaims] returns [true] exactly when the header passes the
    [Header] schema, [validateClaims] succeeds, [claims.iss] is the address
    of the public key the [jwk] of the header holds for the curve its [alg]
    selects, and that curve verifies the signature over
    [encodedHeader + '.' + encodedClaims].  Under a header of a known curve,
    an [iss] other than that address gives [false] whatever the signature. *)
Theorem verifyClaims_iff (C : Collaborators) (clock : Clock)
    (claims header meta : JSValue) (schemaClaims schemaMeta : Schema)
    (signature : Buffer) :
  (fst (Jwt.verifyClaims C clock claims header meta schemaClaims schemaMeta
          signature) = true <->
   SchemaLib.validateSchema header Jwt.Header = true
   /\ fst (Jwt.validateClaims C clock claims meta schemaClaims schemaMeta) = true
   /\ exists curve,
        curveOf header = Some curve
        /\ JS.get "iss" claims
           = Ok (JStr (publicKey2Addr C (headerKey C curve header)))
        /\ curveVerify C curve (Jwt.signingInput C claims header)
             (headerKey C curve header) signature = true)
  /\ (forall curve,
        curveOf header = Some curve ->
        JS.get "iss" claims
        <> Ok (JStr (publicKey2Addr C (headerKey C curve header))) ->
        fst (Jwt.verifyClaims C clock claims header meta schemaClaims schemaMeta
               signature) = false).
Proof.
  assert (Hiff :
    fst (Jwt.verifyClaims C clock claims header meta schemaClaims schemaMeta
           signature) = true <->
    SchemaLib.validateSchema header Jwt.Header = true
    /\ fst (Jwt.validateClaims C clock claims meta schemaClaims schemaMeta) = true
    /\ exists curve,
         curveOf header = Some curve
         /\ JS.get "iss" claims
            = Ok (JStr (publicKey2Addr C (headerKey C curve header)))
         /\ curveVerify C curve (Jwt.signingInput C claims header)
              (headerKey C curve header) signature = true).
  { rewrite verifyClaims_true. split.
    - intros (Hheader & Hvalid & Hsig). split; [assumption | split; [assumption |]].
      destruct (Header_valid header Hheader)
        as (props & jwk & alg & Hobj & Halg & Hknown & Hjwk).
      pose proof Hvalid as Hchecks.
      apply validateClaims_true in Hchecks as [_ Hchecks].
      apply checkClaims_ok in Hchecks
        as (typ & iat & aud & iss & exp & nbf & id & Hchk).
      pose proof (chk_iss _ _ _ _ _ _ _ _ _ _ _ _ Hchk) as Hiss.
      apply (checkSignature_ok C claims header signature props jwk alg iss
               Hobj Halg Hknown Hjwk Hiss) in Hsig
        as (curve & Hcurve & -> & Hverify).
      exists curve. by repeat split.
    - intros (Hheader & Hvalid & curve & Hcurve & Hiss & Hverify).
      split; [assumption | split; [assumption |]].
      destruct (Header_valid header Hheader)
        as (props & jwk & alg & Hobj & Halg & Hknown & Hjwk).
      apply (checkSignature_ok C claims header signature props jwk alg _
               Hobj Halg Hknown Hjwk Hiss).
      exists curve. by repeat split. }
  split; [exact Hiff |].
  intros curve Hcurve Hmismatch.
  apply not_true_is_false. intros Hverified.
  apply Hiff in Hverified as (_ & _ & curve' & Hcurve' & Hiss & _).
  rewrite Hcurve in Hcurve'. injection Hcurve' as <-. contradiction.
Qed.

Lemma verifyClaims_iff_witness :
  fst (Jwt.verifyClaims Sample.collaborators Sample.clock
         Sample.createComposition Sample.composerHeader Sample.composition
         (Jwt.Create Sample.collaborators) Sample.Composition
         (Sample.signed Sample.createComposition Sample.composerHeader
            Sample.composerKey)) = true
  /\ SchemaLib.validateSchema Sample.composerHeader Jwt.Header = true
  /\ fst (Jwt.validateClaims Sample.collaborators Sample.clock
            Sample.createComposition Sample.composition
            (Jwt.Create Sample.collaborators) Sample.Composition) = true.
Proof.
  assert (Hverified :
    fst (Jwt.verifyClaims Sample.collaborators Sample.clock
           Sample.createComposition Sample.composerHeader Sample.composition
           (Jwt.Create Sample.collaborators) Sample.Composition
           (Sample.signed Sample.createComposition Sample.composerHeader
              Sample.composerKey)) = true)
    by (vm_compute; reflexivity).
  split; [exact Hverified |].
  destruct (proj1 (proj1 (verifyClaims_iff Sample.collaborators Sample.clock
                            Sample.createComposition Sample.composerHeader
                            Sample.composition
                            (Jwt.Create Sample.collaborators) Sample.Composition
                            (Sample.signed Sample.createComposition
                               Sample.composerHeader Sample.composerKey)))
              Hverified) as (Hheader & Hvalid & _).
  split; [exact Hheader | exact Hvalid].
Defined.

(** ** Round trip *)

Section RoundTrip.
Context (C : Collaborators).

Lemma listed_in iss addresses :
  In (JStr iss) addresses ->
  existsb (fun id => JS.strict_eq (JStr iss) id) addresses = true.
Proof.
  intros Hin. apply existsb_exists. exists (JStr iss).
  split; [assumption | apply strict_eq_str; reflexivity].
Qed.

Lemma in_second_list iss first field more :
  second_list field more ->
  In (JStr iss) (first ++ more) ->
  In (JStr iss) (first ++ JS.spread field).
Proof.
  intros [-> | [-> ->]] Hin; [exact Hin |].
  rewrite app_nil_r in Hin. apply in_or_app. by left.
Qed.

Lemma authorize_in_role_set iss meta :
  in_role_set iss meta -> Jwt.authorize (JStr iss) meta = Ok tt.
Proof.
  intros [artist Htype Hlist Hin
         | composer lyricist more Htype Hfirst Hsecond Hmore Hin
         | performer producer more Htype Hfirst Hsecond Hmore Hin];
    unfold Jwt.authorize; rewrite Htype; cbn [bind];
    cbn [JS.strict_eq String.eqb Ascii.eqb Bool.eqb].
  - rewrite Hlist. cbn [bind]. unfold Jwt.require_issuer. cbn [JS.some bind].
    by rewrite (listed_in _ _ Hin).
  - rewrite Hfirst, Hsecond. cbn [bind JS.concat].
    unfold Jwt.require_issuer. cbn [JS.some bind].
    by rewrite (listed_in _ _ (in_second_list _ _ _ _ Hmore Hin)).
  - rewrite Hfirst, Hsecond. cbn [bind JS.concat].
    unfold Jwt.require_issuer. cbn [JS.some bind].
    by rewrite (listed_in _ _ (in_second_list _ _ _ _ Hmore Hin)).
Qed.

Lemma not_in_audience iss aud :
  ~ In iss aud ->
  existsb (fun a => JS.strict_eq a (JStr iss)) (List.map JStr aud) = false.
Proof.
  intros Hout. apply not_true_is_false. intros Hsome.
  apply existsb_exists in Hsome as (a & Hin & Heq).
  apply strict_eq_str in Heq. subst a.
  apply in_map_iff in Hin as (iss' & [= ->] & Hin). contradiction.
Qed.

Lemma le_numbers (m n : Z) : Jwt.le C (JNum m) (JNum n) = (m <=? n).
Proof.
  unfold Jwt.le. simpl.
  destruct (n <? m) eqn:Hlt; symmetry; [apply Z.leb_gt | apply Z.leb_le]; lia.
Qed.

Lemma gt_numbers (m n : Z) : Jwt.gt C (JNum m) (JNum n) = (n <? m).
Proof. unfold Jwt.gt. simpl. by destruct (n <? m). Qed.

Lemma check_exp_valid (iat : Z) (exp nbf : option Z) (rightNow : Z) :
  (forall e, exp = Some e ->
             iat < e /\ (forall n, nbf = Some n -> n < e) /\ rightNow <= e) ->
  Jwt.check_exp C (optional JNum exp) (JNum iat) (optional JNum nbf) rightNow
  = Ok tt.
Proof.
  intros Hinv. destruct exp as [e|]; [|reflexivity].
  destruct (Hinv e eq_refl) as (Hiat & Hnbf & Hnow).
  unfold Jwt.check_exp. simpl optional.
  destruct (JS.truthy (JNum e)); [|reflexivity].
  rewrite le_numbers, lt_numbers.
  assert ((e <=? iat) = false) as -> by (apply Z.leb_gt; lia).
  assert ((e <? rightNow) = false) as -> by (apply Z.ltb_ge; lia).
  destruct nbf as [n|]; simpl optional.
  - rewrite le_numbers.
    assert ((e <=? n) = false) as -> by (apply Z.leb_gt, Hnbf; reflexivity).
    by rewrite andb_false_r.
  - reflexivity.
Qed.

Lemma check_nbf_valid (iat : Z) (nbf : option Z) (rightNow : Z) :
  (forall n, nbf = Some n -> iat < n /\ n <= rightNow) ->
  Jwt.check_nbf C (optional JNum nbf) (JNum iat) rightNow = Ok tt.
Proof.
  intros Hinv. destruct nbf as [n|]; [|reflexivity].
  destruct (Hinv n eq_refl) as (Hiat & Hnow).
  unfold Jwt.check_nbf. simpl optional.
  destruct (JS.truthy (JNum n)); [|reflexivity].
  rewrite le_numbers, gt_numbers.
  assert ((n <=? iat) = false) as -> by (apply Z.leb_gt; lia).
  assert ((rightNow <? n) = false) as -> by (apply Z.ltb_ge; lia).
  reflexivity.
Qed.

(** Claims that satisfy the invariants pass every check. *)
Lemma invariants_checked clock signer claims meta schemaClaims w :
  SchemaLib.validateSchema claims schemaClaims = true ->
  reads claims w ->
  Invariants C clock signer claims meta w ->
  Jwt.checkClaims C clock claims meta schemaClaims = Ok tt.
Proof.
  intros Hschema (Htyp & Hiat & Hiss & Hjti & Hsub & Haud & Hexp & Hnbf) Hinv.
  destruct Hinv.
  apply checkClaims_ok.
  exists (JStr (view_typ w)), (JNum (view_iat w)),
    (optional (fun aud => JArr (List.map JStr aud)) (view_aud w)),
    (JStr (view_iss w)), (optional JNum (view_exp w)),
    (optional JNum (view_nbf w)), (view_jti w).
  constructor; try assumption.
  - destruct inv_typ0 as [-> | (-> & _)]; reflexivity.
  - rewrite gt_numbers. apply Z.ltb_ge. lia.
  - destruct (view_aud w) as [aud|]; [|reflexivity].
    simpl. f_equal. apply not_in_audience. by apply (inv_aud0 aud).
  - by apply check_exp_valid.
  - by apply check_nbf_valid.
  - by rewrite <- inv_sub0.
  - by apply authorize_in_role_set.
Qed.

(** What a header built from a key looks like to the verifier. *)
Lemma built_header_facts curve publicKey header :
  built_header C curve publicKey header ->
  key_round_trip C curve publicKey ->
  SchemaLib.validateSchema header Jwt.Header = true
  /\ curveOf header = Some curve
  /\ headerKey C curve header = publicKey
  /\ exists props jwk alg,
       header = JObj props
       /\ JS.lookup_prop "alg" props = JStr alg
       /\ (alg = "EdDsa" \/ alg = "ES256")
       /\ JS.lookup_prop "jwk" props = JObj jwk.
Proof.
  destruct curve; simpl built_header; simpl key_round_trip.
  - unfold Jwt.ed25519Header, Jwt.ed25519Header_try.
    destruct (length publicKey =? 32)%nat; cbn [negb throw_if bind];
      [|discriminate].
    intros [= <-] [Hmatch Hdecode].
    split; [cbn; by rewrite Hmatch |].
    split; [reflexivity |].
    split; [exact Hdecode |].
    eexists _, _, "EdDsa". repeat split; eauto.
  - unfold Jwt.secp256k1Header, Jwt.secp256k1Header_try.
    destruct (length publicKey =? 33)%nat; cbn [negb throw_if bind];
      [|discriminate].
    destruct (secp256k1_uncompress C publicKey) as [coords|]; [|discriminate].
    intros [= <-] Hkey.
    destruct (Hkey coords eq_refl) as ([Hmx Hdx] & [Hmy Hdy] & Hcompress).
    split; [cbn; by rewrite Hmx, Hmy |].
    split; [reflexivity |].
    split; [cbn; by rewrite Hdx, Hdy |].
    eexists _, _, "ES256". repeat split; eauto.
Qed.

Lemma signClaims_curve curve claims header secretKey :
  curveOf header = Some curve ->
  Jwt.signClaims C claims header secretKey
  = Ok (curveSign C curve (Jwt.signingInput C claims header) secretKey).
Proof.
  unfold curveOf, Jwt.signClaims.
  destruct (JS.get "alg" header) as [alg|]; [|discriminate].
  destruct alg as [| | | |alg| |]; try discriminate.
  destruct (String.eqb alg "EdDsa") eqn:Hed.
  { apply String.eqb_eq in Hed. subst alg. by intros [= <-]. }
  destruct (String.eqb alg "ES256") eqn:Hes.
  { apply String.eqb_eq in Hes. subst alg. by intros [= <-]. }
  intros Hcurve. exfalso.
  apply String.eqb_neq in Hed, Hes.
  repeat match type of Hcurve with
         | match ?x with _ => _ end = _ => destruct x; try discriminate
         end;
    congruence.
Qed.

Lemma verifyClaims_true_log clock claims header meta schemaClaims schemaMeta
    signature :
  fst (Jwt.verifyClaims C clock claims header meta schemaClaims schemaMeta
         signature) = true ->
  Jwt.verifyClaims C clock claims header meta schemaClaims schemaMeta signature
  = (true, []).
Proof.
  intros Hverified.
  pose proof (proj1 (verifyClaims_true C _ _ _ _ _ _ _) Hverified)
    as (Hheader & Hvalid & Hsig).
  apply validateClaims_true_log in Hvalid.
  unfold Jwt.verifyClaims, Jwt.verifyClaims_try.
  rewrite Hheader, Hvalid. cbn [negb fst snd]. rewrite Hsig. reflexivity.
Qed.

End RoundTrip.

(** C1. Claims that satisfy the invariants of section 3 against their
    metadata document, signed under a header built from the public key that
    matches the secret key, verify: [signClaims] returns a signature and
    [verifyClaims] on it returns [true] and logs nothing.  The collaborators
    are taken at their contracts: the curve verifies what the matching key
    signed, and the codec and the point compression undo each other on the
    key. *)
Theorem sign_verify_round_trip (C : Collaborators) (clock : Clock)
    (curve : Curve) (publicKey secretKey : Buffer) (header claims meta : JSValue)
    (schemaClaims schemaMeta : Schema) (w : ClaimsView) :
  built_header C curve publicKey header ->
  matching_key C curve publicKey secretKey ->
  key_round_trip C curve publicKey ->
  validateMeta C meta schemaMeta = true ->
  SchemaLib.validateSchema claims schemaClaims = true ->
  reads claims w ->
  Invariants C clock publicKey claims meta w ->
  exists signature,
    Jwt.signClaims C claims header secretKey = Ok signature
    /\ Jwt.verifyClaims C clock claims header meta schemaClaims schemaMeta
         signature = (true, []).
Proof.
  intros Hbuilt Hmatching Hkey Hmeta Hschema Hreads Hinv.
  destruct (built_header_facts C curve publicKey header Hbuilt Hkey)
    as (Hheader & Hcurve & Hpk & props & jwk & alg & Hobj & Halg & Hknown & Hjwk).
  exists (curveSign C curve (Jwt.signingInput C claims header) secretKey).
  split; [by apply signClaims_curve |].
  apply verifyClaims_true_log, verifyClaims_true.
  split; [exact Hheader |]. split.
  - apply validateClaims_true. split; [exact Hmeta |].
    by apply (invariants_checked C clock publicKey claims meta schemaClaims w).
  - destruct Hreads as (_ & _ & Hiss & _).
    apply (checkSignature_ok C claims header _ props jwk alg _
             Hobj Halg Hknown Hjwk Hiss).
    exists curve. rewrite Hpk. split; [exact Hcurve |].
    split; [by rewrite (inv_iss _ _ _ _ _ _ Hinv) | apply Hmatching].
Qed.

Lemma sample_verify_sign (message : string) (key : Buffer) :
  Sample.verify message key (Sample.sign message key) = true.
Proof.
  unfold Sample.verify, Sample.sign.
  induction (list_byte_of_string message ++ key)%list as [|b bytes IH];
    [reflexivity |].
  simpl. rewrite IH, andb_true_r. by destruct b.
Qed.

Lemma sample_invariants :
  Invariants Sample.collaborators Sample.clock Sample.performerKey
    (Sample.licenseRecording 2000) Sample.recording Sample.licenseView.
Proof.
  constructor.
  - right. repeat split; eexists; reflexivity.
  - vm_compute. reflexivity.
  - vm_compute. reflexivity.
  - vm_compute. reflexivity.
  - vm_compute. discriminate.
  - intros aud [= <-]. split; [discriminate |]. split.
    + repeat constructor. intros Hin. inversion Hin.
    + vm_compute. intros [H | []]. discriminate H.
  - intros exp [= <-]. split; [vm_compute; reflexivity |].
    split; [discriminate | vm_compute; discriminate].
  - discriminate.
  - apply (role_recording _ _ [JStr Sample.performer] JUndefined []).
    + reflexivity.
    + reflexivity.
    + reflexivity.
    + right. split; reflexivity.
    + left. reflexivity.
Qed.

Lemma sign_verify_round_trip_witness :
  exists signature,
    Jwt.signClaims Sample.collaborators (Sample.licenseRecording 2000)
      Sample.performerHeader Sample.performerKey = Ok signature
    /\ Jwt.verifyClaims Sample.collaborators Sample.clock
         (Sample.licenseRecording 2000) Sample.performerHeader Sample.recording
         (Jwt.License Sample.collaborators) Sample.Recording signature
       = (true, []).
Proof.
  apply (sign_verify_round_trip Sample.collaborators Sample.clock Secp256k1
           Sample.performerKey Sample.performerKey Sample.performerHeader
           (Sample.licenseRecording 2000) Sample.recording
           (Jwt.License Sample.collaborators) Sample.Recording
           Sample.licenseView).
  - vm_compute. reflexivity.
  - intros message. apply sample_verify_sign.
  - intros coords [= <-]. vm_compute. repeat split.
  - vm_compute. reflexivity.
  - vm_compute. reflexivity.
  - vm_compute. repeat split.
  - exact sample_invariants.
Defined.

(** ** Objects as property lists *)

Section Props.

Lemma kept_key keys (x : string * JSValue) :
  kept keys x = negb (existsb (String.eqb (fst x)) keys).
Proof. reflexivity. Qed.

(** *** The order of enumeration *)

Ltac order_cases :=
  unfold JS.precedes;
  repeat match goal with
         | |- context [JS.array_index ?k] => destruct (JS.array_index k)
         end;
  repeat match goal with
         | |- context [(?x <? ?y)%N] => destruct (N.ltb_spec x y)
         end;
  intros; try discriminate; try reflexivity; try tauto; try lia.

Lemma precedes_irrefl k : JS.precedes k k = false.
Proof. order_cases. Qed.

Lemma precedes_asym a b : JS.precedes a b = true -> JS.precedes b a = false.
Proof. order_cases. Qed.

Lemma precedes_trans a b c :
  JS.precedes a b = true -> JS.precedes b c = true -> JS.precedes a c = true.
Proof. order_cases. Qed.

Lemma precedes_between a b c :
  JS.precedes a c = true -> JS.precedes b c = false -> JS.precedes a b = true.
Proof. order_cases. Qed.

Lemma precedes_behind a b c :
  JS.precedes a b = true -> JS.precedes c b = false -> JS.precedes c a = false.
Proof. order_cases. Qed.

Lemma enumerated_cons k v rest :
  enumerated ((k, v) :: rest) = true <->
  (forall x, In x rest -> fst x <> k /\ JS.precedes (fst x) k = false)
  /\ enumerated rest = true.
Proof.
  simpl. rewrite andb_true_iff, forallb_forall. split.
  - intros [Hall Hrest]. split; [|exact Hrest]. intros x Hin.
    specialize (Hall x Hin). apply andb_true_iff in Hall as [Hne Hord].
    apply negb_true_iff in Hne, Hord. by apply String.eqb_neq in Hne.
  - intros [Hall Hrest]. split; [|exact Hrest]. intros x Hin.
    destruct (Hall x Hin) as [Hne Hord]. apply String.eqb_neq in Hne.
    by rewrite Hne, Hord.
Qed.

Lemma enumerated_NoDup props :
  enumerated props = true -> List.NoDup (List.map fst props).
Proof.
  induction props as [|[k v] rest IH]; [constructor |].
  rewrite enumerated_cons. intros [Hall Hrest]. simpl. constructor; [|by apply IH].
  intros Hin. apply in_map_iff in Hin as (x & Hx & Hin).
  by destruct (Hall x Hin).
Qed.

Lemma enumerated_app acc src :
  enumerated (acc ++ src) = true <->
  enumerated acc = true /\ enumerated src = true
  /\ forall x y, In x acc -> In y src ->
                 fst y <> fst x /\ JS.precedes (fst y) (fst x) = false.
Proof.
  induction acc as [|[k v] acc IH]; simpl app.
  - split.
    + intros H. split; [reflexivity |]. split; [exact H |]. intros x y [].
    + intros (_ & H & _). exact H.
  - rewrite !enumerated_cons, IH. split.
    + intros (Hall & Hacc & Hsrc & Hcross). split; [split |split].
      * intros x Hin. apply Hall, in_or_app. by left.
      * exact Hacc.
      * exact Hsrc.
      * intros x y [<- | Hx] Hy; [|by apply Hcross].
        apply (Hall y), in_or_app. by right.
    + intros ((Hall & Hacc) & Hsrc & Hcross).
      split; [|split; [exact Hacc | split; [exact Hsrc |]]].
      * intros x Hin. apply in_app_or in Hin as [Hin | Hin]; [by apply Hall |].
        apply (Hcross (k, v) x); [by left | exact Hin].
      * intros x y Hx Hy. apply Hcross; [by right | exact Hy].
Qed.

Lemma has_prop_in k props :
  JS.has_prop k props = true <-> In k (List.map fst props).
Proof.
  induction props as [|[k0 v0] rest IH]; simpl; [split; [discriminate | tauto] |].
  rewrite orb_true_iff, IH, String.eqb_eq. intuition congruence.
Qed.

Lemma has_prop_out k props :
  JS.has_prop k props = false <-> ~ In k (List.map fst props).
Proof.
  rewrite <- has_prop_in. destruct (JS.has_prop k props); intuition congruence.
Qed.

Lemma lookup_prop_in k v props :
  List.NoDup (List.map fst props) -> In (k, v) props -> JS.lookup_prop k props = v.
Proof.
  induction props as [|[k0 v0] rest IH]; simpl; intros Hnd Hin; [tauto |].
  apply NoDup_cons_iff in Hnd as [Hout Hnd].
  destruct Hin as [[= -> ->] | Hin].
  - by rewrite String.eqb_refl.
  - destruct (String.eqb k k0) eqn:Heq; [|by apply IH].
    apply String.eqb_eq in Heq. subst k0.
    exfalso. apply Hout. apply in_map_iff. by exists (k, v).
Qed.

Lemma lookup_prop_absent k props :
  JS.has_prop k props = false -> JS.lookup_prop k props = JUndefined.
Proof.
  induction props as [|[k0 v0] rest IH]; simpl; [reflexivity |].
  destruct (String.eqb k k0); simpl; [discriminate | exact IH].
Qed.

(** *** Updating a property *)

Lemma update_keys k v props :
  List.map fst (JS.update k v props) = List.map fst props.
Proof.
  induction props as [|[k0 v0] rest IH]; simpl; [reflexivity |].
  destruct (String.eqb k k0) eqn:Heq; simpl; [|by rewrite IH].
  apply String.eqb_eq in Heq. by subst.
Qed.

Lemma has_update k k' v props :
  JS.has_prop k' (JS.update k v props) = JS.has_prop k' props.
Proof.
  induction props as [|[k0 v0] rest IH]; simpl; [reflexivity |].
  destruct (String.eqb k k0) eqn:Heq; simpl; [|by rewrite IH].
  apply String.eqb_eq in Heq. by subst.
Qed.


Lemma lookup_update_eq k v props :
  JS.has_prop k props = true -> JS.lookup_prop k (JS.update k v props) = v.
Proof.
  induction props as [|[k0 v0] rest IH]; simpl; [discriminate |].
  destruct (String.eqb k k0) eqn:Heq; simpl.
  - by rewrite String.eqb_refl.
  - by rewrite Heq.
Qed.

Lemma lookup_update_ne k k' v props :
  k <> k' -> JS.lookup_prop k' (JS.update k v props) = JS.lookup_prop k' props.
Proof.
  intros Hne. induction props as [|[k0 v0] rest IH]; simpl; [reflexivity |].
  destruct (String.eqb k k0) eqn:Heq; simpl; [|by rewrite IH].
  apply String.eqb_eq in Heq. subst k0.
  destruct (String.eqb k' k) eqn:Heq'; [|reflexivity].
  apply String.eqb_eq in Heq'. congruence.
Qed.



Lemma filter_update (f : string * JSValue -> bool) k v props :
  (forall x, f (k, x) = false) ->
  List.filter f (JS.update k v props) = List.filter f props.
Proof.
  intros Hout. induction props as [|[k0 v0] rest IH]; simpl; [reflexivity |].
  destruct (String.eqb k k0) eqn:Heq; simpl.
  - apply String.eqb_eq in Heq. subst k0. by rewrite !Hout.
  - by rewrite IH.
Qed.

(** *** Creating a property *)

Lemma place_in k v props x :
  In x (JS.place k v props) <-> x = (k, v) \/ In x props.
Proof.
  induction props as [|[k0 v0] rest IH]; simpl; [intuition congruence |].
  destruct (JS.precedes k k0); simpl; [intuition congruence |].
  rewrite IH. tauto.
Qed.

Lemma place_permutation k v props :
  Permutation ((k, v) :: props) (JS.place k v props).
Proof.
  induction props as [|[k0 v0] rest IH]; simpl; [reflexivity |].
  destruct (JS.precedes k k0); [reflexivity |].
  etransitivity; [apply perm_swap |]. by constructor.
Qed.

Lemma has_place k k' v props :
  JS.has_prop k' (JS.place k v props) = String.eqb k' k || JS.has_prop k' props.
Proof.
  induction props as [|[k0 v0] rest IH]; simpl; [reflexivity |].
  destruct (JS.precedes k k0); simpl; [reflexivity |].
  rewrite IH. destruct (String.eqb k' k0), (String.eqb k' k); reflexivity.
Qed.

Lemma lookup_place_eq k v props :
  JS.has_prop k props = false -> JS.lookup_prop k (JS.place k v props) = v.
Proof.
  induction props as [|[k0 v0] rest IH]; simpl.
  - by rewrite String.eqb_refl.
  - destruct (String.eqb k k0) eqn:Heq; simpl; [discriminate |].
    intros Hout. destruct (JS.precedes k k0); simpl.
    + by rewrite String.eqb_refl.
    + rewrite Heq. by apply IH.
Qed.

Lemma lookup_place_ne k k' v props :
  k <> k' -> JS.lookup_prop k' (JS.place k v props) = JS.lookup_prop k' props.
Proof.
  intros Hne. apply not_eq_sym, String.eqb_neq in Hne.
  induction props as [|[k0 v0] rest IH]; simpl.
  - by rewrite Hne.
  - destruct (JS.precedes k k0); simpl; [by rewrite Hne |].
    by rewrite IH.
Qed.

Lemma place_last k v props :
  (forall x, In x props -> JS.precedes k (fst x) = false) ->
  JS.place k v props = (props ++ [(k, v)])%list.
Proof.
  induction props as [|[k0 v0] rest IH]; simpl; intros Hall; [reflexivity |].
  pose proof (Hall (k0, v0) (or_introl eq_refl)) as Hk0. simpl in Hk0.
  rewrite Hk0. f_equal. apply IH.
  intros x Hin. apply Hall. by right.
Qed.

Lemma place_first k v props :
  (forall x, In x props -> JS.precedes k (fst x) = true) ->
  JS.place k v props = (k, v) :: props.
Proof.
  destruct props as [|[k0 v0] rest]; simpl; intros Hall; [reflexivity |].
  pose proof (Hall (k0, v0) (or_introl eq_refl)) as Hk0. simpl in Hk0.
  by rewrite Hk0.
Qed.



Lemma place_enumerated k v props :
  JS.has_prop k props = false -> enumerated props = true ->
  enumerated (JS.place k v props) = true.
Proof.
  induction props as [|[k0 v0] rest IH]; [reflexivity |].
  intros Hout Henum. simpl in Hout. apply orb_false_elim in Hout as [Hne Hout].
  apply String.eqb_neq in Hne.
  pose proof (proj1 (enumerated_cons _ _ _) Henum) as [Hall Hrest].
  simpl JS.place. destruct (JS.precedes k k0) eqn:Hord.
  - apply enumerated_cons. split; [|exact Henum].
    intros x [<- | Hin]; simpl.
    + split; [congruence | by apply precedes_asym].
    + destruct (Hall x Hin) as [Hx Hxk]. split.
      * intros Heq. apply has_prop_out in Hout. apply Hout.
        rewrite <- Heq. by apply in_map.
      * by apply (precedes_behind k k0).
  - apply enumerated_cons. split; [|by apply IH].
    intros x Hin. apply place_in in Hin as [-> | Hin]; [|by apply Hall].
    simpl. split; [exact Hne | exact Hord].
Qed.

Lemma filter_place (f : string * JSValue -> bool) (g : string -> bool) k v props :
  (forall x, f x = g (fst x)) -> g k = true -> enumerated props = true ->
  List.filter f (JS.place k v props) = JS.place k v (List.filter f props).
Proof.
  intros Hf Hk. induction props as [|[k0 v0] rest IH]; intros Henum.
  - simpl. rewrite (Hf (k, v)). simpl. by rewrite Hk.
  - pose proof (proj1 (enumerated_cons _ _ _) Henum) as [Hall Hrest].
    simpl JS.place. destruct (JS.precedes k k0) eqn:Hord.
    + cbn [List.filter]. rewrite (Hf (k, v)). simpl fst. rewrite Hk.
      symmetry. apply place_first.
      intros x Hin.
      assert (Hin' : In x ((k0, v0) :: rest)).
      { cbn [List.filter] in Hin. destruct (f (k0, v0)).
        - destruct Hin as [<- | Hin]; [by left | right].
          by apply filter_In in Hin as [Hin _].
        - right. by apply filter_In in Hin as [Hin _]. }
      destruct Hin' as [<- | Hin']; [exact Hord |].
      destruct (Hall x Hin') as [_ Hx]. by apply (precedes_between k (fst x) k0).
    + cbn [List.filter]. destruct (f (k0, v0)).
      * simpl JS.place. rewrite Hord. f_equal. by apply IH.
      * by apply IH.
Qed.

(** *** Assigning a property *)

Lemma set_prop_created k v props :
  JS.has_prop k props = false -> k <> "__proto__" ->
  JS.set_prop k v props = JS.place k v props.
Proof.
  intros Hout Hk. unfold JS.set_prop. rewrite Hout.
  apply String.eqb_neq in Hk. by rewrite Hk.
Qed.

Lemma set_prop_proto v props :
  JS.has_prop "__proto__" props = false -> JS.set_prop "__proto__" v props = props.
Proof. intros Hout. unfold JS.set_prop. by rewrite Hout. Qed.

Lemma has_set_prop k k' v props :
  JS.has_prop k' (JS.set_prop k v props)
  = JS.has_prop k' props || (String.eqb k' k && negb (String.eqb k "__proto__")).
Proof.
  unfold JS.set_prop. destruct (JS.has_prop k props) eqn:Hin.
  - rewrite has_update. destruct (String.eqb k' k) eqn:Heq; simpl;
      [|by rewrite orb_false_r].
    apply String.eqb_eq in Heq. subst k'. by rewrite Hin.
  - destruct (String.eqb k "__proto__"); simpl.
    + by rewrite andb_false_r, orb_false_r.
    + rewrite has_place, andb_true_r. apply orb_comm.
Qed.


Lemma has_proto_set_prop k v props :
  JS.has_prop "__proto__" (JS.set_prop k v props) = JS.has_prop "__proto__" props.
Proof.
  rewrite has_set_prop. destruct (String.eqb "__proto__" k) eqn:Heq; simpl;
    [|apply orb_false_r].
  apply String.eqb_eq in Heq. subst k. simpl. apply orb_false_r.
Qed.

Lemma lookup_set_prop_eq k v props :
  k <> "__proto__" -> JS.lookup_prop k (JS.set_prop k v props) = v.
Proof.
  intros Hk. unfold JS.set_prop. destruct (JS.has_prop k props) eqn:Hin.
  - by apply lookup_update_eq.
  - apply String.eqb_neq in Hk. rewrite Hk. by apply lookup_place_eq.
Qed.

Lemma lookup_set_prop_ne k k' v props :
  k <> k' ->
  JS.lookup_prop k' (JS.set_prop k v props) = JS.lookup_prop k' props.
Proof.
  intros Hne. unfold JS.set_prop. destruct (JS.has_prop k props).
  - by apply lookup_update_ne.
  - destruct (String.eqb k "__proto__"); [reflexivity |].
    by apply lookup_place_ne.
Qed.

Lemma set_prop_in k v props x :
  In x (JS.set_prop k v props) -> x = (k, v) \/ In x props.
Proof.
  unfold JS.set_prop. destruct (JS.has_prop k props).
  - induction props as [|[k0 v0] rest IH]; simpl; [tauto |].
    destruct (String.eqb k k0); simpl; intuition.
  - destruct (String.eqb k "__proto__"); [tauto |]. apply place_in.
Qed.

Lemma set_prop_NoDup k v props :
  List.NoDup (List.map fst props) -> List.NoDup (List.map fst (JS.set_prop k v props)).
Proof.
  intros Hnd. unfold JS.set_prop. destruct (JS.has_prop k props) eqn:Hin.
  - by rewrite update_keys.
  - destruct (String.eqb k "__proto__"); [exact Hnd |].
    apply (Permutation_NoDup (Permutation_map fst (place_permutation k v props))).
    simpl. constructor; [by apply has_prop_out | exact Hnd].
Qed.

Lemma update_enumerated k v props :
  enumerated props = true -> enumerated (JS.update k v props) = true.
Proof.
  induction props as [|[k0 v0] rest IH]; [reflexivity |].
  intros Henum. pose proof (proj1 (enumerated_cons _ _ _) Henum) as [Hall Hrest].
  simpl. destruct (String.eqb k k0) eqn:Heq.
  - apply String.eqb_eq in Heq. subst k0. by apply enumerated_cons.
  - apply enumerated_cons. split; [|by apply IH].
    intros x Hin.
    assert (Hkey : In (fst x) (List.map fst rest))
      by (rewrite <- (update_keys k v rest); by apply in_map).
    apply in_map_iff in Hkey as (y & Hy & Hin'). rewrite <- Hy. by apply Hall.
Qed.

Lemma set_prop_enumerated k v props :
  enumerated props = true -> enumerated (JS.set_prop k v props) = true.
Proof.
  intros Henum. unfold JS.set_prop. destruct (JS.has_prop k props) eqn:Hin.
  - by apply update_enumerated.
  - destruct (String.eqb k "__proto__"); [exact Henum |].
    by apply place_enumerated.
Qed.




Lemma filter_set_prop_out (f : string * JSValue -> bool) k v props :
  (forall x, f (k, x) = false) ->
  List.filter f (JS.set_prop k v props) = List.filter f props.
Proof.
  intros Hout. unfold JS.set_prop. destruct (JS.has_prop k props).
  - by apply filter_update.
  - destruct (String.eqb k "__proto__"); [reflexivity |].
    induction props as [|[k0 v0] rest IH]; simpl; [by rewrite Hout |].
    destruct (JS.precedes k k0); simpl; [by rewrite Hout |].
    by rewrite IH.
Qed.

Lemma has_filter (f : string * JSValue -> bool) (g : string -> bool) k props :
  (forall x, f x = g (fst x)) ->
  JS.has_prop k (List.filter f props) = g k && JS.has_prop k props.
Proof.
  intros Hf. induction props as [|[k0 v0] rest IH]; simpl;
    [by rewrite andb_false_r |].
  rewrite (Hf (k0, v0)). simpl fst.
  destruct (String.eqb k k0) eqn:Heq.
  - apply String.eqb_eq in Heq. subst k0.
    destruct (g k) eqn:Hg; simpl; [by rewrite String.eqb_refl |].
    exact IH.
  - destruct (g k0); simpl; rewrite ?Heq, IH; reflexivity.
Qed.

Lemma lookup_filter (f : string * JSValue -> bool) (g : string -> bool) k props :
  (forall x, f x = g (fst x)) -> g k = true ->
  JS.lookup_prop k (List.filter f props) = JS.lookup_prop k props.
Proof.
  intros Hf Hk. induction props as [|[k0 v0] rest IH]; simpl; [reflexivity |].
  rewrite (Hf (k0, v0)). simpl fst.
  destruct (String.eqb k k0) eqn:Heq.
  - apply String.eqb_eq in Heq. subst k0. rewrite Hk. simpl.
    by rewrite String.eqb_refl.
  - destruct (g k0); simpl; rewrite ?Heq; exact IH.
Qed.

Lemma filter_update_in (f : string * JSValue -> bool) (g : string -> bool)
    k v props :
  (forall x, f x = g (fst x)) -> g k = true ->
  List.filter f (JS.update k v props) = JS.update k v (List.filter f props).
Proof.
  intros Hf Hk. induction props as [|[k0 v0] rest IH]; simpl; [reflexivity |].
  destruct (String.eqb k k0) eqn:Heq.
  - apply String.eqb_eq in Heq. subst k0. cbn [List.filter].
    rewrite !Hf. simpl fst. rewrite Hk. simpl. by rewrite String.eqb_refl.
  - cbn [List.filter]. rewrite (Hf (k0, v0)). simpl fst.
    destruct (g k0); simpl; rewrite ?Heq, IH; reflexivity.
Qed.

(** Filtering on the keys before or after an assignment. *)
Lemma filter_set_prop (f : string * JSValue -> bool) (g : string -> bool)
    k v props :
  (forall x, f x = g (fst x)) -> enumerated props = true ->
  List.filter f (JS.set_prop k v props)
  = if g k then JS.set_prop k v (List.filter f props) else List.filter f props.
Proof.
  intros Hf Henum. destruct (g k) eqn:Hk.
  - unfold JS.set_prop. rewrite (has_filter f g) by exact Hf. rewrite Hk. simpl.
    destruct (JS.has_prop k props).
    + by apply (filter_update_in f g).
    + destruct (String.eqb k "__proto__"); [reflexivity |].
      by apply (filter_place f g).
  - apply filter_set_prop_out. intros x. by rewrite Hf.
Qed.

(** *** Copying the properties of an object *)

Lemma fold_enumerated src : forall acc,
  enumerated acc = true ->
  enumerated (fold_left (fun t kv => JS.set_prop (fst kv) (snd kv) t) src acc) = true.
Proof.
  induction src as [|[k v] rest IH]; intros acc Henum; simpl; [exact Henum |].
  by apply IH, set_prop_enumerated.
Qed.

Lemma fold_has_proto src : forall acc,
  JS.has_prop "__proto__"
    (fold_left (fun t kv => JS.set_prop (fst kv) (snd kv) t) src acc)
  = JS.has_prop "__proto__" acc.
Proof.
  induction src as [|[k v] rest IH]; intros acc; simpl; [reflexivity |].
  by rewrite IH, has_proto_set_prop.
Qed.

Lemma fold_NoDup src : forall acc,
  List.NoDup (List.map fst acc) ->
  List.NoDup
    (List.map fst (fold_left (fun t kv => JS.set_prop (fst kv) (snd kv) t) src acc)).
Proof.
  induction src as [|[k v] rest IH]; intros acc Hnd; simpl; [exact Hnd |].
  by apply IH, set_prop_NoDup.
Qed.

Lemma fold_in src : forall acc x,
  In x (fold_left (fun t kv => JS.set_prop (fst kv) (snd kv) t) src acc) ->
  In x acc \/ In x src.
Proof.
  induction src as [|[k v] rest IH]; intros acc x Hin; simpl in *; [by left |].
  apply IH in Hin as [Hin | Hin]; [|by right; right].
  apply set_prop_in in Hin as [-> | Hin]; [right; by left | by left].
Qed.

(** Properties in the order of enumeration, none of them named
    [__proto__], are copied as they are. *)
Lemma fold_set_prop (src acc : list (string * JSValue)) :
  enumerated (acc ++ src) = true -> JS.has_prop "__proto__" src = false ->
  fold_left (fun t kv => JS.set_prop (fst kv) (snd kv) t) src acc
  = (acc ++ src)%list.
Proof.
  revert acc. induction src as [|[k v] rest IH]; intros acc Henum Hproto; simpl.
  - by rewrite app_nil_r.
  - cbn [JS.has_prop] in Hproto. apply orb_false_elim in Hproto as [Hk Hproto].
    rewrite String.eqb_sym in Hk. apply String.eqb_neq in Hk.
    pose proof (proj1 (enumerated_app _ _) Henum) as (_ & _ & Hcross).
    assert (Hout : JS.has_prop k acc = false).
    { apply has_prop_out. intros Hin. apply in_map_iff in Hin as (x & Hx & Hin).
      destruct (Hcross x (k, v) Hin (or_introl eq_refl)) as [Hne _].
      simpl in Hne. congruence. }
    rewrite set_prop_created, place_last by assumption || (intros x Hin;
      by destruct (Hcross x (k, v) Hin (or_introl eq_refl))).
    rewrite IH; [by rewrite <- app_assoc | by rewrite <- app_assoc | exact Hproto].
Qed.

(** [Object.assign({}, obj)] is a copy of [obj]. *)
Lemma assign_empty props :
  enumerated props = true -> JS.has_prop "__proto__" props = false ->
  JS.assign [] (JObj props) = props.
Proof. intros Henum Hproto. unfold JS.assign. simpl. by rewrite fold_set_prop. Qed.

Lemma assign_one k v props :
  JS.assign props (JObj [(k, v)]) = JS.set_prop k v props.
Proof. reflexivity. Qed.

Lemma assign_enumerated props :
  enumerated (JS.assign [] (JObj props)) = true
  /\ JS.has_prop "__proto__" (JS.assign [] (JObj props)) = false.
Proof.
  unfold JS.assign. simpl. split; [by apply fold_enumerated | by rewrite fold_has_proto].
Qed.

(** The copy of a copy is the copy. *)
Lemma assign_assign props :
  JS.assign [] (JObj (JS.assign [] (JObj props))) = JS.assign [] (JObj props).
Proof. destruct (assign_enumerated props). by apply assign_empty. Qed.

(** What the copy of an object reads. *)
Lemma fold_read src : forall acc k,
  List.NoDup (List.map fst src) ->
  (forall x, In x src -> JS.has_prop (fst x) acc = false) ->
  k <> "__proto__" ->
  JS.has_prop k (fold_left (fun t kv => JS.set_prop (fst kv) (snd kv) t) src acc)
  = JS.has_prop k acc || JS.has_prop k src
  /\ JS.lookup_prop k (fold_left (fun t kv => JS.set_prop (fst kv) (snd kv) t) src acc)
     = if JS.has_prop k acc then JS.lookup_prop k acc else JS.lookup_prop k src.
Proof.
  induction src as [|[k0 v0] rest IH]; intros acc k Hnd Hfresh Hk; simpl.
  - rewrite orb_false_r. split; [reflexivity |].
    destruct (JS.has_prop k acc) eqn:Hin; [reflexivity |].
    by apply lookup_prop_absent.
  - simpl in Hnd. apply NoDup_cons_iff in Hnd as [Hout Hnd].
    destruct (IH (JS.set_prop k0 v0 acc) k Hnd) as [Hhas Hread]; [|exact Hk |].
    { intros x Hin. rewrite has_set_prop.
      rewrite (Hfresh x) by (by right). simpl.
      destruct (String.eqb (fst x) k0) eqn:Heq; [|reflexivity].
      apply String.eqb_eq in Heq. exfalso. apply Hout. rewrite <- Heq.
      by apply in_map. }
    rewrite Hhas, Hread. rewrite has_set_prop.
    pose proof (Hfresh (k0, v0) (or_introl eq_refl)) as Hk0. simpl in Hk0.
    destruct (String.eqb k k0) eqn:Heq.
    + apply String.eqb_eq in Heq. subst k0. rewrite Hk0.
      apply String.eqb_neq in Hk. rewrite Hk. simpl. split; [reflexivity |].
      apply lookup_set_prop_eq. by apply String.eqb_neq.
    + simpl. rewrite orb_false_r. split; [reflexivity |].
      rewrite lookup_set_prop_ne; [reflexivity |].
      intros ->. by rewrite String.eqb_refl in Heq.
Qed.

Lemma assign_read props k :
  List.NoDup (List.map fst props) -> k <> "__proto__" ->
  JS.has_prop k (JS.assign [] (JObj props)) = JS.has_prop k props
  /\ JS.lookup_prop k (JS.assign [] (JObj props)) = JS.lookup_prop k props.
Proof.
  intros Hnd Hk. unfold JS.assign. simpl.
  destruct (fold_read props [] k Hnd) as [Hhas Hread]; [reflexivity | exact Hk |].
  simpl in Hhas, Hread. by split.
Qed.

(** The copy holds the properties of the object other than [__proto__]. *)
Lemma fold_permutation src : forall acc,
  List.NoDup (List.map fst src) ->
  (forall x, In x src -> JS.has_prop (fst x) acc = false) ->
  Permutation (fold_left (fun t kv => JS.set_prop (fst kv) (snd kv) t) src acc)
    (acc ++ List.filter (kept ["__proto__"]) src).
Proof.
  induction src as [|[k v] rest IH]; intros acc Hnd Hfresh; simpl fold_left.
  - simpl. by rewrite app_nil_r.
  - simpl in Hnd. apply NoDup_cons_iff in Hnd as [Hout Hnd].
    pose proof (Hfresh (k, v) (or_introl eq_refl)) as Hk. simpl in Hk.
    rewrite IH; [|exact Hnd |].
    + cbn [List.filter]. rewrite (kept_key _ (k, v)). cbn [fst snd existsb].
      rewrite orb_false_r. unfold JS.set_prop. rewrite Hk.
      destruct (String.eqb k "__proto__"); cbn [negb]; [reflexivity |].
      rewrite <- place_permutation. apply Permutation_middle.
    + intros x Hin. cbn [fst snd]. rewrite has_set_prop, (Hfresh x) by (by right).
      cbn [orb].
      destruct (String.eqb (fst x) k) eqn:Heq; [|reflexivity].
      apply String.eqb_eq in Heq. exfalso. apply Hout. rewrite <- Heq.
      by apply in_map.
Qed.

Lemma assign_permutation props :
  List.NoDup (List.map fst props) ->
  Permutation (JS.assign [] (JObj props)) (List.filter (kept ["__proto__"]) props).
Proof.
  intros Hnd. unfold JS.assign. cbn [JS.own_props].
  by apply (fold_permutation props []).
Qed.

(** Filtering on the keys before or after the copy. *)
Lemma filter_fold (f : string * JSValue -> bool) (g : string -> bool) src :
  (forall x, f x = g (fst x)) ->
  forall acc,
    enumerated acc = true ->
    List.filter f (fold_left (fun t kv => JS.set_prop (fst kv) (snd kv) t) src acc)
    = fold_left (fun t kv => JS.set_prop (fst kv) (snd kv) t) (List.filter f src)
        (List.filter f acc).
Proof.
  intros Hf. induction src as [|[k v] rest IH]; intros acc Henum; simpl;
    [reflexivity |].
  rewrite IH by (by apply set_prop_enumerated).
  rewrite (filter_set_prop f g) by assumption.
  rewrite (Hf (k, v)). simpl fst. destruct (g k); reflexivity.
Qed.

Lemma filter_assign (f : string * JSValue -> bool) (g : string -> bool) props :
  (forall x, f x = g (fst x)) ->
  List.filter f (JS.assign [] (JObj props))
  = JS.assign [] (JObj (List.filter f props)).
Proof.
  intros Hf. unfold JS.assign. simpl. by rewrite (filter_fold f g).
Qed.







(** *** [objectFromArray] and [withoutKeys] on property lists *)

(** [Object.assign(target, objectFromArray([[k, v]]))] assigns [k]. *)
Lemma assign_pair k v acc :
  JS.has_prop "__proto__" acc = false ->
  JS.assign acc (Util.objectFromArray [(k, v)]) = JS.set_prop k v acc.
Proof.
  intros Hproto. unfold Util.objectFromArray. cbn [fold_left].
  change (JS.assign (JS.assign [] (JObj [])) (JObj [(k, v)]))
    with (JS.set_prop k v []).
  unfold JS.set_prop at 1. cbn [JS.has_prop].
  destruct (String.eqb k "__proto__") eqn:Hk.
  - apply String.eqb_eq in Hk. subst k. by rewrite set_prop_proto.
  - reflexivity.
Qed.

Lemma without_fold obj keys (todo : list (string * JSValue)) : forall acc,
  enumerated acc = true -> JS.has_prop "__proto__" acc = false ->
  (forall kv, In kv todo -> JS.lookup_prop (fst kv) (JS.own_props obj) = snd kv) ->
  fold_left
    (fun result key =>
       if existsb (String.eqb key) keys then result
       else JS.assign (JS.assign [] (JObj result))
              (Util.objectFromArray
                 [(key, JS.lookup_prop key (JS.own_props obj))]))
    (List.map fst todo) acc
  = fold_left (fun t kv => JS.set_prop (fst kv) (snd kv) t)
      (List.filter (kept keys) todo) acc.
Proof.
  induction todo as [|[k v] rest IH]; intros acc Henum Hproto Hvalues;
    [reflexivity |].
  cbn [List.map fold_left List.filter fst]. rewrite kept_key. simpl fst.
  destruct (existsb (String.eqb k) keys) eqn:Hdrop; simpl negb; cbv iota.
  - apply IH; [exact Henum | exact Hproto |].
    intros kv Hin. apply Hvalues. by right.
  - pose proof (Hvalues (k, v) (or_introl eq_refl)) as Hv. simpl in Hv.
    rewrite Hv, assign_empty, assign_pair by assumption.
    cbn [fold_left fst snd]. apply IH.
    + by apply set_prop_enumerated.
    + by rewrite has_proto_set_prop.
    + intros kv Hin. apply Hvalues. by right.
Qed.

(** [withoutKeys] copies the properties it keeps. *)
Lemma withoutKeys_object props keys :
  List.NoDup (List.map fst props) ->
  Util.withoutKeys (JObj props) keys
  = Ok (JObj (JS.assign [] (JObj (List.filter (kept keys) props)))).
Proof.
  intros Hnd. unfold Util.withoutKeys, Util.without. simpl JS.keys. cbn [bind].
  rewrite (without_fold (JObj props) keys props []); [reflexivity.. |].
  intros [k v] Hin. simpl. by apply lookup_prop_in.
Qed.

Lemma filter_NoDup (f : string * JSValue -> bool) props :
  List.NoDup (List.map fst props) ->
  List.NoDup (List.map fst (List.filter f props)).
Proof.
  induction props as [|p ps IH]; simpl; intros Hnd; [constructor |].
  apply NoDup_cons_iff in Hnd as [Hout Hnd].
  destruct (f p); simpl; [|by apply IH].
  constructor; [|by apply IH].
  intros Hin. apply Hout. apply in_map_iff in Hin as (q & Hq & Hin).
  apply filter_In in Hin as [Hin _]. apply in_map_iff. by exists q.
Qed.

Lemma assign_NoDup props :
  List.NoDup (List.map fst (JS.assign [] (JObj props))).
Proof. unfold JS.assign. simpl. apply fold_NoDup. constructor. Qed.

End Props.

(** ** Identifier self-consistency *)

Section Identifier.
Context (C : Collaborators).






End Identifier.



(** ** Builders: frame and purity *)

Section Builders.
Context (C : Collaborators).



End Builders.




(** ** Canonical serialisation *)

Lemma jsize_item x xs : In x xs -> (jsize x < jsize (JArr xs))%nat.
Proof.
  simpl. induction xs as [|y rest IH]; simpl; intros Hin; [tauto |].
  destruct Hin as [-> | Hin]; [lia |]. specialize (IH Hin). lia.
Qed.

Lemma jsize_prop p ps : In p ps -> (jsize (snd p) < jsize (JObj ps))%nat.
Proof.
  simpl. induction ps as [|q rest IH]; simpl; intros Hin; [tauto |].
  destruct Hin as [-> | Hin]; [lia |]. specialize (IH Hin). lia.
Qed.

(** Sorting forgets the order of the keys it is given. *)
Lemma sort_permutation (ks1 ks2 : list string) :
  Permutation ks1 ks2 -> Util.sort ks1 = Util.sort ks2.
Proof.
  intros Hperm. unfold Util.sort.
  apply (Sorted_unique String.le).
  - apply Sorted_merge_sort. apply _.
  - apply Sorted_merge_sort. apply _.
  - by rewrite !merge_sort_Permutation.
Qed.

Lemma visit_items_same (below : JSValue -> list string) xs ys :
  Forall2 same_mapping xs ys ->
  (forall x y, In x xs -> same_mapping x y -> Permutation (below x) (below y)) ->
  forall i, Permutation (JSON.visit_items below i xs) (JSON.visit_items below i ys).
Proof.
  induction 1 as [|x y xs ys Hxy Hrest IH]; intros Hbelow i; simpl;
    [constructor |].
  constructor. apply Permutation_app.
  - apply Hbelow; [by left | exact Hxy].
  - apply IH. intros x' y' Hin. apply Hbelow. by right.
Qed.

Lemma visit_props_same (below : JSValue -> list string)
    (ps qs : list (string * JSValue)) :
  Forall2 (fun p q => fst p = fst q /\ same_mapping (snd p) (snd q)) ps qs ->
  (forall p y, In p ps -> same_mapping (snd p) y ->
               Permutation (below (snd p)) (below y)) ->
  Permutation (flat_map (fun p => fst p :: below (snd p)) ps)
    (flat_map (fun p => fst p :: below (snd p)) qs).
Proof.
  induction 1 as [|p q ps qs [Hkey Hpq] Hrest IH]; intros Hbelow; simpl;
    [constructor |].
  rewrite Hkey. constructor. apply Permutation_app.
  - apply Hbelow; [by left | exact Hpq].
  - apply IH. intros p' y' Hin. apply Hbelow. by right.
Qed.

(** The keys gathered from two values with the same mapping are the same
    keys, in some order. *)
Lemma visited_same (n : nat) : forall v1 v2,
  (jsize v1 < n)%nat -> same_mapping v1 v2 ->
  Permutation (JSON.visited v1) (JSON.visited v2).
Proof.
  induction n as [|n IH]; intros v1 v2 Hsize Hsame; [lia |].
  destruct Hsame as [v | xs ys Hitems | ps qs reordered Hperm Hprops].
  - reflexivity.
  - simpl. apply visit_items_same; [exact Hitems |].
    intros x y Hin Hxy. apply IH; [|exact Hxy].
    pose proof (jsize_item x xs Hin). lia.
  - simpl. etransitivity.
    + apply Permutation_flat_map. exact Hperm.
    + apply visit_props_same; [exact Hprops |].
      intros p y Hin Hpy. apply IH; [|exact Hpy].
      apply Permutation_sym in Hperm.
      pose proof (jsize_prop p ps (Permutation_in _ Hperm Hin)). lia.
Qed.

Lemma assoc_permutation {A} (k : string) (l1 l2 : list (string * A)) :
  List.NoDup (List.map fst l1) -> Permutation l1 l2 ->
  JSON.assoc k l1 = JSON.assoc k l2.
Proof.
  intros Hnd Hperm. induction Hperm as [|[kx x] l l' Hperm IH
                                       |[kx x] [ky y] l
                                       |l l' l'' H1 IH1 H2 IH2].
  - reflexivity.
  - simpl in *. apply NoDup_cons_iff in Hnd as [_ Hnd].
    destruct (String.eqb k kx); [reflexivity | by apply IH].
  - simpl in *. apply NoDup_cons_iff in Hnd as [Hout _].
    destruct (String.eqb k kx) eqn:Hx, (String.eqb k ky) eqn:Hy; try reflexivity.
    apply String.eqb_eq in Hx, Hy. subst. exfalso. apply Hout. by left.
  - rewrite IH1 by exact Hnd. apply IH2.
    apply (Permutation_NoDup (Permutation_map fst H1) Hnd).
Qed.

Lemma assoc_serialised (f g : JSValue -> option string) (k : string)
    (ps qs : list (string * JSValue)) :
  Forall2 (fun p q => fst p = fst q /\ same_mapping (snd p) (snd q)) ps qs ->
  (forall p y, In p ps -> same_mapping (snd p) y -> f (snd p) = g y) ->
  JSON.assoc k (List.map (fun p => (fst p, f (snd p))) ps)
  = JSON.assoc k (List.map (fun p => (fst p, g (snd p))) qs).
Proof.
  induction 1 as [|p q ps qs [Hkey Hpq] Hrest IH]; intros Hsame; simpl;
    [reflexivity |].
  rewrite Hkey, (Hsame p (snd q)) by (by left || exact Hpq).
  destruct (String.eqb k (fst q)); [reflexivity |].
  apply IH. intros p' y Hin. apply Hsame. by right.
Qed.

Lemma members_ext (gap : string) (s1 s2 : list (string * option string))
    (names : list string) :
  (forall P, JSON.assoc P s1 = JSON.assoc P s2) ->
  omap (JSON.member gap s1) names = omap (JSON.member gap s2) names.
Proof.
  intros Hassoc.
  assert (Hmember : forall P, JSON.member gap s1 P = JSON.member gap s2 P)
    by (intros P; unfold JSON.member; by rewrite Hassoc).
  induction names as [|P names IH]; [reflexivity |].
  change (omap (JSON.member gap s1) (P :: names))
    with (match JSON.member gap s1 P with
          | Some y => y :: omap (JSON.member gap s1) names
          | None => omap (JSON.member gap s1) names
          end).
  change (omap (JSON.member gap s2) (P :: names))
    with (match JSON.member gap s2 P with
          | Some y => y :: omap (JSON.member gap s2) names
          | None => omap (JSON.member gap s2) names
          end).
  by rewrite Hmember, IH.
Qed.

Lemma items_serialised (f g : JSValue -> option string) xs ys :
  Forall2 same_mapping xs ys ->
  (forall x y, In x xs -> same_mapping x y -> f x = g y) ->
  List.map (fun x => default "null" (f x)) xs
  = List.map (fun y => default "null" (g y)) ys.
Proof.
  induction 1 as [|x y xs ys Hxy Hrest IH]; intros Hsame; simpl; [reflexivity |].
  rewrite (Hsame x y) by (by left || exact Hxy). f_equal.
  apply IH. intros x' y' Hin. apply Hsame. by right.
Qed.

Lemma well_formed_object ps :
  well_formed (JObj ps) = true ->
  List.NoDup (List.map fst ps)
  /\ forall p, In p ps -> well_formed (snd p) = true.
Proof.
  simpl. intros H. apply andb_prop in H as [Hnd Hall]. split.
  - apply bool_decide_eq_true in Hnd. by apply NoDup_ListNoDup.
  - intros p Hin. rewrite forallb_forall in Hall. by apply Hall.
Qed.

Lemma well_formed_array xs :
  well_formed (JArr xs) = true -> forall x, In x xs -> well_formed x = true.
Proof. simpl. intros H x Hin. rewrite forallb_forall in H. by apply H. Qed.

(** Under an array replacer, two values with the same mapping serialise to
    the same text. *)
Lemma serialize_same (n : nat) : forall v1 v2,
  (jsize v1 < n)%nat -> well_formed v1 = true -> same_mapping v1 v2 ->
  forall ks gap indent,
    JSON.serialize (Some ks) gap indent v1 = JSON.serialize (Some ks) gap indent v2.
Proof.
  induction n as [|n IH]; intros v1 v2 Hsize Hwf Hsame ks gap indent; [lia |].
  destruct Hsame as [v | xs ys Hitems | ps qs reordered Hperm Hprops].
  - reflexivity.
  - simpl. do 2 f_equal. apply items_serialised; [exact Hitems |].
    intros x y Hin Hxy. apply IH; [|by apply (well_formed_array xs)|exact Hxy].
    pose proof (jsize_item x xs Hin). lia.
  - destruct (well_formed_object ps Hwf) as [Hnd Hall].
    simpl. do 2 f_equal. apply members_ext. intros P.
    rewrite (assoc_permutation P _
               (List.map (fun p => (fst p, JSON.serialize (Some ks) gap
                                             (indent ++ gap) (snd p)))
                  reordered)).
    + apply assoc_serialised; [exact Hprops |].
      intros p y Hin Hpy.
      apply Permutation_sym in Hperm.
      pose proof (Permutation_in _ Hperm Hin) as Hin'.
      apply IH; [|by apply Hall|exact Hpy].
      pose proof (jsize_prop p ps Hin'). lia.
    + by rewrite map_map.
    + by apply Permutation_map.
Qed.

Lemma same_mapping_keys (ps qs reordered : list (string * JSValue)) :
  Permutation ps reordered ->
  Forall2 (fun p q => fst p = fst q /\ same_mapping (snd p) (snd q)) reordered qs ->
  Permutation (List.map fst ps) (List.map fst qs).
Proof.
  intros Hperm Hprops. etransitivity; [by apply Permutation_map |].
  clear Hperm. induction Hprops as [|p q ps' qs' [Hkey _] _ IH]; simpl;
    [constructor |].
  rewrite Hkey. by constructor.
Qed.

Lemma kept_props_same keys (ps qs : list (string * JSValue)) :
  Forall2 (fun p q => fst p = fst q /\ same_mapping (snd p) (snd q)) ps qs ->
  Forall2 (fun p q => fst p = fst q /\ same_mapping (snd p) (snd q))
    (List.filter (kept keys) ps) (List.filter (kept keys) qs).
Proof.
  induction 1 as [|p q ps qs [Hkey Hpq] Hrest IH]; simpl; [constructor |].
  assert (kept keys p = kept keys q) as -> by (unfold kept; by rewrite Hkey).
  destruct (kept keys q); [|exact IH].
  constructor; [by split | exact IH].
Qed.

Lemma filter_permutation {A} (f : A -> bool) (l1 l2 : list A) :
  Permutation l1 l2 -> Permutation (List.filter f l1) (List.filter f l2).
Proof.
  induction 1 as [|x l l' _ IH|x y l|l l' l'' _ IH1 _ IH2]; simpl.
  - constructor.
  - destruct (f x); [by constructor | exact IH].
  - destruct (f x), (f y); try reflexivity. constructor.
  - by etransitivity.
Qed.

Lemma well_formed_kept keys ps :
  well_formed (JObj ps) = true ->
  well_formed (JObj (List.filter (kept keys) ps)) = true.
Proof.
  intros Hwf. destruct (well_formed_object ps Hwf) as [Hnd Hall].
  simpl. apply andb_true_intro. split.
  - apply bool_decide_eq_true, NoDup_ListNoDup.
    clear Hall Hwf. induction ps as [|p ps IH]; simpl; [constructor |].
    simpl in Hnd. apply NoDup_cons_iff in Hnd as [Hout Hnd].
    destruct (kept keys p); simpl; [|by apply IH].
    constructor; [|by apply IH].
    intros Hin. apply Hout. apply in_map_iff in Hin as (q & Hq & Hin).
    apply filter_In in Hin as [Hin _]. apply in_map_iff. by exists q.
  - apply forallb_forall. intros p Hin.
    apply filter_In in Hin as [Hin _]. by apply Hall.
Qed.

Lemma orderStringify_same (v1 v2 : JSValue) (space : option Z) :
  well_formed v1 = true -> same_mapping v1 v2 ->
  Util.orderStringify v1 space = Util.orderStringify v2 space.
Proof.
  intros Hwf Hsame. unfold Util.orderStringify, JSON.stringify.
  rewrite (sort_permutation ("" :: JSON.visited v1) ("" :: JSON.visited v2)).
  - by apply (serialize_same (S (jsize v1))); [lia | |].
  - constructor. by apply (visited_same (S (jsize v1))); [lia |].
Qed.

Lemma Forall2_permuted {A B} (R : A -> B -> Prop) (l' m' : list B) :
  Permutation l' m' ->
  forall l, Forall2 R l l' -> exists m, Permutation l m /\ Forall2 R m m'.
Proof.
  induction 1 as [|x l' m' _ IH|x y l'|l' m' n' _ IH1 _ IH2]; intros l Hl.
  - inversion Hl; subst. by exists [].
  - inversion Hl as [|a ? l0 ? Ha Hrest]; subst.
    destruct (IH l0 Hrest) as (m & Hperm & Hm).
    exists (a :: m). split; [by constructor | by constructor].
  - inversion Hl as [|a ? l0 ? Ha Hrest]; subst.
    inversion Hrest as [|b ? l1 ? Hb Hrest']; subst.
    exists (b :: a :: l1). split; [apply perm_swap |].
    constructor; [exact Hb |]. by constructor.
  - destruct (IH1 l Hl) as (m & Hperm & Hm).
    destruct (IH2 m Hm) as (n & Hperm' & Hn).
    exists n. split; [by etransitivity | exact Hn].
Qed.

(** The copy of a well-formed object is well formed. *)
Lemma well_formed_copy ps :
  well_formed (JObj ps) = true ->
  well_formed (JObj (JS.assign [] (JObj ps))) = true.
Proof.
  intros Hwf. destruct (well_formed_object ps Hwf) as [Hnd Hall].
  simpl. apply andb_true_intro. split.
  - apply bool_decide_eq_true, NoDup_ListNoDup, assign_NoDup.
  - apply forallb_forall. intros p Hin. apply Hall.
    unfold JS.assign in Hin. simpl in Hin.
    by apply fold_in in Hin as [[] | Hin].
Qed.

(** The copies of two objects with the same mapping have the same
    mapping. *)
Lemma same_mapping_copy (ps qs : list (string * JSValue)) :
  List.NoDup (List.map fst ps) ->
  same_mapping (JObj ps) (JObj qs) ->
  same_mapping (JObj (JS.assign [] (JObj ps))) (JObj (JS.assign [] (JObj qs))).
Proof.
  intros Hnd Hsame.
  assert (Hcase : exists reordered,
            Permutation ps reordered
            /\ Forall2 (fun p q => fst p = fst q /\ same_mapping (snd p) (snd q))
                 reordered qs).
  { inversion Hsame as [v | | ps' qs' reordered Hperm Hprops]; subst.
    - exists qs. split; [reflexivity |].
      clear. induction qs as [|q qs IH]; constructor; [|exact IH].
      split; [reflexivity | apply same_value].
    - by exists reordered. }
  destruct Hcase as (reordered & Hperm & Hprops).
  assert (Hndq : List.NoDup (List.map fst qs))
    by (apply (Permutation_NoDup (same_mapping_keys ps qs reordered Hperm Hprops)
                 Hnd)).
  pose proof (kept_props_same ["__proto__"] _ _ Hprops) as Hkept.
  destruct (Forall2_permuted _ _ _
              (Permutation_sym (assign_permutation qs Hndq)) _ Hkept)
    as (m & Hm & Hall).
  apply (same_props _ _ m); [|exact Hall].
  etransitivity; [by apply assign_permutation |].
  etransitivity; [apply filter_permutation; exact Hperm | exact Hm].
Qed.

Lemma calcId_same (C : Collaborators) (key : string)
    (ps qs : list (string * JSValue)) :
  well_formed (JObj ps) = true -> same_mapping (JObj ps) (JObj qs) ->
  Jwt.calcId C key (JObj ps) = Jwt.calcId C key (JObj qs).
Proof.
  intros Hwf Hsame.
  inversion Hsame as [v | | ps' qs' reordered Hperm Hprops]; subst;
    [reflexivity |].
  destruct (well_formed_object ps Hwf) as [Hnd _].
  assert (Hndq : List.NoDup (List.map fst qs))
    by (apply (Permutation_NoDup (same_mapping_keys ps qs reordered Hperm Hprops)
                 Hnd)).
  unfold Jwt.calcId. rewrite !withoutKeys_object by assumption. cbn [bind].
  rewrite (orderStringify_same
             (JObj (JS.assign [] (JObj (List.filter (kept [key]) ps))))
             (JObj (JS.assign [] (JObj (List.filter (kept [key]) qs))))).
  - reflexivity.
  - by apply well_formed_copy, well_formed_kept.
  - apply same_mapping_copy; [by apply filter_NoDup |].
    apply (same_props _ _ (List.filter (kept [key]) reordered)).
    + by apply filter_permutation.
    + by apply kept_props_same.
Qed.

(** C7. Two well-formed values with the same key-to-value mapping, whatever
    the order in which the keys of their objects were inserted, have the
    same [orderStringify], for every [space], hence the same
    [digestBase64] of it, and two such objects have the same content
    identifier.  [orderStringify] and [digestBase64] read nothing but their
    arguments, so a repeated call returns what the first returned. *)
Theorem canonical_serialization (D : DigestLib) (v1 v2 : JSValue)
    (space : option Z) :
  well_formed v1 = true ->
  same_mapping v1 v2 ->
  Util.orderStringify v1 space = Util.orderStringify v2 space
  /\ option_map (Util.digestBase64 D) (Util.orderStringify v1 space)
     = option_map (Util.digestBase64 D) (Util.orderStringify v2 space)
  /\ (forall C key ps qs,
        v1 = JObj ps -> v2 = JObj qs ->
        Jwt.calcId C key v1 = Jwt.calcId C key v2).
Proof.
  intros Hwf Hsame.
  pose proof (orderStringify_same v1 v2 space Hwf Hsame) as Hcanon.
  split; [exact Hcanon |]. split; [by rewrite Hcanon |].
  intros C key ps qs -> ->. by apply calcId_same.
Qed.

Lemma canonical_serialization_witness :
  Util.orderStringify
    (JObj [("typ", JStr "Create");
           ("aud", JArr [JObj [("b", JNum 1); ("a", JNull)]])]) (Some 2)
  = Util.orderStringify
      (JObj [("aud", JArr [JObj [("a", JNull); ("b", JNum 1)]]);
             ("typ", JStr "Create")]) (Some 2).
Proof.
  apply (canonical_serialization Sample.plainDigest
           (JObj [("typ", JStr "Create");
                  ("aud", JArr [JObj [("b", JNum 1); ("a", JNull)]])])
           (JObj [("aud", JArr [JObj [("a", JNull); ("b", JNum 1)]]);
                  ("typ", JStr "Create")])
           (Some 2)).
  - vm_compute. reflexivity.
  - apply (same_props _ _
             [("aud", JArr [JObj [("b", JNum 1); ("a", JNull)]]);
              ("typ", JStr "Create")]).
    + apply perm_swap.
    + constructor; [split; [reflexivity |] | constructor;
                    [split; [reflexivity | apply same_value] | constructor]].
      apply same_items. constructor; [|constructor].
      apply (same_props _ _ [("a", JNull); ("b", JNum 1)]).
      * apply perm_swap.
      * repeat constructor.
Defined.

(** * Further properties of [jwt.js] *)

(** ** The header gate and the [Header] schema *)

(** X1. What [verifyClaims] writes to the console.  It logs at most one
    line, and none when it returns [true].  A header that fails the
    [Header] schema gives [false] with the header error alone: the claims
    are not validated and nothing of theirs is logged.  A line logged is
    the header error, the error of the claims test that failed, or the
    error of the signature check.  [verifyClaims] returns [false] without
    a line exactly when the header passes its schema and [validateMeta]
    rejects the metadata. *)
Theorem verifyClaims_log (C : Collaborators) (clock : Clock)
    (claims header meta : JSValue) (schemaClaims schemaMeta : Schema)
    (signature : Buffer) :
  (length (snd (Jwt.verifyClaims C clock claims header meta schemaClaims
                  schemaMeta signature)) <= 1)%nat
  /\ (fst (Jwt.verifyClaims C clock claims header meta schemaClaims schemaMeta
             signature) = true ->
      snd (Jwt.verifyClaims C clock claims header meta schemaClaims schemaMeta
             signature) = [])
  /\ (SchemaLib.validateSchema header Jwt.Header = false ->
      Jwt.verifyClaims C clock claims header meta schemaClaims schemaMeta
        signature
      = (false, [InvalidHeaderSchema]))
  /\ (forall e,
        snd (Jwt.verifyClaims C clock claims header meta schemaClaims schemaMeta
               signature) = [e] ->
        (SchemaLib.validateSchema header Jwt.Header = false
         /\ e = InvalidHeaderSchema)
        \/ (SchemaLib.validateSchema header Jwt.Header = true
            /\ validateMeta C meta schemaMeta = true
            /\ Jwt.checkClaims C clock claims meta schemaClaims = Throw e)
        \/ (SchemaLib.validateSchema header Jwt.Header = true
            /\ fst (Jwt.validateClaims C clock claims meta schemaClaims
                      schemaMeta) = true
            /\ Jwt.checkSignature C claims header signature = Throw e))
  /\ (Jwt.verifyClaims C clock claims header meta schemaClaims schemaMeta
        signature = (false, [])
      <-> SchemaLib.validateSchema header Jwt.Header = true
          /\ validateMeta C meta schemaMeta = false).
Proof.
  unfold Jwt.verifyClaims, Jwt.verifyClaims_try, Jwt.validateClaims,
    Jwt.validateClaims_try.
  destruct (SchemaLib.validateSchema header Jwt.Header); cbn [negb].
  - destruct (validateMeta C meta schemaMeta).
    + destruct (Jwt.checkClaims C clock claims meta schemaClaims) as [[]|e1];
        cbn [bind fst snd].
      * destruct (Jwt.checkSignature C claims header signature) as [[]|e2];
          cbn [bind fst snd app length].
        -- repeat split; try lia; try discriminate;
             try (intros [_ H]; discriminate H).
        -- repeat split; try lia; try discriminate;
             try (intros [_ H]; discriminate H).
           intros e H. injection H as <-. right. right. repeat split.
      * cbn [app length].
        repeat split; try lia; try discriminate;
          try (intros [_ H]; discriminate H).
        intros e H. injection H as <-. right. left. repeat split.
    + cbn [fst snd length].
      repeat split; try lia; try discriminate.
  - cbn [fst snd app length].
    repeat split; try lia; try discriminate;
      try (intros [H _]; discriminate H).
    intros e H. injection H as <-. left. split; reflexivity.
Qed.

Lemma verifyClaims_log_witness :
  SchemaLib.validateSchema (JObj [("alg", JStr "EdDsa")]) Jwt.Header = false
  /\ Jwt.verifyClaims Sample.collaborators Sample.clock
       Sample.createComposition (JObj [("alg", JStr "EdDsa")])
       Sample.composition (Jwt.Create Sample.collaborators) Sample.Composition []
     = (false, [InvalidHeaderSchema])
  /\ validateMeta Sample.collaborators JNull Sample.Composition = false
  /\ Jwt.verifyClaims Sample.collaborators Sample.clock
       Sample.createComposition Sample.composerHeader JNull
       (Jwt.Create Sample.collaborators) Sample.Composition []
     = (false, []).
Proof.
  split; [reflexivity |].
  split.
  - apply (verifyClaims_log Sample.collaborators Sample.clock
             Sample.createComposition (JObj [("alg", JStr "EdDsa")])
             Sample.composition (Jwt.Create Sample.collaborators)
             Sample.Composition []).
    reflexivity.
  - split; [reflexivity |].
    apply (verifyClaims_log Sample.collaborators Sample.clock
             Sample.createComposition Sample.composerHeader JNull
             (Jwt.Create Sample.collaborators) Sample.Composition []).
    split; reflexivity.
Defined.

(** Decides every string comparison among the hypotheses, keeping the
    equalities it finds. *)
Ltac decide_eqb :=
  repeat match goal with
         | H : context [String.eqb ?a ?b] |- _ =>
             let E := fresh "E" in
             destruct (String.eqb a b) eqn:E;
             [apply String.eqb_eq in E | clear E];
             simpl in H; try discriminate H
         end.

(** X2. What the [Header] schema admits: an object whose [typ] is [JWT],
    whose [jwk] is an object with a 43-character [x], and whose [alg] goes
    with the curve of the key: [EdDsa] with an [Ed25519] key of type [OKP],
    or [ES256] with a [P-256] key of type [EC] that has a 43-character
    [y]. *)
Theorem Header_schema_shape (header : JSValue) :
  SchemaLib.validateSchema header Jwt.Header = true <->
  exists props jwk x,
    header = JObj props
    /\ JS.lookup_prop "typ" props = JStr "JWT"
    /\ JS.lookup_prop "jwk" props = JObj jwk
    /\ JS.lookup_prop "x" jwk = JStr x
    /\ SchemaLib.matches Jwt.base64url43 x = true
    /\ ((JS.lookup_prop "alg" props = JStr "EdDsa"
         /\ JS.lookup_prop "crv" jwk = JStr "Ed25519"
         /\ JS.lookup_prop "kty" jwk = JStr "OKP")
        \/ (JS.lookup_prop "alg" props = JStr "ES256"
            /\ JS.lookup_prop "crv" jwk = JStr "P-256"
            /\ JS.lookup_prop "kty" jwk = JStr "EC"
            /\ exists y,
                 JS.lookup_prop "y" jwk = JStr y
                 /\ SchemaLib.matches Jwt.base64url43 y = true)).
Proof.
  split.
  - intros H. destruct header as [| | | | | |props]; try discriminate.
    unfold Jwt.Header in H. cbn in H.
    destruct (JS.lookup_prop "alg" props) as [| | | |alg| |] eqn:Halg;
      try (cbn in H; rewrite ?andb_false_r in H; discriminate H).
    destruct (JS.lookup_prop "jwk" props) as [| | | | | |jwk] eqn:Hjwk;
      try (cbn in H; rewrite ?andb_false_r in H; discriminate H).
    destruct (JS.lookup_prop "typ" props) as [| | | |typ| |] eqn:Htyp;
      try (cbn in H; rewrite ?andb_false_r in H; discriminate H).
    destruct (JS.lookup_prop "x" jwk) as [| | | |x| |] eqn:Hx;
      try (cbn in H; rewrite ?andb_false_r in H; discriminate H).
    destruct (JS.lookup_prop "crv" jwk) as [| | | |crv| |] eqn:Hcrv;
      try (cbn in H; rewrite ?andb_false_r in H; discriminate H).
    destruct (JS.lookup_prop "kty" jwk) as [| | | |kty| |] eqn:Hkty;
      try (cbn in H; rewrite ?andb_false_r in H; discriminate H).
    exists props, jwk, x.
    destruct (SchemaLib.matches Jwt.base64url43 x) eqn:Hmx;
      [|cbn in H; rewrite ?andb_false_r in H; discriminate H].
    destruct (JS.lookup_prop "y" jwk) as [| | | |y| |] eqn:Hy;
      cbn in H; decide_eqb; subst; try congruence;
      try (destruct (SchemaLib.matches Jwt.base64url43 y) eqn:Hmy;
           cbn in H; try discriminate H);
      repeat split; try assumption;
      first [left; by repeat split | right; repeat split; eauto].
  - intros (props & jwk & x & -> & Htyp & Hjwk & Hx & Hmx & Hcurve).
    unfold Jwt.Header. cbn. rewrite Htyp, Hjwk, Hx, Hmx.
    destruct Hcurve as [(Halg & Hcrv & Hkty) | (Halg & Hcrv & Hkty & y & Hy & Hmy)].
    + rewrite Halg, Hcrv, Hkty. cbn.
      destruct (JS.lookup_prop "y" jwk); reflexivity.
    + rewrite Halg, Hcrv, Hkty, Hy, Hmy. reflexivity.
Qed.

Lemma Header_schema_shape_witness :
  SchemaLib.validateSchema Sample.performerHeader Jwt.Header = true
  /\ exists props jwk x,
       Sample.performerHeader = JObj props
       /\ JS.lookup_prop "typ" props = JStr "JWT"
       /\ JS.lookup_prop "jwk" props = JObj jwk
       /\ JS.lookup_prop "x" jwk = JStr x
       /\ SchemaLib.matches Jwt.base64url43 x = true
       /\ ((JS.lookup_prop "alg" props = JStr "EdDsa"
            /\ JS.lookup_prop "crv" jwk = JStr "Ed25519"
            /\ JS.lookup_prop "kty" jwk = JStr "OKP")
           \/ (JS.lookup_prop "alg" props = JStr "ES256"
               /\ JS.lookup_prop "crv" jwk = JStr "P-256"
               /\ JS.lookup_prop "kty" jwk = JStr "EC"
               /\ exists y,
                    JS.lookup_prop "y" jwk = JStr y
                    /\ SchemaLib.matches Jwt.base64url43 y = true)).
Proof.
  assert (Hvalid : SchemaLib.validateSchema Sample.performerHeader Jwt.Header
                   = true) by (vm_compute; reflexivity).
  split; [exact Hvalid |].
  exact (proj1 (Header_schema_shape Sample.performerHeader) Hvalid).
Defined.

(** ** Building and signing *)

(** X3. A key of the right length gives a header, and nothing is logged:
    [ed25519Header] puts the encoded key under [jwk.x]; [secp256k1Header]
    puts the two encoded coordinates under [jwk.x] and [jwk.y], and returns
    the empty object with the error logged when [uncompress] throws.  The
    header built passes the [Header] schema exactly when the encodings have
    the 43 characters of the schema. *)
Theorem header_built (C : Collaborators) (publicKey : Buffer) :
  (length publicKey = 32%nat ->
   Jwt.ed25519Header C publicKey
   = (JObj [ ("alg", JStr "EdDsa");
             ("jwk", JObj [ ("x", JStr (encodeBase64_buffer C publicKey));
                            ("crv", JStr "Ed25519");
                            ("kty", JStr "OKP") ]);
             ("typ", JStr "JWT") ], [])
   /\ SchemaLib.validateSchema (fst (Jwt.ed25519Header C publicKey)) Jwt.Header
      = SchemaLib.matches Jwt.base64url43 (encodeBase64_buffer C publicKey))
  /\ (length publicKey = 33%nat ->
      match secp256k1_uncompress C publicKey with
      | None => Jwt.secp256k1Header C publicKey = (JObj [], [UncompressFailed])
      | Some coords =>
          Jwt.secp256k1Header C publicKey
          = (JObj [ ("alg", JStr "ES256");
                    ("jwk", JObj [ ("x", JStr (encodeBase64_buffer C (fst coords)));
                                   ("y", JStr (encodeBase64_buffer C (snd coords)));
                                   ("crv", JStr "P-256");
                                   ("kty", JStr "EC") ]);
                    ("typ", JStr "JWT") ], [])
          /\ SchemaLib.validateSchema (fst (Jwt.secp256k1Header C publicKey))
               Jwt.Header
             = SchemaLib.matches Jwt.base64url43
                 (encodeBase64_buffer C (fst coords))
               && SchemaLib.matches Jwt.base64url43
                    (encodeBase64_buffer C (snd coords))
      end).
Proof.
  split; intros Hlen.
  - unfold Jwt.ed25519Header, Jwt.ed25519Header_try. rewrite Hlen.
    cbn [Nat.eqb negb throw_if bind fst]. split; [reflexivity |].
    cbn. by destruct (SchemaLib.matches _ _).
  - unfold Jwt.secp256k1Header, Jwt.secp256k1Header_try. rewrite Hlen.
    cbn [Nat.eqb negb throw_if bind fst].
    destruct (secp256k1_uncompress C publicKey) as [coords|]; [|reflexivity].
    split; [reflexivity |].
    cbn. by destruct (SchemaLib.matches _ (encodeBase64_buffer C (fst coords))),
              (SchemaLib.matches _ (encodeBase64_buffer C (snd coords))).
Qed.

Lemma header_built_witness :
  length Sample.composerKey = 32%nat
  /\ SchemaLib.validateSchema
       (fst (Jwt.ed25519Header Sample.collaborators Sample.composerKey))
       Jwt.Header
     = SchemaLib.matches Jwt.base64url43
         (encodeBase64_buffer Sample.collaborators Sample.composerKey).
Proof.
  assert (Hlen : length Sample.composerKey = 32%nat) by reflexivity.
  split; [exact Hlen |].
  exact (proj2 (proj1 (header_built Sample.collaborators Sample.composerKey)
                  Hlen)).
Defined.

(** X4. [signClaims] checks nothing: under a header object whose [alg] is
    neither [EdDsa] nor [ES256] it returns the empty signature rather than
    an error, and it throws only when the header is [null] or [undefined].
    In particular the empty object a builder returns for a bad key signs to
    the empty signature, and [verifyClaims] rejects that header. *)
Theorem signClaims_unknown_alg (C : Collaborators) (claims : JSValue)
    (secretKey : Buffer) :
  (forall props,
     JS.lookup_prop "alg" props <> JStr "EdDsa" ->
     JS.lookup_prop "alg" props <> JStr "ES256" ->
     Jwt.signClaims C claims (JObj props) secretKey = Ok [])
  /\ (forall header e,
        Jwt.signClaims C claims header secretKey = Throw e ->
        (header = JNull \/ header = JUndefined) /\ e = TypeError)
  /\ (forall publicKey,
        length publicKey <> 32%nat ->
        Jwt.signClaims C claims (fst (Jwt.ed25519Header C publicKey)) secretKey
        = Ok []
        /\ forall clock meta schemaClaims schemaMeta signature,
             Jwt.verifyClaims C clock claims (fst (Jwt.ed25519Header C publicKey))
               meta schemaClaims schemaMeta signature
             = (false, [InvalidHeaderSchema])).
Proof.
  split; [|split].
  - intros props Hed Hes. unfold Jwt.signClaims. cbn [JS.get bind].
    destruct (JS.strict_eq (JS.lookup_prop "alg" props) (JStr "EdDsa")) eqn:E1;
      [apply strict_eq_str in E1; contradiction |].
    destruct (JS.strict_eq (JS.lookup_prop "alg" props) (JStr "ES256")) eqn:E2;
      [apply strict_eq_str in E2; contradiction |].
    reflexivity.
  - intros header e H. unfold Jwt.signClaims in H.
    destruct header; simpl in H; try discriminate; injection H as <-; auto.
  - intros publicKey Hlen.
    unfold Jwt.ed25519Header, Jwt.ed25519Header_try.
    apply Nat.eqb_neq in Hlen. rewrite Hlen. cbn [negb throw_if bind fst].
    split; [reflexivity |]. intros. reflexivity.
Qed.

Lemma signClaims_unknown_alg_witness :
  length Sample.performerKey <> 32%nat
  /\ Jwt.signClaims Sample.collaborators Sample.createComposition
       (fst (Jwt.ed25519Header Sample.collaborators Sample.performerKey))
       Sample.composerKey = Ok [].
Proof.
  assert (Hlen : length Sample.performerKey <> 32%nat) by (vm_compute; lia).
  split; [exact Hlen |].
  exact (proj1 (proj2 (proj2 (signClaims_unknown_alg Sample.collaborators
                                Sample.createComposition Sample.composerKey))
                  Sample.performerKey Hlen)).
Defined.

(** ** What the outcome of a validation tells *)

(** The failures thrown by a single test, each with the test that threw
    it. *)
Lemma checkClaims_test_failure (C : Collaborators) clock claims meta schemaClaims e :
  Jwt.checkClaims C clock claims meta schemaClaims = Throw e ->
  (e = InvalidClaimsSchema ->
   SchemaLib.validateSchema claims schemaClaims = false)
  /\ (e = UnexpectedTyp ->
      exists typ, JS.get "typ" claims = Ok typ
                  /\ Jwt.includes ["Create"; "License"] typ = false)
  /\ (e = IatLaterThanNow ->
      exists iat, JS.get "iat" claims = Ok iat
                  /\ Jwt.gt C iat (JNum (clock 0%nat)) = true)
  /\ (e = AudContainsIss ->
      exists aud iss,
        JS.get "aud" claims = Ok aud /\ JS.get "iss" claims = Ok iss
        /\ JS.truthy aud = true
        /\ JS.some aud (fun a => JS.strict_eq a iss) = Ok true)
  /\ (e = SubMismatch ->
      exists sub, JS.get "sub" claims = Ok sub
                  /\ JS.strict_eq sub (JStr (calcMetaId C meta)) = false).
Proof.
  intros H. unfold Jwt.checkClaims in H.
  apply bind_throw in H as [H | (? & _ & H)].
  { apply throw_if_throw in H as [Hc ->]. apply negb_true_iff in Hc.
    repeat split; try discriminate. auto. }
  apply bind_throw in H as [H | (typ & Htyp & H)].
  { apply get_throw in H as ->. repeat split; discriminate. }
  apply bind_throw in H as [H | (? & _ & H)].
  { apply throw_if_throw in H as [Hc ->]. apply negb_true_iff in Hc.
    repeat split; try discriminate. eauto. }
  apply bind_throw in H as [H | (iat & Hiat & H)].
  { apply get_throw in H as ->. repeat split; discriminate. }
  apply bind_throw in H as [H | (? & _ & H)].
  { apply throw_if_throw in H as [Hc ->]. repeat split; try discriminate. eauto. }
  apply bind_throw in H as [H | (aud & Haud & H)].
  { apply get_throw in H as ->. repeat split; discriminate. }
  apply bind_throw in H as [H | (iss & Hiss & H)].
  { apply get_throw in H as ->. repeat split; discriminate. }
  apply bind_throw in H as [H | (self & Hself & H)].
  { destruct (JS.truthy aud); [|discriminate].
    apply some_throw in H as ->. repeat split; discriminate. }
  apply bind_throw in H as [H | (? & _ & H)].
  { apply throw_if_throw in H as [-> ->]. repeat split; try discriminate.
    intros _. exists aud, iss. destruct (JS.truthy aud); [auto | discriminate]. }
  apply bind_throw in H as [H | (exp & Hexp & H)].
  { apply get_throw in H as ->. repeat split; discriminate. }
  apply bind_throw in H as [H | (nbf & Hnbf & H)].
  { apply get_throw in H as ->. repeat split; discriminate. }
  apply bind_throw in H as [H | (? & _ & H)].
  { apply check_exp_throw in H as [->|[->| ->]]; repeat split; discriminate. }
  apply bind_throw in H as [H | (? & _ & H)].
  { apply check_nbf_throw in H as [-> | ->]; repeat split; discriminate. }
  apply bind_throw in H as [H | (id & Hid & H)].
  { apply calcClaimsId_throw in H as ->. repeat split; discriminate. }
  apply bind_throw in H as [H | (jti & Hjti & H)].
  { apply get_throw in H as ->. repeat split; discriminate. }
  apply bind_throw in H as [H | (? & _ & H)].
  { apply throw_if_throw in H as [_ ->]. repeat split; discriminate. }
  apply bind_throw in H as [H | (sub & Hsub & H)].
  { apply get_throw in H as ->. repeat split; discriminate. }
  apply bind_throw in H as [H | (? & _ & H)].
  { apply throw_if_throw in H as [Hc ->]. apply negb_true_iff in Hc.
    repeat split; try discriminate. eauto. }
  apply authorize_throw in H as [->|[->|[->|[->| ->]]]];
    repeat split; discriminate.
Qed.

(** X5. The line [validateClaims] logs names the test that failed: each of
    the schema, [typ], [iat], audience, identifier and subject failures is
    logged only when the test of that name is violated on the claims. *)
Theorem logged_failure_sound (C : Collaborators) (clock : Clock)
    (claims meta : JSValue) (schemaClaims schemaMeta : Schema) (e : Thrown) :
  snd (Jwt.validateClaims C clock claims meta schemaClaims schemaMeta) = [e] ->
  fst (Jwt.validateClaims C clock claims meta schemaClaims schemaMeta) = false
  /\ (e = InvalidClaimsSchema ->
      SchemaLib.validateSchema claims schemaClaims = false)
  /\ (e = UnexpectedTyp ->
      JS.get "typ" claims <> Ok (JStr "Create")
      /\ JS.get "typ" claims <> Ok (JStr "License"))
  /\ (e = IatLaterThanNow ->
      exists iat, JS.get "iat" claims = Ok iat
                  /\ Jwt.gt C iat (JNum (clock 0%nat)) = true)
  /\ (e = AudContainsIss ->
      exists items iss a,
        JS.get "aud" claims = Ok (JArr items) /\ JS.get "iss" claims = Ok iss
        /\ In a items /\ JS.strict_eq a iss = true)
  /\ (e = JtiMismatch ->
      exists id jti,
        Jwt.calcClaimsId C claims = Ok id /\ JS.get "jti" claims = Ok jti
        /\ jti <> JStr id)
  /\ (e = SubMismatch ->
      JS.get "sub" claims <> Ok (JStr (calcMetaId C meta))).
Proof.
  intros Hlog.
  assert (Hfalse : fst (Jwt.validateClaims C clock claims meta schemaClaims
                          schemaMeta) = false).
  { apply not_true_is_false. intros Htrue.
    apply validateClaims_true_log in Htrue. rewrite Htrue in Hlog. discriminate. }
  apply validateClaims_logged in Hlog.
  destruct (checkClaims_test_failure C _ _ _ _ _ Hlog)
    as (Hschema & Htyp & Hiat & Haud & Hsub).
  split; [exact Hfalse |]. split; [exact Hschema |]. split; [|split; [exact Hiat |]].
  - intros He. destruct (Htyp He) as (typ & Hget & Hnot).
    rewrite Hget. split; intros [= ->]; discriminate.
  - split; [|split].
    + intros He. destruct (Haud He) as (aud & iss & Hgaud & Hgiss & _ & Hsome).
      destruct aud; simpl in Hsome; try discriminate.
      injection Hsome as Hsome. apply existsb_exists in Hsome as (a & Hin & Heq).
      exists items, iss, a. auto.
    + intros ->. apply checkClaims_jti_failure in Hlog
        as (id & jti & Hid & Hjti & Hne).
      exists id, jti. repeat split; try assumption.
      intros ->. by rewrite (proj2 (strict_eq_str _ _) eq_refl) in Hne.
    + intros He. destruct (Hsub He) as (sub & Hget & Hne).
      rewrite Hget. intros [= ->].
      by rewrite (proj2 (strict_eq_str _ _) eq_refl) in Hne.
Qed.

Lemma logged_failure_sound_witness :
  snd (Jwt.validateClaims Sample.collaborators Sample.clock
         (Sample.licenseComposition 0) Sample.recording
         (Jwt.License Sample.collaborators) Sample.Recording) = [SubMismatch]
  /\ JS.get "sub" (Sample.licenseComposition 0)
     <> Ok (JStr (calcMetaId Sample.collaborators Sample.recording)).
Proof.
  assert (Hlog : snd (Jwt.validateClaims Sample.collaborators Sample.clock
                        (Sample.licenseComposition 0) Sample.recording
                        (Jwt.License Sample.collaborators) Sample.Recording)
                 = [SubMismatch]) by (vm_compute; reflexivity).
  split; [exact Hlog |].
  exact (proj2 (proj2 (proj2 (proj2 (proj2 (proj2
           (logged_failure_sound Sample.collaborators Sample.clock
              (Sample.licenseComposition 0) Sample.recording
              (Jwt.License Sample.collaborators) Sample.Recording SubMismatch
              Hlog)))))) eq_refl).
Defined.

Lemma includes_string (names : list string) (v : JSValue) :
  Jwt.includes names v = true -> exists name, In name names /\ v = JStr name.
Proof.
  unfold Jwt.includes. intros H.
  apply existsb_exists in H as (name & Hin & Heq). exists name.
  split; [exact Hin |].
  destruct v; simpl in Heq; try discriminate.
  apply String.eqb_eq in Heq. by subst.
Qed.

Lemma get_string_object (k s : string) (v : JSValue) :
  JS.get k v = Ok (JStr s) -> exists props, v = JObj props.
Proof. destruct v; simpl; try discriminate; eauto. Qed.

(** X6. What a [true] of [validateClaims] establishes, whatever the two
    schemas are: the metadata and the claims passed them, both are objects,
    [typ] is [Create] or [License], the stored [jti] is the identifier
    recomputed from the claims, [sub] is the identifier of the metadata
    document, and nothing was logged. *)
Theorem validated_binding (C : Collaborators) (clock : Clock)
    (claims meta : JSValue) (schemaClaims schemaMeta : Schema) :
  fst (Jwt.validateClaims C clock claims meta schemaClaims schemaMeta) = true ->
  snd (Jwt.validateClaims C clock claims meta schemaClaims schemaMeta) = []
  /\ validateMeta C meta schemaMeta = true
  /\ SchemaLib.validateSchema claims schemaClaims = true
  /\ (exists props, claims = JObj props)
  /\ (exists props, meta = JObj props)
  /\ (JS.get "typ" claims = Ok (JStr "Create")
      \/ JS.get "typ" claims = Ok (JStr "License"))
  /\ (exists id, Jwt.calcClaimsId C claims = Ok id
                 /\ JS.get "jti" claims = Ok (JStr id))
  /\ JS.get "sub" claims = Ok (JStr (calcMetaId C meta)).
Proof.
  intros Hvalid.
  pose proof (validateClaims_true_log C _ _ _ _ _ Hvalid) as Hlog.
  apply validateClaims_true in Hvalid as [Hmeta Hchecks].
  apply checkClaims_ok in Hchecks
    as (typ & iat & aud & iss & exp & nbf & id & Hchk).
  destruct Hchk.
  assert (Htyp : typ = JStr "Create" \/ typ = JStr "License").
  { apply includes_string in chk_typ_known0 as (name & Hin & ->).
    destruct Hin as [<- | [<- | []]]; auto. }
  split; [by rewrite Hlog |]. split; [exact Hmeta |]. split; [assumption |].
  split.
  { destruct Htyp as [-> | ->]; eapply get_string_object; eassumption. }
  split.
  { apply authorize_ok in chk_role0.
    destruct chk_role0 as [[H _] | [[H _] | [H _]]];
      eapply get_string_object; eassumption. }
  split; [destruct Htyp as [-> | ->]; auto |].
  split; [by exists id | assumption].
Qed.

Lemma validated_binding_witness :
  fst (Jwt.validateClaims Sample.collaborators Sample.clock
         Sample.createComposition Sample.composition
         (Jwt.Create Sample.collaborators) Sample.Composition) = true
  /\ JS.get "sub" Sample.createComposition
     = Ok (JStr (calcMetaId Sample.collaborators Sample.composition)).
Proof.
  assert (Hvalid : fst (Jwt.validateClaims Sample.collaborators Sample.clock
                          Sample.createComposition Sample.composition
                          (Jwt.Create Sample.collaborators) Sample.Composition)
                   = true) by (vm_compute; reflexivity).
  split; [exact Hvalid |].
  exact (proj2 (proj2 (proj2 (proj2 (proj2 (proj2 (proj2
           (validated_binding Sample.collaborators Sample.clock
              Sample.createComposition Sample.composition
              (Jwt.Create Sample.collaborators) Sample.Composition
              Hvalid)))))))).
Defined.

(** X7. The audience test: claims whose [aud] is an array holding a value
    strictly equal to [iss] fail validation, and so do claims whose [aud] is
    truthy without being an array, [some] not being a method of it. *)
Theorem audience_rejected (C : Collaborators) (clock : Clock)
    (claims meta : JSValue) (schemaClaims schemaMeta : Schema)
    (aud iss : JSValue) :
  JS.get "aud" claims = Ok aud ->
  JS.get "iss" claims = Ok iss ->
  (forall items a,
     aud = JArr items -> In a items -> JS.strict_eq a iss = true ->
     fst (Jwt.validateClaims C clock claims meta schemaClaims schemaMeta) = false)
  /\ (JS.truthy aud = true -> (forall items, aud <> JArr items) ->
      fst (Jwt.validateClaims C clock claims meta schemaClaims schemaMeta) = false).
Proof.
  intros Haud Hiss.
  assert (Hself : fst (Jwt.validateClaims C clock claims meta schemaClaims
                         schemaMeta) = true ->
                  (if JS.truthy aud then JS.some aud (fun a => JS.strict_eq a iss)
                   else Ok false) = Ok false).
  { intros Hvalid. apply validateClaims_true in Hvalid as [_ Hchecks].
    apply checkClaims_ok in Hchecks
      as (typ & iat & aud' & iss' & exp & nbf & id & Hchk).
    destruct Hchk. rewrite Haud in chk_aud0. rewrite Hiss in chk_iss0.
    injection chk_aud0 as <-. injection chk_iss0 as <-. assumption. }
  split.
  - intros items a -> Hin Heq. apply not_true_is_false. intros Hvalid.
    apply Hself in Hvalid. simpl in Hvalid. injection Hvalid as Hnone.
    assert (existsb (fun a => JS.strict_eq a iss) items = true)
      by (apply existsb_exists; eauto).
    congruence.
  - intros Htruthy Hnot. apply not_true_is_false. intros Hvalid.
    apply Hself in Hvalid. rewrite Htruthy in Hvalid.
    destruct aud; simpl in Hvalid; try discriminate.
    by apply (Hnot items).
Qed.

Lemma audience_rejected_witness :
  Jwt.validateClaims Sample.collaborators Sample.clock
    (Sample.licenseOf [Sample.publisher] 900 2000 0) Sample.composition
    (Jwt.License Sample.collaborators) Sample.Composition = (true, [])
  /\ JS.get "aud" (Sample.licenseOf [Sample.publisher; Sample.composer] 900 2000 0)
     = Ok (JArr [JStr Sample.publisher; JStr Sample.composer])
  /\ JS.get "iss" (Sample.licenseOf [Sample.publisher; Sample.composer] 900 2000 0)
     = Ok (JStr Sample.composer)
  /\ snd (Jwt.validateClaims Sample.collaborators Sample.clock
            (Sample.licenseOf [Sample.publisher; Sample.composer] 900 2000 0)
            Sample.composition (Jwt.License Sample.collaborators)
            Sample.Composition) = [AudContainsIss]
  /\ fst (Jwt.validateClaims Sample.collaborators Sample.clock
            (Sample.licenseOf [Sample.publisher; Sample.composer] 900 2000 0)
            Sample.composition (Jwt.License Sample.collaborators)
            Sample.Composition) = false
  /\ Jwt.validateClaims Sample.collaborators Sample.clock
       (Sample.createFor JUndefined) Sample.composition
       (Jwt.Create Sample.collaborators) Sample.Composition = (true, [])
  /\ JS.get "aud" (Sample.createFor (JStr Sample.publisher))
     = Ok (JStr Sample.publisher)
  /\ snd (Jwt.validateClaims Sample.collaborators Sample.clock
            (Sample.createFor (JStr Sample.publisher)) Sample.composition
            (Jwt.Create Sample.collaborators) Sample.Composition) = [TypeError]
  /\ fst (Jwt.validateClaims Sample.collaborators Sample.clock
            (Sample.createFor (JStr Sample.publisher)) Sample.composition
            (Jwt.Create Sample.collaborators) Sample.Composition) = false.
Proof.
  assert (Haud : JS.get "aud"
                   (Sample.licenseOf [Sample.publisher; Sample.composer] 900 2000 0)
                 = Ok (JArr [JStr Sample.publisher; JStr Sample.composer]))
    by (vm_compute; reflexivity).
  assert (Hiss : JS.get "iss"
                   (Sample.licenseOf [Sample.publisher; Sample.composer] 900 2000 0)
                 = Ok (JStr Sample.composer))
    by (vm_compute; reflexivity).
  assert (Hlone : JS.get "aud" (Sample.createFor (JStr Sample.publisher))
                  = Ok (JStr Sample.publisher))
    by (vm_compute; reflexivity).
  assert (Hby : JS.get "iss" (Sample.createFor (JStr Sample.publisher))
                = Ok (JStr Sample.composer))
    by (vm_compute; reflexivity).
  split; [vm_compute; reflexivity |]. split; [exact Haud |].
  split; [exact Hiss |]. split; [vm_compute; reflexivity |]. split.
  { apply (proj1 (audience_rejected Sample.collaborators Sample.clock
                    (Sample.licenseOf [Sample.publisher; Sample.composer]
                       900 2000 0)
                    Sample.composition (Jwt.License Sample.collaborators)
                    Sample.Composition
                    (JArr [JStr Sample.publisher; JStr Sample.composer])
                    (JStr Sample.composer) Haud Hiss)
             [JStr Sample.publisher; JStr Sample.composer]
             (JStr Sample.composer) eq_refl).
    - right. left. reflexivity.
    - vm_compute. reflexivity. }
  split; [vm_compute; reflexivity |]. split; [exact Hlone |].
  split; [vm_compute; reflexivity |].
  apply (proj2 (audience_rejected Sample.collaborators Sample.clock
                  (Sample.createFor (JStr Sample.publisher))
                  Sample.composition (Jwt.Create Sample.collaborators)
                  Sample.Composition (JStr Sample.publisher)
                  (JStr Sample.composer) Hlone Hby)).
  - vm_compute. reflexivity.
  - intros items. discriminate.
Defined.

(** ** Issuance time and the not-before window *)

Lemma check_nbf_numbers (C : Collaborators) (n i rightNow : Z) :
  Jwt.check_nbf C (JNum n) (JNum i) rightNow = Ok tt <->
  n = 0 \/ (i < n /\ n <= rightNow).
Proof.
  unfold Jwt.check_nbf. simpl JS.truthy.
  destruct (n =? 0) eqn:Hzero; simpl negb; cbv iota.
  - split; [lia | reflexivity].
  - rewrite le_numbers, gt_numbers.
    destruct (n <=? i) eqn:Hle; cbn [throw_if bind];
      [split; [discriminate | lia] |].
    destruct (rightNow <? n) eqn:Hlt; cbn [throw_if bind];
      [split; [discriminate | lia] |].
    split; [lia | reflexivity].
Qed.

Lemma check_nbf_not_yet (C : Collaborators) (n : Z) iat rightNow :
  Jwt.check_nbf C (JNum n) iat rightNow = Throw ClaimsNotYetValid ->
  rightNow < n.
Proof.
  unfold Jwt.check_nbf. destruct (JS.truthy (JNum n)); [|discriminate].
  intros H.
  apply bind_throw in H as [H | (? & _ & H)];
    [apply throw_if_throw in H as [_ [=]] |].
  apply bind_throw in H as [H | (? & _ & H)]; [|discriminate].
  apply throw_if_throw in H as [H _]. rewrite gt_numbers in H. lia.
Qed.

Lemma check_exp_numbers (C : Collaborators) (e i : Z) nbf rightNow :
  Jwt.check_exp C (JNum e) (JNum i) nbf rightNow = Ok tt ->
  e = 0
  \/ (i < e /\ rightNow <= e /\ forall n, nbf = JNum n -> n <> 0 -> n < e).
Proof.
  unfold Jwt.check_exp. simpl JS.truthy.
  destruct (e =? 0) eqn:Hzero; simpl negb; cbv iota; [lia |].
  intros H. step H as u0 H0. step H as u1 H1. step H as u2 H2.
  rewrite le_numbers in H0. rewrite lt_numbers in H2.
  right. split; [lia |]. split; [lia |].
  intros n -> Hn. simpl JS.truthy in H1. rewrite le_numbers in H1.
  apply Z.eqb_neq in Hn. rewrite Hn in H1. simpl in H1. lia.
Qed.

(** X8. For claims whose [iat] is the number [i]: an [iat] after [now]
    fails validation and one at or before [now] never logs the issuance
    failure.  A non-zero numeric [nbf] fails validation when it is not
    after [iat], when it is after [now], and when a non-zero [exp] is not
    after it; an [nbf] at or before [now] never logs the not-yet-valid
    failure. *)
Theorem issuance_and_nbf_window (C : Collaborators) (clock : Clock)
    (claims meta : JSValue) (schemaClaims schemaMeta : Schema) (i : Z) :
  JS.get "iat" claims = Ok (JNum i) ->
  (clock 0%nat < i ->
   fst (Jwt.validateClaims C clock claims meta schemaClaims schemaMeta) = false)
  /\ (i <= clock 0%nat ->
      snd (Jwt.validateClaims C clock claims meta schemaClaims schemaMeta)
      <> [IatLaterThanNow])
  /\ (forall n,
        JS.get "nbf" claims = Ok (JNum n) -> n <> 0 ->
        (n <= i \/ clock 1%nat < n ->
         fst (Jwt.validateClaims C clock claims meta schemaClaims schemaMeta)
         = false)
        /\ (n <= clock 1%nat ->
            snd (Jwt.validateClaims C clock claims meta schemaClaims schemaMeta)
            <> [ClaimsNotYetValid])
        /\ (forall e,
              JS.get "exp" claims = Ok (JNum e) -> e <> 0 -> e <= n ->
              fst (Jwt.validateClaims C clock claims meta schemaClaims schemaMeta)
              = false)).
Proof.
  intros Hiat.
  assert (Hchecked :
    fst (Jwt.validateClaims C clock claims meta schemaClaims schemaMeta) = true ->
    exists aud iss exp nbf,
      Jwt.gt C (JNum i) (JNum (clock 0%nat)) = false
      /\ JS.get "exp" claims = Ok exp /\ JS.get "nbf" claims = Ok nbf
      /\ Jwt.check_exp C exp (JNum i) nbf (clock 1%nat) = Ok tt
      /\ Jwt.check_nbf C nbf (JNum i) (clock 1%nat) = Ok tt
      /\ JS.get "aud" claims = Ok aud /\ JS.get "iss" claims = Ok iss).
  { intros Hvalid. apply validateClaims_true in Hvalid as [_ Hchecks].
    apply checkClaims_ok in Hchecks
      as (typ & iat & aud & iss & exp & nbf & id & Hchk).
    destruct Hchk. rewrite Hiat in chk_iat0. injection chk_iat0 as <-.
    exists aud, iss, exp, nbf. auto 10. }
  split; [|split].
  - intros Hfuture. apply not_true_is_false. intros Hvalid.
    destruct (Hchecked Hvalid) as (_ & _ & _ & _ & Hgt & _).
    rewrite gt_numbers in Hgt. lia.
  - intros Hpast Hlog. apply validateClaims_logged in Hlog.
    destruct (proj1 (proj2 (proj2 (checkClaims_test_failure C _ _ _ _ _ Hlog)))
                eq_refl) as (iat & Hget & Hgt).
    rewrite Hiat in Hget. injection Hget as <-. rewrite gt_numbers in Hgt. lia.
  - intros n Hnbf Hn. split; [|split].
    + intros Hout. apply not_true_is_false. intros Hvalid.
      destruct (Hchecked Hvalid) as (_ & _ & _ & nbf & _ & _ & Hnbf' & _ & Hc & _).
      rewrite Hnbf in Hnbf'. injection Hnbf' as <-.
      apply check_nbf_numbers in Hc. lia.
    + intros Hin Hlog. apply validateClaims_logged in Hlog.
      destruct (checkClaims_nbf_failure C _ _ _ _ _ Hlog)
        as (nbf & iat & Hnbf' & _ & Hthrow); [by right |].
      rewrite Hnbf in Hnbf'. injection Hnbf' as <-.
      apply check_nbf_not_yet in Hthrow. lia.
    + intros e Hexp He Hle. apply not_true_is_false. intros Hvalid.
      destruct (Hchecked Hvalid)
        as (_ & _ & exp & nbf & _ & Hexp' & Hnbf' & Hc & _).
      rewrite Hexp in Hexp'. rewrite Hnbf in Hnbf'.
      injection Hexp' as <-. injection Hnbf' as <-.
      apply check_exp_numbers in Hc as [-> | (_ & _ & Hafter)]; [lia |].
      specialize (Hafter n eq_refl Hn). lia.
Qed.

Lemma issuance_and_nbf_window_witness :
  (JS.get "iat" (Sample.licenseOf [Sample.publisher] 1001 2000 0) = Ok (JNum 1001)
   /\ Sample.clock 0%nat < 1001
   /\ snd (Jwt.validateClaims Sample.collaborators Sample.clock
             (Sample.licenseOf [Sample.publisher] 1001 2000 0) Sample.composition
             (Jwt.License Sample.collaborators) Sample.Composition)
      = [IatLaterThanNow]
   /\ fst (Jwt.validateClaims Sample.collaborators Sample.clock
             (Sample.licenseOf [Sample.publisher] 1001 2000 0) Sample.composition
             (Jwt.License Sample.collaborators) Sample.Composition) = false)
  /\ (JS.get "nbf" (Sample.licenseOf [Sample.publisher] 900 2000 950)
      = Ok (JNum 950)
      /\ Jwt.validateClaims Sample.collaborators Sample.clock
           (Sample.licenseOf [Sample.publisher] 900 2000 950) Sample.composition
           (Jwt.License Sample.collaborators) Sample.Composition = (true, [])
      /\ snd (Jwt.validateClaims Sample.collaborators Sample.clock
                (Sample.licenseOf [Sample.publisher] 900 2000 950)
                Sample.composition (Jwt.License Sample.collaborators)
                Sample.Composition) <> [ClaimsNotYetValid])
  /\ (JS.get "nbf" (Sample.licenseOf [Sample.publisher] 900 2000 1500)
      = Ok (JNum 1500)
      /\ Sample.clock 1%nat < 1500
      /\ snd (Jwt.validateClaims Sample.collaborators Sample.clock
                (Sample.licenseOf [Sample.publisher] 900 2000 1500)
                Sample.composition (Jwt.License Sample.collaborators)
                Sample.Composition) = [ClaimsNotYetValid]
      /\ fst (Jwt.validateClaims Sample.collaborators Sample.clock
                (Sample.licenseOf [Sample.publisher] 900 2000 1500)
                Sample.composition (Jwt.License Sample.collaborators)
                Sample.Composition) = false)
  /\ (JS.get "nbf" (Sample.licenseOf [Sample.publisher] 900 2000 900)
      = Ok (JNum 900)
      /\ snd (Jwt.validateClaims Sample.collaborators Sample.clock
                (Sample.licenseOf [Sample.publisher] 900 2000 900)
                Sample.composition (Jwt.License Sample.collaborators)
                Sample.Composition) = [NbfNotAfterIat]
      /\ fst (Jwt.validateClaims Sample.collaborators Sample.clock
                (Sample.licenseOf [Sample.publisher] 900 2000 900)
                Sample.composition (Jwt.License Sample.collaborators)
                Sample.Composition) = false)
  /\ (JS.get "exp" (Sample.licenseOf [Sample.publisher] 900 2000 2000)
      = Ok (JNum 2000)
      /\ snd (Jwt.validateClaims Sample.collaborators Sample.clock
                (Sample.licenseOf [Sample.publisher] 900 2000 2000)
                Sample.composition (Jwt.License Sample.collaborators)
                Sample.Composition) = [ExpNotAfterNbf]
      /\ fst (Jwt.validateClaims Sample.collaborators Sample.clock
                (Sample.licenseOf [Sample.publisher] 900 2000 2000)
                Sample.composition (Jwt.License Sample.collaborators)
                Sample.Composition) = false).
Proof.
  assert (Hnow0 : Sample.clock 0%nat = 1000) by reflexivity.
  assert (Hnow1 : Sample.clock 1%nat = 1000) by reflexivity.
  split; [|split; [|split; [|split]]].
  - assert (Hiat : JS.get "iat" (Sample.licenseOf [Sample.publisher] 1001 2000 0)
                   = Ok (JNum 1001)) by (vm_compute; reflexivity).
    assert (Hlate : Sample.clock 0%nat < 1001) by (rewrite Hnow0; lia).
    split; [exact Hiat |]. split; [exact Hlate |].
    split; [vm_compute; reflexivity |].
    exact (proj1 (issuance_and_nbf_window Sample.collaborators Sample.clock
                    (Sample.licenseOf [Sample.publisher] 1001 2000 0)
                    Sample.composition (Jwt.License Sample.collaborators)
                    Sample.Composition 1001 Hiat) Hlate).
  - assert (Hiat : JS.get "iat" (Sample.licenseOf [Sample.publisher] 900 2000 950)
                   = Ok (JNum 900)) by (vm_compute; reflexivity).
    assert (Hnbf : JS.get "nbf" (Sample.licenseOf [Sample.publisher] 900 2000 950)
                   = Ok (JNum 950)) by (vm_compute; reflexivity).
    split; [exact Hnbf |]. split; [vm_compute; reflexivity |].
    apply (proj2 (proj2 (issuance_and_nbf_window Sample.collaborators Sample.clock
                           (Sample.licenseOf [Sample.publisher] 900 2000 950)
                           Sample.composition (Jwt.License Sample.collaborators)
                           Sample.Composition 900 Hiat)) 950 Hnbf); [lia |].
    rewrite Hnow1. lia.
  - assert (Hiat : JS.get "iat" (Sample.licenseOf [Sample.publisher] 900 2000 1500)
                   = Ok (JNum 900)) by (vm_compute; reflexivity).
    assert (Hnbf : JS.get "nbf" (Sample.licenseOf [Sample.publisher] 900 2000 1500)
                   = Ok (JNum 1500)) by (vm_compute; reflexivity).
    assert (Hlate : Sample.clock 1%nat < 1500) by (rewrite Hnow1; lia).
    split; [exact Hnbf |]. split; [exact Hlate |].
    split; [vm_compute; reflexivity |].
    apply (proj2 (proj2 (issuance_and_nbf_window Sample.collaborators Sample.clock
                           (Sample.licenseOf [Sample.publisher] 900 2000 1500)
                           Sample.composition (Jwt.License Sample.collaborators)
                           Sample.Composition 900 Hiat)) 1500 Hnbf); [lia |].
    right. exact Hlate.
  - assert (Hiat : JS.get "iat" (Sample.licenseOf [Sample.publisher] 900 2000 900)
                   = Ok (JNum 900)) by (vm_compute; reflexivity).
    assert (Hnbf : JS.get "nbf" (Sample.licenseOf [Sample.publisher] 900 2000 900)
                   = Ok (JNum 900)) by (vm_compute; reflexivity).
    split; [exact Hnbf |]. split; [vm_compute; reflexivity |].
    apply (proj2 (proj2 (issuance_and_nbf_window Sample.collaborators Sample.clock
                           (Sample.licenseOf [Sample.publisher] 900 2000 900)
                           Sample.composition (Jwt.License Sample.collaborators)
                           Sample.Composition 900 Hiat)) 900 Hnbf); [lia |].
    left. lia.
  - assert (Hiat : JS.get "iat" (Sample.licenseOf [Sample.publisher] 900 2000 2000)
                   = Ok (JNum 900)) by (vm_compute; reflexivity).
    assert (Hnbf : JS.get "nbf" (Sample.licenseOf [Sample.publisher] 900 2000 2000)
                   = Ok (JNum 2000)) by (vm_compute; reflexivity).
    assert (Hexp : JS.get "exp" (Sample.licenseOf [Sample.publisher] 900 2000 2000)
                   = Ok (JNum 2000)) by (vm_compute; reflexivity).
    split; [exact Hexp |]. split; [vm_compute; reflexivity |].
    apply (proj2 (proj2 (proj2 (proj2 (issuance_and_nbf_window
                           Sample.collaborators Sample.clock
                           (Sample.licenseOf [Sample.publisher] 900 2000 2000)
                           Sample.composition (Jwt.License Sample.collaborators)
                           Sample.Composition 900 Hiat)) 2000 Hnbf
                         ltac:(lia))) 2000 Hexp); lia.
Defined.

(** ** Licenses *)

(** What the [License] schema demands of the fields the checks read. *)
Lemma License_valid (C : Collaborators) (claims : JSValue) :
  SchemaLib.validateSchema claims (Jwt.License C) = true ->
  exists props i e a auds,
    claims = JObj props
    /\ JS.lookup_prop "typ" props = JStr "License"
    /\ JS.lookup_prop "iat" props = JNum i
    /\ JS.lookup_prop "exp" props = JNum e
    /\ JS.lookup_prop "aud" props = JArr (a :: auds)
    /\ SchemaLib.unique (a :: auds) = true
    /\ (JS.lookup_prop "nbf" props = JUndefined
        \/ exists n, JS.lookup_prop "nbf" props = JNum n).
Proof.
  intros H. destruct claims as [| | | | | |props]; try discriminate.
  unfold Jwt.License, Jwt.intDate, Jwt.iat in H. cbn in H. split_andb.
  destruct (JS.lookup_prop "typ" props) as [| | | |typ| |] eqn:Htyp;
    try discriminate.
  destruct (JS.lookup_prop "iat" props) as [| | |i| | |] eqn:Hiat;
    try discriminate.
  destruct (JS.lookup_prop "exp" props) as [| | |e| | |] eqn:Hexp;
    try discriminate.
  destruct (JS.lookup_prop "aud" props) as [| | | | |items|] eqn:Haud;
    try discriminate.
  split_andb.
  destruct items as [|a auds]; [discriminate |].
  exists props, i, e, a, auds.
  repeat split; try assumption.
  - rewrite Htyp. f_equal.
    match goal with
    | H : (typ =? "License")%string || false = true |- _ =>
        apply orb_prop in H as [H | H]; [by apply String.eqb_eq | discriminate]
    end.
  - destruct (JS.lookup_prop "nbf" props) as [| | |n| | |] eqn:Hnbf;
      try discriminate; eauto.
Qed.

(** X9. What a [true] of [validateClaims] under the [License] schema
    guarantees: [iat] is a number not after [now]; [exp] is a number, after
    [iat] and not before [now] unless it is 0; [aud] is a non-empty array
    none of whose items is [iss]; [nbf], when present, is a number, after
    [iat], not after [now] and before a non-zero [exp], unless it is 0; and
    [iss] is in the role-address set of the document. *)
Theorem validated_license (C : Collaborators) (clock : Clock)
    (claims meta : JSValue) (schemaMeta : Schema) :
  fst (Jwt.validateClaims C clock claims meta (Jwt.License C) schemaMeta) = true ->
  exists i e auds iss,
    JS.get "typ" claims = Ok (JStr "License")
    /\ JS.get "iat" claims = Ok (JNum i) /\ i <= clock 0%nat
    /\ JS.get "exp" claims = Ok (JNum e)
    /\ (e = 0 \/ (i < e /\ clock 1%nat <= e))
    /\ JS.get "aud" claims = Ok (JArr auds) /\ auds <> []
    /\ JS.get "iss" claims = Ok iss
    /\ (forall a, In a auds -> JS.strict_eq a iss = false)
    /\ (JS.get "nbf" claims = Ok JUndefined
        \/ exists n,
             JS.get "nbf" claims = Ok (JNum n)
             /\ (n = 0 \/ (i < n /\ n <= clock 1%nat /\ (e = 0 \/ n < e))))
    /\ authorized iss meta.
Proof.
  intros Hvalid. apply validateClaims_true in Hvalid as [_ Hchecks].
  apply checkClaims_ok in Hchecks
    as (typ & iat & aud & iss & exp & nbf & id & Hchk).
  destruct Hchk.
  destruct (License_valid C claims chk_schema0)
    as (props & i & e & a & auds & -> & Htyp & Hiat & Hexp & Haud & _ & Hnbf).
  simpl in chk_typ0, chk_iat0, chk_aud0, chk_iss0, chk_exp_read0, chk_nbf_read0.
  rewrite Hiat in chk_iat0. rewrite Hexp in chk_exp_read0.
  rewrite Haud in chk_aud0.
  injection chk_iat0 as <-. injection chk_exp_read0 as <-.
  injection chk_aud0 as <-. injection chk_iss0 as <-.
  injection chk_nbf_read0 as <-.
  exists i, e, (a :: auds), (JS.lookup_prop "iss" props). simpl JS.get.
  rewrite Htyp, Hiat, Hexp, Haud.
  rewrite gt_numbers in chk_iat_past0.
  pose proof (check_exp_numbers C e i _ _ chk_exp0) as Hcexp.
  split; [reflexivity |]. split; [reflexivity |]. split; [lia |].
  split; [reflexivity |]. split; [lia |].
  split; [reflexivity |]. split; [discriminate |].
  split; [reflexivity |]. split.
  { intros a' Hin. cbn [JS.truthy JS.some] in chk_self0.
    injection chk_self0 as Hnone.
    apply not_true_is_false. intros Heq.
    assert (existsb (fun x => JS.strict_eq x (JS.lookup_prop "iss" props))
              (a :: auds) = true) as Hsome by (apply existsb_exists; eauto).
    cbn [existsb] in Hsome. congruence. }
  split; [|by apply authorize_ok].
  destruct Hnbf as [Hnone | (n & Hn)]; [left; by rewrite Hnone |].
  right. exists n. rewrite Hn in *. split; [reflexivity |].
  apply check_nbf_numbers in chk_nbf0.
  destruct chk_nbf0 as [-> | (Hafter & Hnow)]; [by left |].
  destruct (Z.eq_dec n 0) as [-> | Hnz]; [by left |].
  right. split; [lia |]. split; [lia |].
  destruct Hcexp as [-> | (_ & _ & Hbefore)]; [by left |].
  right. by apply Hbefore.
Qed.

Lemma validated_license_witness :
  fst (Jwt.validateClaims Sample.collaborators Sample.clock
         (Sample.licenseRecording 2000) Sample.recording
         (Jwt.License Sample.collaborators) Sample.Recording) = true
  /\ exists i e auds iss,
       JS.get "typ" (Sample.licenseRecording 2000) = Ok (JStr "License")
       /\ JS.get "iat" (Sample.licenseRecording 2000) = Ok (JNum i)
       /\ i <= Sample.clock 0%nat
       /\ JS.get "exp" (Sample.licenseRecording 2000) = Ok (JNum e)
       /\ (e = 0 \/ (i < e /\ Sample.clock 1%nat <= e))
       /\ JS.get "aud" (Sample.licenseRecording 2000) = Ok (JArr auds)
       /\ auds <> []
       /\ JS.get "iss" (Sample.licenseRecording 2000) = Ok iss
       /\ (forall a, In a auds -> JS.strict_eq a iss = false)
       /\ (JS.get "nbf" (Sample.licenseRecording 2000) = Ok JUndefined
           \/ exists n,
                JS.get "nbf" (Sample.licenseRecording 2000) = Ok (JNum n)
                /\ (n = 0
                    \/ (i < n /\ n <= Sample.clock 1%nat /\ (e = 0 \/ n < e))))
       /\ authorized iss Sample.recording.
Proof.
  assert (Hvalid : fst (Jwt.validateClaims Sample.collaborators Sample.clock
                          (Sample.licenseRecording 2000) Sample.recording
                          (Jwt.License Sample.collaborators) Sample.Recording)
                   = true) by (vm_compute; reflexivity).
  split; [exact Hvalid |].
  exact (validated_license Sample.collaborators Sample.clock
           (Sample.licenseRecording 2000) Sample.recording Sample.Recording
           Hvalid).
Defined.

Lemma Create_valid (C : Collaborators) (claims : JSValue) :
  SchemaLib.validateSchema claims (Jwt.Create C) = true ->
  exists props i,
    claims = JObj props
    /\ JS.lookup_prop "typ" props = JStr "Create"
    /\ JS.lookup_prop "iat" props = JNum i.
Proof.
  intros H. destruct claims as [| | | | | |props]; try discriminate.
  unfold Jwt.Create, Jwt.iat, Jwt.intDate in H. cbn in H. split_andb.
  destruct (JS.lookup_prop "typ" props) as [| | | |typ| |] eqn:Htyp;
    try discriminate.
  destruct (JS.lookup_prop "iat" props) as [| | |i| | |] eqn:Hiat;
    try discriminate.
  split_andb.
  exists props, i. repeat split; try assumption.
  rewrite Htyp. f_equal.
  match goal with
  | H : (typ =? "Create")%string || false = true |- _ =>
      apply orb_prop in H as [H | H]; [by apply String.eqb_eq | discriminate]
  end.
Qed.

(** X20. What a [true] of [validateClaims] under the [Create] schema
    guarantees: [typ] is [Create], [iat] is a number not after [now], and
    [iss] is in the role-address set of the document.  The two claims
    schemas exclude each other: claims validated as a [Create] do not pass
    the [License] schema. *)
Theorem validated_create (C : Collaborators) (clock : Clock)
    (claims meta : JSValue) (schemaMeta : Schema) :
  fst (Jwt.validateClaims C clock claims meta (Jwt.Create C) schemaMeta) = true ->
  exists i iss,
    JS.get "typ" claims = Ok (JStr "Create")
    /\ JS.get "iat" claims = Ok (JNum i) /\ i <= clock 0%nat
    /\ JS.get "iss" claims = Ok iss
    /\ authorized iss meta
    /\ SchemaLib.validateSchema claims (Jwt.License C) = false.
Proof.
  intros Hvalid. apply validateClaims_true in Hvalid as [_ Hchecks].
  apply checkClaims_ok in Hchecks
    as (typ & iat & aud & iss & exp & nbf & id & Hchk).
  destruct Hchk.
  destruct (Create_valid C claims chk_schema0) as (props & i & -> & Htyp & Hiat).
  simpl in chk_iat0, chk_iss0.
  rewrite Hiat in chk_iat0. injection chk_iat0 as <-. injection chk_iss0 as <-.
  exists i, (JS.lookup_prop "iss" props). simpl JS.get. rewrite Htyp, Hiat.
  rewrite gt_numbers in chk_iat_past0.
  split; [reflexivity |]. split; [reflexivity |]. split; [lia |].
  split; [reflexivity |]. split; [by apply authorize_ok |].
  apply not_true_is_false. intros Hlicense.
  destruct (License_valid C (JObj props) Hlicense)
    as (props' & ? & ? & ? & ? & Heq & Htyp' & _).
  injection Heq as <-. rewrite Htyp in Htyp'. discriminate.
Qed.

Lemma validated_create_witness :
  fst (Jwt.validateClaims Sample.collaborators Sample.clock
         Sample.createComposition Sample.composition
         (Jwt.Create Sample.collaborators) Sample.Composition) = true
  /\ exists i iss,
       JS.get "typ" Sample.createComposition = Ok (JStr "Create")
       /\ JS.get "iat" Sample.createComposition = Ok (JNum i)
       /\ i <= Sample.clock 0%nat
       /\ JS.get "iss" Sample.createComposition = Ok iss
       /\ authorized iss Sample.composition
       /\ SchemaLib.validateSchema Sample.createComposition
            (Jwt.License Sample.collaborators) = false.
Proof.
  assert (Hvalid : fst (Jwt.validateClaims Sample.collaborators Sample.clock
                          Sample.createComposition Sample.composition
                          (Jwt.Create Sample.collaborators) Sample.Composition)
                   = true) by (vm_compute; reflexivity).
  split; [exact Hvalid |].
  exact (validated_create Sample.collaborators Sample.clock
           Sample.createComposition Sample.composition Sample.Composition
           Hvalid).
Defined.

(** ** The identifier builder *)



Lemma orderStringify_object props space :
  exists str, Util.orderStringify (JObj props) space = Some str.
Proof. unfold Util.orderStringify, JSON.stringify. simpl. eauto. Qed.

(** X11. [setClaimsId] throws exactly on [null] and [undefined], where
    [Object.keys] throws; on every other value it returns an object whose
    [jti] is a string.  [timestamp] never throws: from a value without
    enumerable properties of its own ([null], [undefined], a number, a
    boolean, the empty string, array or object) it makes the object that
    has [iat] alone. *)
Theorem builders_on_any_value (C : Collaborators) (clock : Clock) (v : JSValue) :
  (v = JNull \/ v = JUndefined -> Jwt.setClaimsId C v = Throw TypeError)
  /\ (v <> JNull -> v <> JUndefined ->
      exists props id,
        Jwt.setClaimsId C v = Ok (JObj props)
        /\ JS.lookup_prop "jti" props = JStr id)
  /\ (JS.own_props v = [] ->
      Jwt.timestamp clock v = JObj [("iat", JNum (clock 0%nat))]).
Proof.
  split; [|split].
  - intros [-> | ->]; reflexivity.
  - intros Hnull Hundef.
    assert (Hkeys : exists own, JS.keys v = Ok own)
      by (destruct v; simpl; eauto; congruence).
    destruct Hkeys as (own & Hown).
    unfold Jwt.setClaimsId, Jwt.calcClaimsId, Jwt.calcId, Util.withoutKeys.
    rewrite Hown. cbn [bind].
    destruct (orderStringify_object (Util.without v ["jti"] own) None)
      as (str & ->).
    cbn [bind]. eexists _, _. split; [reflexivity |].
    unfold JS.assign at 1. cbn [JS.own_props fold_left fst snd].
    apply lookup_set_prop_eq. discriminate.
  - intros Hown. unfold Jwt.timestamp, JS.assign. rewrite Hown. reflexivity.
Qed.

Lemma builders_on_any_value_witness :
  JNum 5 <> JNull /\ JNum 5 <> JUndefined
  /\ exists props id,
       Jwt.setClaimsId Sample.collaborators (JNum 5) = Ok (JObj props)
       /\ JS.lookup_prop "jti" props = JStr id.
Proof.
  assert (H1 : JNum 5 <> JNull) by discriminate.
  assert (H2 : JNum 5 <> JUndefined) by discriminate.
  split; [exact H1 | split; [exact H2 |]].
  exact (proj1 (proj2 (builders_on_any_value Sample.collaborators Sample.clock
                         (JNum 5))) H1 H2).
Defined.

(** * Further properties of [util.js] *)

(** ** [withoutKeys] *)

Lemma listed_key (k : string) (keys : list string) :
  existsb (String.eqb k) keys = true <-> In k keys.
Proof.
  rewrite existsb_exists. split.
  - intros (k' & Hin & Heq). apply String.eqb_eq in Heq. by subst.
  - intros Hin. exists k. split; [exact Hin | apply String.eqb_refl].
Qed.

Lemma lookup_kept keys k props :
  JS.lookup_prop k (List.filter (kept keys) props)
  = if existsb (String.eqb k) keys then JUndefined else JS.lookup_prop k props.
Proof.
  induction props as [|[k0 v0] rest IH]; simpl.
  - by destruct (existsb _ keys).
  - unfold kept at 1. simpl fst.
    destruct (existsb (String.eqb k0) keys) eqn:Hk0; simpl.
    + rewrite IH. destruct (String.eqb k k0) eqn:Heq; [|reflexivity].
      apply String.eqb_eq in Heq. subst k0. by rewrite Hk0.
    + destruct (String.eqb k k0) eqn:Heq; [|exact IH].
      apply String.eqb_eq in Heq. subst k0. by rewrite Hk0.
Qed.

Lemma has_kept keys k props :
  JS.has_prop k (List.filter (kept keys) props)
  = negb (existsb (String.eqb k) keys) && JS.has_prop k props.
Proof.
  apply (has_filter (kept keys) (fun k => negb (existsb (String.eqb k) keys))).
  intros x. apply kept_key.
Qed.

Lemma kept_twice keys (props : list (string * JSValue)) :
  List.filter (kept keys) (List.filter (kept keys) props)
  = List.filter (kept keys) props.
Proof.
  induction props as [|p props IH]; simpl; [reflexivity |].
  destruct (kept keys p) eqn:Hp; simpl; rewrite ?Hp, IH; reflexivity.
Qed.

Lemma filter_enumerated (f : string * JSValue -> bool) props :
  enumerated props = true -> enumerated (List.filter f props) = true.
Proof.
  induction props as [|[k v] rest IH]; [reflexivity |].
  intros Henum. pose proof (proj1 (enumerated_cons _ _ _) Henum) as [Hall Hrest].
  cbn [List.filter]. destruct (f (k, v)); [|by apply IH].
  apply enumerated_cons. split; [|by apply IH].
  intros x Hin. apply filter_In in Hin as [Hin _]. by apply Hall.
Qed.

(** X12. [withoutKeys] throws on [null] and [undefined].  From an object it
    returns a new object, its properties in the order of enumeration, in
    which a listed key is absent, as is [__proto__], and every other key
    reads as in the input; from an object without a property named
    [__proto__] the properties kept stay in their order; and removing the
    same keys again changes nothing. *)
Theorem withoutKeys_spec (obj : JSValue) (keys : list string) :
  (obj = JNull \/ obj = JUndefined -> Util.withoutKeys obj keys = Throw TypeError)
  /\ (forall props,
        obj = JObj props -> List.NoDup (List.map fst props) ->
        exists rest,
          Util.withoutKeys obj keys = Ok (JObj rest)
          /\ enumerated rest = true
          /\ JS.has_prop "__proto__" rest = false
          /\ (forall k, In k keys ->
                        JS.has_prop k rest = false
                        /\ JS.lookup_prop k rest = JUndefined)
          /\ (forall k, ~ In k keys -> k <> "__proto__" ->
                        JS.has_prop k rest = JS.has_prop k props
                        /\ JS.lookup_prop k rest = JS.lookup_prop k props)
          /\ (enumerated props = true -> JS.has_prop "__proto__" props = false ->
              rest = List.filter (kept keys) props)
          /\ Util.withoutKeys (JObj rest) keys = Ok (JObj rest)).
Proof.
  split.
  - intros [-> | ->]; reflexivity.
  - intros props -> Hnd.
    exists (JS.assign [] (JObj (List.filter (kept keys) props))).
    destruct (assign_enumerated (List.filter (kept keys) props))
      as [Henum Hproto].
    assert (Hkept : List.NoDup (List.map fst (List.filter (kept keys) props)))
      by (by apply filter_NoDup).
    split; [by apply withoutKeys_object |]. split; [exact Henum |].
    split; [exact Hproto |]. split; [|split; [|split]].
    + intros k Hin. apply listed_key in Hin.
      assert (Hhas : JS.has_prop k
                       (JS.assign [] (JObj (List.filter (kept keys) props)))
                     = false).
      { destruct (String.eqb k "__proto__") eqn:Hk.
        - apply String.eqb_eq in Hk. by subst k.
        - apply String.eqb_neq in Hk.
          destruct (assign_read _ k Hkept Hk) as [-> _].
          by rewrite has_kept, Hin. }
      split; [exact Hhas | by apply lookup_prop_absent].
    + intros k Hout Hk.
      assert (existsb (String.eqb k) keys = false) as Hlisted
        by (apply not_true_is_false; by rewrite listed_key).
      destruct (assign_read _ k Hkept Hk) as [-> ->].
      by rewrite has_kept, lookup_kept, Hlisted.
    + intros Hordered Hnone. apply assign_empty.
      * by apply filter_enumerated.
      * by rewrite has_kept, Hnone, andb_false_r.
    + rewrite withoutKeys_object by apply assign_NoDup.
      rewrite (filter_assign (kept keys)
                 (fun k => negb (existsb (String.eqb k) keys)))
        by (intros x; apply kept_key).
      by rewrite kept_twice, assign_assign.
Qed.

Lemma withoutKeys_spec_witness :
  exists rest,
    Util.withoutKeys
      (JObj [("1", JNull); ("jti", JStr "x"); ("iss", JStr "a")]) ["jti"]
    = Ok (JObj rest)
    /\ rest = [("1", JNull); ("iss", JStr "a")].
Proof.
  destruct (proj2 (withoutKeys_spec
                     (JObj [("1", JNull); ("jti", JStr "x"); ("iss", JStr "a")])
                     ["jti"])
              [("1", JNull); ("jti", JStr "x"); ("iss", JStr "a")] eq_refl)
    as (rest & Hrun & _ & _ & _ & _ & Hrest & _).
  - repeat constructor; simpl; intuition discriminate.
  - exists rest. split; [exact Hrun |]. apply Hrest; reflexivity.
Defined.

(** ** Objects and arrays of pairs *)

Lemma objectFromArray_fold arr : forall acc,
  enumerated acc = true -> JS.has_prop "__proto__" acc = false ->
  fold_left
    (fun result kv => JS.assign (JS.assign [] (JObj result)) (JObj [kv])) arr acc
  = fold_left (fun t kv => JS.set_prop (fst kv) (snd kv) t) arr acc.
Proof.
  induction arr as [|[k v] rest IH]; intros acc Henum Hproto; [reflexivity |].
  cbn [fold_left]. rewrite assign_empty by assumption. rewrite assign_one.
  apply IH; [by apply set_prop_enumerated | by rewrite has_proto_set_prop].
Qed.

Lemma objectFromArray_copy arr :
  Util.objectFromArray arr = JObj (JS.assign [] (JObj arr)).
Proof.
  unfold Util.objectFromArray. by rewrite objectFromArray_fold.
Qed.

Lemma lookup_prop_app k ps qs :
  JS.lookup_prop k (ps ++ qs)
  = if JS.has_prop k ps then JS.lookup_prop k ps else JS.lookup_prop k qs.
Proof.
  induction ps as [|[k0 v0] rest IH]; simpl; [reflexivity |].
  destruct (String.eqb k k0); [reflexivity | exact IH].
Qed.

Lemma has_prop_app k ps qs :
  JS.has_prop k (ps ++ qs) = JS.has_prop k ps || JS.has_prop k qs.
Proof.
  induction ps as [|[k0 v0] rest IH]; simpl; [reflexivity |].
  destruct (String.eqb k k0); [reflexivity | exact IH].
Qed.

Lemma has_prop_rev k ps : JS.has_prop k (rev ps) = JS.has_prop k ps.
Proof.
  induction ps as [|[k0 v0] rest IH]; simpl; [reflexivity |].
  rewrite has_prop_app, IH. simpl.
  destruct (String.eqb k k0), (JS.has_prop k rest); reflexivity.
Qed.

Lemma fold_set_prop_read arr : forall acc k,
  k <> "__proto__" ->
  JS.lookup_prop k (fold_left (fun t kv => JS.set_prop (fst kv) (snd kv) t) arr acc)
  = (if JS.has_prop k arr then JS.lookup_prop k (rev arr) else JS.lookup_prop k acc)
  /\ JS.has_prop k (fold_left (fun t kv => JS.set_prop (fst kv) (snd kv) t) arr acc)
     = JS.has_prop k arr || JS.has_prop k acc.
Proof.
  induction arr as [|[k0 v0] rest IH]; intros acc k Hk; [by split |].
  cbn [fold_left fst snd rev JS.has_prop].
  destruct (IH (JS.set_prop k0 v0 acc) k Hk) as [-> ->].
  rewrite lookup_prop_app, has_prop_rev, has_set_prop. cbn [JS.lookup_prop].
  destruct (String.eqb k k0) eqn:Heq.
  - apply String.eqb_eq in Heq. subst k0.
    apply String.eqb_neq in Hk. rewrite Hk. cbn [negb andb orb].
    rewrite orb_true_r.
    destruct (JS.has_prop k rest); split; try reflexivity.
    apply lookup_set_prop_eq. by apply String.eqb_neq.
  - cbn [andb orb]. rewrite orb_false_r.
    destruct (JS.has_prop k rest); split; try reflexivity.
    apply lookup_set_prop_ne. intros ->. by rewrite String.eqb_refl in Heq.
Qed.

(** X13. [objectFromArray] builds an object whose properties are in the
    order of enumeration, with distinct keys, which are the keys of the
    pairs other than [__proto__]; when a key comes in several pairs it
    reads as the value of the last of them. *)
Theorem objectFromArray_last_wins (arr : list (string * JSValue)) :
  exists props,
    Util.objectFromArray arr = JObj props
    /\ enumerated props = true
    /\ List.NoDup (List.map fst props)
    /\ JS.has_prop "__proto__" props = false
    /\ forall k,
         k <> "__proto__" ->
         JS.has_prop k props = JS.has_prop k arr
         /\ JS.lookup_prop k props = JS.lookup_prop k (rev arr).
Proof.
  exists (JS.assign [] (JObj arr)).
  destruct (assign_enumerated arr) as [Henum Hproto].
  split; [apply objectFromArray_copy |]. split; [exact Henum |].
  split; [apply assign_NoDup |]. split; [exact Hproto |].
  intros k Hk. unfold JS.assign. cbn [JS.own_props].
  destruct (fold_set_prop_read arr [] k Hk) as [Hread Hhas].
  rewrite Hread, Hhas, orb_false_r. split; [reflexivity |].
  destruct (JS.has_prop k arr) eqn:Hin; [reflexivity |].
  rewrite <- has_prop_rev in Hin. symmetry. cbn [JS.lookup_prop].
  by apply lookup_prop_absent.
Qed.

(** X14. On an object whose properties are in the order of enumeration and
    that has none named [__proto__], [arrayFromObject] lists the
    properties as pairs in their order and [objectFromArray] rebuilds the
    object from them; [arrayFromObject] throws on [null] and
    [undefined]. *)
Theorem object_array_round_trip (props : list (string * JSValue)) :
  enumerated props = true -> JS.has_prop "__proto__" props = false ->
  Util.arrayFromObject (JObj props) = Ok props
  /\ Util.objectFromArray props = JObj props
  /\ Util.arrayFromObject JNull = Throw TypeError
  /\ Util.arrayFromObject JUndefined = Throw TypeError.
Proof.
  intros Henum Hproto. split; [|split; [|split; reflexivity]].
  - unfold Util.arrayFromObject. simpl. f_equal.
    rewrite map_map. rewrite <- (map_id props) at 2.
    apply map_ext_in. intros [k v] Hin. simpl. f_equal.
    apply lookup_prop_in; [by apply enumerated_NoDup | exact Hin].
  - rewrite objectFromArray_copy. f_equal. by apply assign_empty.
Qed.

Lemma object_array_round_trip_witness :
  Util.arrayFromObject (JObj [("0", JStr "x"); ("a", JNum 1); ("b", JNull)])
  = Ok [("0", JStr "x"); ("a", JNum 1); ("b", JNull)]
  /\ Util.objectFromArray [("0", JStr "x"); ("a", JNum 1); ("b", JNull)]
     = JObj [("0", JStr "x"); ("a", JNum 1); ("b", JNull)].
Proof.
  destruct (object_array_round_trip [("0", JStr "x"); ("a", JNum 1); ("b", JNull)])
    as (Hto & Hfrom & _).
  - reflexivity.
  - reflexivity.
  - split; [exact Hto | exact Hfrom].
Defined.

(** ** [orderStringify] and [isEqual] *)

Lemma visit_items_nulled (f : JSValue -> JSValue) xs :
  (forall x, JSON.visited (f x) = JSON.visited x) ->
  forall i,
    JSON.visit_items JSON.visited i (List.map f xs)
    = JSON.visit_items JSON.visited i xs.
Proof.
  intros Hf. induction xs as [|x xs IH]; intros i; simpl; [reflexivity |].
  by rewrite Hf, IH.
Qed.

(** X15. The edges of [orderStringify]: it returns [undefined] for
    [undefined] and a string for every other value; an [undefined] item of
    an array is printed as [null], so that an array and the same array with
    its [undefined] items replaced by [null] have the same text. *)
Theorem orderStringify_edges (v : JSValue) (space : option Z) :
  (Util.orderStringify v space = None <-> v = JUndefined)
  /\ (forall xs,
        Util.orderStringify
          (JArr (List.map (fun x => match x with JUndefined => JNull | _ => x end)
                   xs)) space
        = Util.orderStringify (JArr xs) space).
Proof.
  split.
  - unfold Util.orderStringify, JSON.stringify.
    destruct v as [| |[]| | | |]; simpl; split; congruence.
  - intros xs. unfold Util.orderStringify, JSON.stringify.
    assert (Hkeys :
      JSON.visited
        (JArr (List.map (fun x => match x with JUndefined => JNull | _ => x end) xs))
      = JSON.visited (JArr xs)).
    { simpl. apply visit_items_nulled. by intros []. }
    rewrite Hkeys. simpl. do 2 f_equal.
    rewrite map_map. apply map_ext. by intros [].
Qed.

(** X16. [isEqual] does not see the order in which keys were inserted: two
    values with the same key-to-value mapping are equal for it.  It takes
    [undefined] for equal to [undefined] alone. *)
Theorem isEqual_insensitive (v1 v2 : JSValue) :
  well_formed v1 = true ->
  same_mapping v1 v2 ->
  Util.isEqual v1 v2 = true
  /\ forall v, Util.isEqual JUndefined v = true <-> v = JUndefined.
Proof.
  intros Hwf Hsame. split.
  - unfold Util.isEqual. apply bool_decide_eq_true.
    by apply orderStringify_same.
  - intros v. unfold Util.isEqual. rewrite bool_decide_eq_true.
    unfold Util.orderStringify, JSON.stringify.
    destruct v as [| |[]| | | |]; simpl; split; congruence.
Qed.

Lemma isEqual_insensitive_witness :
  Util.isEqual (JObj [("b", JNum 1); ("a", JNull)])
    (JObj [("a", JNull); ("b", JNum 1)]) = true.
Proof.
  apply (fun Hwf Hsame =>
           proj1 (isEqual_insensitive (JObj [("b", JNum 1); ("a", JNull)])
                    (JObj [("a", JNull); ("b", JNum 1)]) Hwf Hsame)).
  - vm_compute. reflexivity.
  - apply (same_props _ _ [("a", JNull); ("b", JNum 1)]).
    + apply perm_swap.
    + repeat constructor.
Defined.

(** ** Key and type tests *)

Lemma every_hasKey_object props keys :
  JS.has_prop "hasOwnProperty" props = false ->
  Util.every_hasKey (JObj props) keys
  = Ok (forallb (fun k => JS.has_prop k props
                          && Util.not_nullish (JS.lookup_prop k props)) keys).
Proof.
  intros Hown. induction keys as [|k keys IH]; [reflexivity |].
  simpl. unfold Util.hasKey, Util.hasOwnProperty. rewrite Hown. cbn [bind].
  simpl Util.read_own.
  destruct (JS.has_prop k props && Util.not_nullish (JS.lookup_prop k props));
    [exact IH | reflexivity].
Qed.

(** X17. [hasKeys] answers [false] when no key is given, whatever the
    object, [null] included.  Given keys, it throws on [null] and
    [undefined], and on an object it answers whether every key is a
    property whose value is neither [null] nor [undefined]. *)
Theorem hasKeys_spec (obj : JSValue) (keys : list string) :
  Util.hasKeys obj [] = Ok false
  /\ (keys <> [] -> obj = JNull \/ obj = JUndefined ->
      Util.hasKeys obj keys = Throw TypeError)
  /\ (forall props,
        keys <> [] -> obj = JObj props ->
        JS.has_prop "hasOwnProperty" props = false ->
        Util.hasKeys obj keys
        = Ok (forallb (fun k => JS.has_prop k props
                                && Util.not_nullish (JS.lookup_prop k props))
                keys)).
Proof.
  split; [reflexivity |]. split.
  - intros Hkeys Hobj. destruct keys as [|k keys]; [congruence |].
    destruct Hobj as [-> | ->]; reflexivity.
  - intros props Hkeys -> Hown. destruct keys as [|k keys]; [congruence |].
    unfold Util.hasKeys. cbn [List.map Util.isArray negb].
    by apply every_hasKey_object.
Qed.

Lemma hasKeys_spec_witness :
  Util.hasKeys (JObj [("a", JNum 1); ("b", JNull)]) ["a"; "b"] = Ok false.
Proof.
  apply (proj2 (proj2 (hasKeys_spec (JObj [("a", JNum 1); ("b", JNull)])
                         ["a"; "b"]))
           [("a", JNum 1); ("b", JNull)]).
  - discriminate.
  - reflexivity.
  - reflexivity.
Defined.

(** X18. The five type tests exclude each other, and all five fail exactly
    on [null], [undefined], the empty string, the empty array, and an
    object that is empty or has a property named [constructor]. *)
Theorem type_tests (v : JSValue) :
  ((if Util.isArray v then 1 else 0) + (if Util.isBoolean v then 1 else 0)
   + (if Util.isNumber v then 1 else 0) + (if Util.isObject v then 1 else 0)
   + (if Util.isString v then 1 else 0) <= 1)%nat
  /\ (Util.isArray v || Util.isBoolean v || Util.isNumber v || Util.isObject v
      || Util.isString v = false <->
      v = JNull \/ v = JUndefined \/ v = JStr "" \/ v = JArr []
      \/ exists props,
           v = JObj props
           /\ (props = [] \/ JS.has_prop "constructor" props = true)).
Proof.
  split.
  - destruct v as [| | | |s|items|props]; simpl; try lia.
    + destruct (String.eqb s ""); simpl; lia.
    + destruct items; simpl; lia.
    + destruct (negb _ && _); simpl; lia.
  - destruct v as [| | | |s|items|props]; simpl.
    + split; [auto | reflexivity].
    + split; [auto | reflexivity].
    + split; [discriminate |].
      intros [|[|[|[|(? & ? & _)]]]]; discriminate.
    + split; [discriminate |].
      intros [|[|[|[|(? & ? & _)]]]]; discriminate.
    + destruct (String.eqb s "") eqn:Hs; simpl.
      * apply String.eqb_eq in Hs. subst. split; auto.
      * apply String.eqb_neq in Hs. split; [discriminate |].
        intros [|[|[|[|(? & ? & _)]]]]; congruence.
    + destruct items; simpl.
      * split; auto 6.
      * split; [discriminate |].
        intros [|[|[|[|(? & ? & _)]]]]; discriminate.
    + destruct (JS.has_prop "constructor" props) eqn:Hc; simpl.
      * split; [|reflexivity]. intros _. do 4 right. exists props. auto.
      * destruct props as [|p props]; simpl.
        -- split; [|reflexivity]. intros _. do 4 right. exists []. auto.
        -- split; [discriminate |].
           intros [|[|[|[|(props' & [= <-] & [|])]]]]; congruence.
Qed.

(** ** [recurse] *)

Lemma all_some_in {A B} (f : A -> option B) (g : A -> B) (l : list A) :
  (forall a, In a l -> f a = Some (g a)) ->
  Util.all_some f l = Some (List.map g l).
Proof.
  induction l as [|a l IH]; intros Hf; [reflexivity |].
  simpl. rewrite (Hf a) by (by left). rewrite IH; [reflexivity |].
  intros a' Hin. apply Hf. by right.
Qed.

Lemma fold_assign_singletons (l acc : list (string * JSValue)) :
  fold_left JS.assign (List.map (fun p => JObj [p]) l) acc
  = fold_left (fun t kv => JS.set_prop (fst kv) (snd kv) t) l acc.
Proof.
  revert acc. induction l as [|[k v] l IH]; intros acc; [reflexivity |].
  simpl. rewrite assign_one. apply IH.
Qed.

Lemma objectFromArray_one k v :
  k <> "__proto__" -> Util.objectFromArray [(k, v)] = JObj [(k, v)].
Proof.
  intros Hk. rewrite objectFromArray_copy. f_equal.
  unfold JS.assign. cbn [JS.own_props fold_left fst snd].
  by rewrite set_prop_created.
Qed.

Lemma plain_object ps :
  plain (JObj ps) = true ->
  enumerated ps = true /\ JS.has_prop "__proto__" ps = false
  /\ forall p, In p ps -> plain (snd p) = true.
Proof.
  simpl. intros H. apply andb_prop in H as [H Hall].
  apply andb_prop in H as [Henum Hproto]. apply negb_true_iff in Hproto.
  repeat split; try assumption.
  intros p Hin. rewrite forallb_forall in Hall. by apply Hall.
Qed.

Lemma plain_array xs :
  plain (JArr xs) = true -> forall x, In x xs -> plain x = true.
Proof. simpl. intros H x Hin. rewrite forallb_forall in H. by apply H. Qed.

(** X19. With a function that hands its first argument back, [recurse]
    rebuilds the value it is given: for a value whose objects, at any
    depth, list their properties in the order of enumeration and have
    none named [__proto__], and for a depth bound no smaller than its
    size, the result is the value itself.  For any function, a value that
    is neither a non-empty array nor an object accepted by [isObject] is
    returned as it is, the function not being applied to it. *)
Theorem recurse_identity (fuel : nat) : forall x,
  plain x = true -> (jsize x <= fuel)%nat ->
  Util.recurse fuel (fun y _ => y) x = Some x
  /\ forall fn, Util.isArray x = false -> Util.isObject x = false ->
                Util.recurse fuel fn x = Some x.
Proof.
  induction fuel as [|fuel IH]; intros x Hplain Hsize.
  { destruct x; simpl in Hsize; lia. }
  split.
  - destruct x as [| | | | |items|props]; try reflexivity.
    + destruct items as [|a items]; [reflexivity |].
      cbn [Util.recurse Util.isArray option_map].
      rewrite (all_some_in _ (fun y => y)).
      * by rewrite map_id.
      * intros y Hin. apply (fun Hw Hs => proj1 (IH y Hw Hs)).
        -- by apply (plain_array (a :: items)).
        -- pose proof (jsize_item y (a :: items) Hin). lia.
    + cbn [Util.recurse Util.isArray].
      destruct (Util.isObject (JObj props)); [|reflexivity].
      destruct (plain_object props Hplain) as (Henum & Hproto & Hall).
      pose proof (enumerated_NoDup props Henum) as Hnd.
      assert (Hkey : forall k v, In (k, v) props -> k <> "__proto__").
      { intros k v Hin ->. apply has_prop_out in Hproto. apply Hproto.
        apply in_map_iff. by exists ("__proto__", v). }
      rewrite (all_some_in _ (fun k => JObj [(k, JS.lookup_prop k props)])).
      * cbn [option_map]. do 2 f_equal.
        assert (List.map (fun k => JObj [(k, JS.lookup_prop k props)])
                  (List.map fst props)
                = List.map (fun p => JObj [p]) props) as ->.
        { rewrite map_map. apply map_ext_in. intros [k v] Hin. simpl.
          by rewrite (lookup_prop_in k v props). }
        rewrite fold_assign_singletons. by apply (fold_set_prop props []).
      * intros k Hin. apply in_map_iff in Hin as ([k' v] & <- & Hin). simpl.
        rewrite (lookup_prop_in k' v props) by assumption.
        destruct (IH v) as [-> _].
        -- by apply (Hall (k', v)).
        -- pose proof (jsize_prop (k', v) props Hin). simpl in *. lia.
        -- cbn [option_map]. f_equal. apply objectFromArray_one.
           by apply (Hkey k' v).
  - intros fn Harr Hobj. cbn [Util.recurse]. by rewrite Harr, Hobj.
Qed.

Lemma recurse_identity_witness :
  Util.recurse 10 (fun y _ => y)
    (JObj [("1", JNum 0); ("aud", JArr [JStr "a"; JObj [("k", JNull)]]);
           ("exp", JNum 3)])
  = Some (JObj [("1", JNum 0); ("aud", JArr [JStr "a"; JObj [("k", JNull)]]);
                ("exp", JNum 3)]).
Proof.
  apply (fun Hplain Hsize =>
           proj1 (recurse_identity 10
                    (JObj [("1", JNum 0);
                           ("aud", JArr [JStr "a"; JObj [("k", JNull)]]);
                           ("exp", JNum 3)]) Hplain Hsize)).
  - vm_compute. reflexivity.
  - vm_compute. lia.
Defined.
